(** * PicCut: the whitespace detector, the cropper and the batch runner

    A shallow embedding of [processor.py] (the image logic of PicCut),
    of what [gui.py] computes around it, and the properties of its
    specification.

    The file is organised as the program is:
    - [Py]    the few Python built-ins the code relies on (exceptions,
              [range], [any], [str.lower], [str.endswith], [os.path],
              [int] of a float quotient);
    - [PIL]   a value-level model of the Pillow images the code handles:
              an image is its mode string, whether its [info] has a
              transparency entry, its size and its pixels, each recorded
              by the RGBA values Pillow renders it to;
    - [OS]    the directory tree the batch runner walks and writes to;
    - [Processor]  the functions of [processor.py], one definition per
              Python function, in the order of the source.  Functions
              that may raise return a [result]; those that touch files
              thread the file system; the batch loop threads the state
              of its caller as well, which the two callbacks read and
              write, and lists the calls it makes;
    - [Gui]   the preview and the resize geometry of [gui.py];
    - [Samples] and the vocabulary of the statements;
    - the properties. *)

From Stdlib Require Import ZArith Lia Bool List Ascii String Floats Uint63.
From stdpp Require Import base list strings.

Local Open Scope string_scope.
Local Open Scope list_scope.
Local Open Scope Z_scope.

(* ===================================================================== *)
(** ** Python built-ins *)
(* ===================================================================== *)

Module Py.

(** An exception is kept as its class name and the text [str(e)] gives.
    Those raised here are all of classes derived from [Exception], which
    an [except Exception] clause catches. *)
Inductive exn := Exn (cls : string) (msg : string).

Definition str_exn (e : exn) : string :=
  match e with Exn _ msg => msg end.

(** A computation that may raise. *)
Inductive result (A : Type) :=
| Ok (a : A)
| Raise (e : exn).
Arguments Ok {A} a.
Arguments Raise {A} e.

#[global] Instance result_ret : MRet result := fun _ a => Ok a.
#[global] Instance result_bind : MBind result := fun _ _ f m =>
  match m with
  | Ok a => f a
  | Raise e => Raise e
  end.

(** [range(n)]: 0, 1, ..., n-1 (empty when [n <= 0]). *)
Definition range (n : Z) : list Z := seqZ 0 n.

(** [range(start, stop, -1)]: start, start-1, ..., stop+1. *)
Definition range_down (start stop : Z) : list Z :=
  (fun k => start - k) <$> seqZ 0 (start - stop).

(** [any(f(a) for a in l)]: the generator is consumed up to the first
    true element; an exception raised by an element that is reached
    propagates. *)
Fixpoint any {A} (f : A -> result bool) (l : list A) : result bool :=
  match l with
  | [] => Ok false
  | a :: l' => b ← f a; if b : bool then Ok true else any f l'
  end.

(** [x in (s1, ..., sn)] for strings. *)
Definition str_in (x : string) (t : list string) : bool :=
  existsb (String.eqb x) t.

(** Strings are sequences of 8-bit characters; [str.lower] maps the
    letters A-Z to a-z (no character outside ASCII lowers to a letter of
    the extensions compared here). *)
Definition lower_char (c : ascii) : ascii :=
  let n := nat_of_ascii c in
  if (Nat.leb 65 n && Nat.leb n 90)%bool then ascii_of_nat (n + 32) else c.

Fixpoint lower (s : string) : string :=
  match s with
  | EmptyString => EmptyString
  | String c s' => String (lower_char c) (lower s')
  end.

(** [s[i:]] and [s[:i]] for [0 <= i]. *)
Fixpoint drop_str (i : nat) (s : string) : string :=
  match i, s with
  | O, _ => s
  | S i', EmptyString => EmptyString
  | S i', String _ s' => drop_str i' s'
  end.

Fixpoint take_str (i : nat) (s : string) : string :=
  match i, s with
  | O, _ => EmptyString
  | S i', EmptyString => EmptyString
  | S i', String c s' => String c (take_str i' s')
  end.

(** [s.endswith(suffix)] and [s.endswith((s1, ..., sn))]. *)
Definition endswith (s suffix : string) : bool :=
  (Nat.leb (String.length suffix) (String.length s))
  && String.eqb (drop_str (String.length s - String.length suffix) s) suffix.

Definition endswith_any (s : string) (suffixes : list string) : bool :=
  existsb (endswith s) suffixes.

Definition startswith (s pre : string) : bool :=
  String.eqb (take_str (String.length pre) s) pre.

(** [s.rfind(c)]: the index of the last [c], or -1. *)
Fixpoint rfind_from (c : ascii) (s : string) (i : Z) (found : Z) : Z :=
  match s with
  | EmptyString => found
  | String a s' => rfind_from c s' (i + 1) (if Ascii.eqb a c then i else found)
  end.

Definition rfind (c : ascii) (s : string) : Z := rfind_from c s 0 (-1).

(** [s.rstrip(c)] *)
Fixpoint rstrip (c : ascii) (s : string) : string :=
  match s with
  | EmptyString => EmptyString
  | String a s' =>
      match rstrip c s' with
      | EmptyString => if Ascii.eqb a c then EmptyString else String a EmptyString
      | rest => String a rest
      end
  end.

Fixpoint all_char (c : ascii) (s : string) : bool :=
  match s with
  | EmptyString => true
  | String a s' => Ascii.eqb a c && all_char c s'
  end.

Definition sep : ascii := "/"%char.
Definition extsep : ascii := "."%char.

(** [os.path.dirname], [os.path.basename], [os.path.join] and
    [os.path.splitext] of [posixpath]. *)
Definition dirname (p : string) : string :=
  let i := rfind sep p + 1 in
  let head := take_str (Z.to_nat i) p in
  if negb (String.eqb head "") && negb (all_char sep head)
  then rstrip sep head else head.

Definition basename (p : string) : string :=
  let i := rfind sep p + 1 in
  drop_str (Z.to_nat i) p.

Definition join2 (path b : string) : string :=
  if startswith b "/" then b
  else if String.eqb path "" || endswith path "/" then path +:+ b
  else path +:+ "/" +:+ b.

Definition join (a : string) (ps : list string) : string :=
  fold_left join2 ps a.
Arguments join : simpl never.

Definition splitext (p : string) : string * string :=
  let sepIndex := rfind sep p in
  let dotIndex := rfind extsep p in
  if dotIndex >? sepIndex then
    (* a name made of leading dots only has no extension *)
    let name_start := drop_str (Z.to_nat (sepIndex + 1)) p in
    let before_dot := take_str (Z.to_nat (dotIndex - (sepIndex + 1))) name_start in
    if all_char extsep before_dot then (p, "")
    else (take_str (Z.to_nat dotIndex) p, drop_str (Z.to_nat dotIndex) p)
  else (p, "").

(** [int(n / 100.0)] for an integer [n]: the quotient, rounded toward
    zero.  (The float quotient of two integers below 2^53 lies within
    one part in 2^53 of the exact one, and the exact one is a whole
    number or at least 1/100 away from the next one: the rounding
    cannot cross it for the sizes an image can have.) *)
Definition int_div100 (n : Z) : Z := Z.quot n 100.

(** The same expression evaluated in binary64, as Python does: [n] is
    converted to a float, divided by [100.0], and [int] drops the
    fraction (of a finite value: the mantissa shifted by the exponent).
    It is here to check [int_div100] against. *)
Definition float_trunc (f : float) : Z :=
  match Prim2SF f with
  | S754_finite s mnt e =>
      let v := Z.shiftl (Z.pos mnt) e in
      if s then - v else v
  | _ => 0
  end.

Definition int_div100_float (n : Z) : Z :=
  float_trunc (PrimFloat.div (PrimFloat.of_uint63 (Uint63.of_Z n)) 100%float).

End Py.
Export Py.

(* ===================================================================== *)
(** ** Pillow images *)
(* ===================================================================== *)

Module PIL.

(** A pixel is recorded by the four values Pillow's conversion to RGBA
    gives for it: an image without transparency has [a = 255]
    everywhere, a grey image has [r = g = b]. *)
Definition rgba : Type := Z * Z * Z * Z.


(** [mode] is Pillow's mode string; [info_transparency] tells whether
    the [info] dictionary has the key ["transparency"]; [rows] holds the
    pixels, top row first. *)
Record Image := mkImage {
  mode : string;
  info_transparency : bool;
  width : Z;
  height : Z;
  rows : list (list rgba)
}.

(** Pillow images are rectangular: [height] rows of [width] pixels. *)
Definition wf_image (img : Image) : bool :=
  (0 <=? width img) && (0 <=? height img)
  && (Nat.eqb (length (rows img)) (Z.to_nat (height img)))
  && forallb (fun row => Nat.eqb (length row) (Z.to_nat (width img))) (rows img).

Definition zero_px : rgba := (0, 0, 0, 0).

(** The stored pixel at column [x], row [y]. *)
Definition pixel_at (img : Image) (x y : Z) : rgba :=
  nth (Z.to_nat x) (nth (Z.to_nat y) (rows img) []) zero_px.

Definition in_image (img : Image) (x y : Z) : bool :=
  (0 <=? x) && (x <? width img) && (0 <=? y) && (y <? height img).

(** The three colour values of the stored pixel. *)
Definition rgb_at (img : Image) (x y : Z) : Z * Z * Z :=
  let '(r, g, b, _) := pixel_at img x y in (r, g, b).

(** [ImageMode.getmode(mode).bands] for the modes Pillow defines. *)
Definition getbands (m : string) : list string :=
  if String.eqb m "1" then ["1"]
  else if String.eqb m "L" then ["L"]
  else if String.eqb m "I" then ["I"]
  else if String.eqb m "F" then ["F"]
  else if String.eqb m "P" then ["P"]
  else if String.eqb m "RGB" then ["R"; "G"; "B"]
  else if String.eqb m "RGBX" then ["R"; "G"; "B"; "X"]
  else if String.eqb m "RGBA" then ["R"; "G"; "B"; "A"]
  else if String.eqb m "CMYK" then ["C"; "M"; "Y"; "K"]
  else if String.eqb m "YCbCr" then ["Y"; "Cb"; "Cr"]
  else if String.eqb m "LAB" then ["L"; "A"; "B"]
  else if String.eqb m "HSV" then ["H"; "S"; "V"]
  else if String.eqb m "RGBa" then ["R"; "G"; "B"; "a"]
  else if String.eqb m "LA" then ["L"; "A"]
  else if String.eqb m "La" then ["L"; "a"]
  else if String.eqb m "PA" then ["P"; "A"]
  else [m].

(** What [r, g, b = v] raises when [v] is a pixel of an image of mode [m]
    other than RGB: [v] is a number when the mode has one band, a tuple
    of two or of four values when it has as many (the wording is that of
    CPython 3.12).  A mode of three bands other than RGB (YCbCr, LAB,
    HSV) gives three values that are not the colours the image is
    recorded by here: reading them is outside this model, and is taken
    to raise as well. *)
Definition unpack_error (m : string) : exn :=
  match length (getbands m) with
  | 1%nat =>
      Exn "TypeError"
          ("cannot unpack non-iterable "
             +:+ (if String.eqb m "F" then "float" else "int") +:+ " object")
  | 2%nat => Exn "ValueError" "not enough values to unpack (expected 3, got 2)"
  | 3%nat => Exn "ValueError" ("pixel values of mode " +:+ m +:+ " are not modelled")
  | _ => Exn "ValueError" "too many values to unpack (expected 3)"
  end.

(** [px = img.load(); px[x, y]], with the unpacking [r, g, b = rgb] that
    [is_bg] opens with.  Pillow counts a negative index from the far edge
    and raises [IndexError] outside the image; the pixel of an image of
    mode RGB is the tuple of its three colour values, and the value of
    any other mode does not unpack into three. *)
Definition px (img : Image) (x y : Z) : result (Z * Z * Z) :=
  let x := if x <? 0 then width img + x else x in
  let y := if y <? 0 then height img + y else y in
  if in_image img x y
  then if String.eqb (mode img) "RGB"
       then Ok (rgb_at img x y)
       else Raise (unpack_error (mode img))
  else Raise (Exn "IndexError" "image index out of range").

(** The pixel grid with value [f x y] at column [x] of row [y]. *)
Definition mk_rows (w h : Z) (f : Z -> Z -> rgba) : list (list rgba) :=
  (fun y => (fun x => f x y) <$> seqZ 0 w) <$> seqZ 0 h.

Definition opaque (p : rgba) : rgba := let '(r, g, b, _) := p in (r, g, b, 255).

(** [Image.new(mode, size, color)]: a fresh image, empty [info]. *)
Definition new (m : string) (size : Z * Z) (color : rgba) : result Image :=
  let '(w, h) := size in
  if (w <? 0) || (h <? 0)
  then Raise (Exn "ValueError" "Width and height must be >= 0")
  else Ok (mkImage m false w h (mk_rows w h (fun _ _ => color))).

(** The modes whose conversion to RGB and to RGBA this model covers:
    those Pillow decodes PNG, JPEG, BMP, GIF, TIFF and WebP files of the
    usual kinds into.  For any other mode (LAB, for one, has no
    converter) the conversion is taken to raise. *)
Definition convertible_modes : list string :=
  ["1"; "L"; "LA"; "P"; "PA"; "RGB"; "RGBA"; "RGBX"; "CMYK"; "YCbCr"; "I"; "F"].

Definition convertible (img : Image) : bool := str_in (mode img) convertible_modes.

Definition no_conversion (from to : string) : exn :=
  Exn "ValueError" ("conversion from " +:+ from +:+ " to " +:+ to +:+ " not supported").

(** [img.convert("RGBA")]: the same pixels with their alpha values.  The
    [info] dictionary is copied as [Image._new] does; Pillow may then
    drop or rewrite its transparency entry, which [processor.py] never
    reads on a converted image. *)
Definition convert_RGBA (img : Image) : result Image :=
  if String.eqb (mode img) "RGBA" then Ok img
  else if convertible img
  then Ok (mkImage "RGBA" (info_transparency img) (width img) (height img) (rows img))
  else Raise (no_conversion (mode img) "RGBA").

(** [img.convert("RGB")]: an RGB image is copied, any other loses its
    alpha values. *)
Definition convert_RGB (img : Image) : result Image :=
  if String.eqb (mode img) "RGB" then Ok img
  else if convertible img
  then Ok (mkImage "RGB" (info_transparency img) (width img) (height img)
             (map (map opaque) (rows img)))
  else Raise (no_conversion (mode img) "RGB").

(** [DIV255] and [BLEND8] of Pillow's compositing code: the mix of the
    destination value [in1] and the source value [in2] under [mask]. *)
Definition div255 (a : Z) : Z :=
  let tmp := a + 128 in Z.shiftr (Z.shiftr tmp 8 + tmp) 8.

Definition blend8 (mask in1 in2 : Z) : Z :=
  div255 (in1 * (255 - mask) + in2 * mask).

Definition blend_px (dst src : rgba) : rgba :=
  let '(r1, g1, b1, a1) := dst in
  let '(r2, g2, b2, a2) := src in
  (blend8 a2 r1 r2, blend8 a2 g1 g2, blend8 a2 b1 b2, blend8 a2 a1 a2).

Definition has_band (band : string) (img : Image) : bool :=
  str_in band (getbands (mode img)).

(** The value a source pixel takes in the mode of the destination. *)
Definition to_mode_of (dst : Image) (p : rgba) : rgba :=
  if has_band "A" dst then p else opaque p.

Definition in_box (x y ox oy w h : Z) : bool :=
  (ox <=? x) && (x <? ox + w) && (oy <=? y) && (y <? oy + h).

(** [dst.paste(src, (ox, oy), mask)] where the mask is either absent or
    the RGBA source itself.  The region of [src] that falls on [dst] is
    written (converted to the mode of [dst]), blended by the alpha of the
    source when it is the mask. *)
Definition paste (dst src : Image) (at_ : Z * Z) (mask : option Image) : Image :=
  let '(ox, oy) := at_ in
  let f x y :=
    if in_box x y ox oy (width src) (height src)
    then match mask with
         | None => to_mode_of dst (pixel_at src (x - ox) (y - oy))
         | Some m =>
             to_mode_of dst (blend_px (pixel_at dst x y) (pixel_at m (x - ox) (y - oy)))
         end
    else pixel_at dst x y in
  mkImage (mode dst) (info_transparency dst) (width dst) (height dst)
          (mk_rows (width dst) (height dst) f).

(** The stored value of a pixel outside the image in [crop]: all bands
    zero (for a paletted image, whatever colour index 0 stands for is
    not modelled; the boxes [processor.py] crops to lie inside). *)
Definition fill_px (img : Image) : rgba :=
  if has_band "A" img then (0, 0, 0, 0) else (0, 0, 0, 255).

(** [img.crop((left, upper, right, lower))]. *)
Definition crop (img : Image) (box : Z * Z * Z * Z) : result Image :=
  let '(l, t, r, b) := box in
  if r <? l then Raise (Exn "ValueError" "Coordinate 'right' is less than 'left'")
  else if b <? t then Raise (Exn "ValueError" "Coordinate 'lower' is less than 'upper'")
  else Ok (mkImage (mode img) (info_transparency img) (r - l) (b - t)
             (mk_rows (r - l) (b - t)
                (fun x y => if in_image img (x + l) (y + t)
                            then pixel_at img (x + l) (y + t)
                            else fill_px img))).

End PIL.
Export PIL.

(* ===================================================================== *)
(** ** The file system *)
(* ===================================================================== *)

Module OS.

(** What a file holds: an image Pillow can decode, or anything else. *)
Inductive file_data :=
| ImageFile (img : Image)
| NotAnImage.

(** A directory lists its entries in the order [os.scandir] gives them.
    Names are plain: no [.], [..] or links. *)
#[local] Unset Elimination Schemes.
Inductive node :=
| File (name : string) (data : file_data)
| Dir (name : string) (children : list node).
#[local] Set Elimination Schemes.

(** The entries of the root directory, which is also the working
    directory: ["d/a.png"] and ["/d/a.png"] name the same file. *)
Definition filesystem : Type := list node.

Definition node_name (n : node) : string :=
  match n with File nm _ => nm | Dir nm _ => nm end.

Definition is_file_node (n : node) : bool :=
  match n with File _ _ => true | Dir _ _ => false end.

(** The names between the slashes of a path. *)
Fixpoint components_from (s : string) (cur : string) : list string :=
  match s with
  | EmptyString => if String.eqb cur "" then [] else [cur]
  | String c s' =>
      if Ascii.eqb c sep
      then (if String.eqb cur "" then [] else [cur]) ++ components_from s' ""
      else components_from s' (cur +:+ String c EmptyString)
  end.

Definition components (p : string) : list string := components_from p "".

Fixpoint find_entry (name : string) (l : list node) : option node :=
  match l with
  | [] => None
  | n :: l' => if String.eqb (node_name n) name then Some n else find_entry name l'
  end.

(** An entry replaces the one of its name, or comes last. *)
Fixpoint put_entry (n : node) (l : list node) : list node :=
  match l with
  | [] => [n]
  | m :: l' =>
      if String.eqb (node_name m) (node_name n) then n :: l' else m :: put_entry n l'
  end.

Fixpoint resolve (p : list string) (here : list node) : option (file_data + list node) :=
  match p with
  | [] => Some (inr here)
  | name :: rest =>
      match find_entry name here with
      | Some (File _ d) => match rest with [] => Some (inl d) | _ => None end
      | Some (Dir _ ch) => resolve rest ch
      | None => None
      end
  end.

Definition lookup_path (p : string) (fs : filesystem) : option (file_data + list node) :=
  if String.eqb p "" then None else resolve (components p) fs.

(** [os.path.isdir] and [os.path.isfile] *)
Definition isdir (p : string) (fs : filesystem) : bool :=
  match lookup_path p fs with Some (inr _) => true | _ => false end.

Definition isfile (p : string) (fs : filesystem) : bool :=
  match lookup_path p fs with Some (inl _) => true | _ => false end.

(** [os.walk(top)], top down: each directory with the names of its
    files, then its subdirectories in turn.  (The list of subdirectory
    names, which [processor.py] ignores, is left out.) *)
Fixpoint walk_node (top : string) (n : node) : list (string * list string) :=
  match n with
  | File _ _ => []
  | Dir _ ch =>
      (top, map node_name (filter is_file_node ch))
        :: flat_map (fun c => walk_node (join2 top (node_name c)) c) ch
  end.

Definition walk (top : string) (fs : filesystem) : list (string * list string) :=
  match lookup_path top fs with
  | Some (inr ch) => walk_node top (Dir "" ch)
  | _ => []
  end.

Definition os_error (cls : string) (errno what path : string) : exn :=
  Exn cls ("[Errno " +:+ errno +:+ "] " +:+ what +:+ ": '" +:+ path +:+ "'").

(** Programs that read and write the file system.  What was written
    before an exception stays written. *)
Definition io (A : Type) : Type := filesystem -> result A * filesystem.

#[global] Instance io_ret : MRet io := fun _ a fs => (Ok a, fs).
#[global] Instance io_bind : MBind io := fun _ _ f m fs =>
  match m fs with
  | (Ok a, fs') => f a fs'
  | (Raise e, fs') => (Raise e, fs')
  end.

Definition lift {A} (r : result A) : io A := fun fs => (r, fs).

(** [Image.open(path)], with the decoding it defers. *)
Definition Image_open (path : string) : io Image := fun fs =>
  match lookup_path path fs with
  | Some (inl (ImageFile img)) => (Ok img, fs)
  | Some (inl NotAnImage) =>
      (Raise (Exn "UnidentifiedImageError"
                ("cannot identify image file '" +:+ path +:+ "'")), fs)
  | Some (inr _) => (Raise (os_error "IsADirectoryError" "21" "Is a directory" path), fs)
  | None => (Raise (os_error "FileNotFoundError" "2" "No such file or directory" path), fs)
  end.

(** [os.makedirs(path, exist_ok=True)] *)
Fixpoint makedirs_at (path : string) (p : list string) (here : list node)
    : result (list node) :=
  match p with
  | [] => Ok here
  | name :: rest =>
      match find_entry name here with
      | Some (File _ _) =>
          match rest with
          | [] => Raise (os_error "FileExistsError" "17" "File exists" path)
          | _ => Raise (os_error "NotADirectoryError" "20" "Not a directory" path)
          end
      | Some (Dir _ ch) =>
          ch' ← makedirs_at path rest ch; Ok (put_entry (Dir name ch') here)
      | None =>
          ch' ← makedirs_at path rest []; Ok (put_entry (Dir name ch') here)
      end
  end.

Definition makedirs (path : string) : io unit := fun fs =>
  if String.eqb path ""
  then (Raise (os_error "FileNotFoundError" "2" "No such file or directory" path), fs)
  else match makedirs_at path (components path) fs with
       | Ok fs' => (Ok tt, fs')
       | Raise e => (Raise e, fs)
       end.

Fixpoint write_at (path : string) (p : list string) (d : file_data) (here : list node)
    : result (list node) :=
  match p with
  | [] => Raise (os_error "IsADirectoryError" "21" "Is a directory" path)
  | name :: rest =>
      match rest with
      | [] =>
          match find_entry name here with
          | Some (Dir _ _) => Raise (os_error "IsADirectoryError" "21" "Is a directory" path)
          | _ => Ok (put_entry (File name d) here)
          end
      | _ =>
          match find_entry name here with
          | Some (Dir _ ch) =>
              ch' ← write_at path rest d ch; Ok (put_entry (Dir name ch') here)
          | Some (File _ _) =>
              Raise (os_error "NotADirectoryError" "20" "Not a directory" path)
          | None =>
              Raise (os_error "FileNotFoundError" "2" "No such file or directory" path)
          end
      end
  end.

(** [img.save(path)], as far as the file system goes: the path is opened
    for writing, which fails as [open] does, and the image is written.
    The file is recorded by the image that was handed over.  What the
    encoder of the format does is outside this model: the choice of the
    format by the extension (a name without one is refused before the
    file is opened), the loss of a lossy format, the change of mode some
    formats make (GIF), and the refusal of a mode the format cannot
    hold, which comes once the file is opened and emptied.  A call that
    raises here has not touched the file system; nothing below is
    stated about the output file of a call that raises in [save]. *)
Definition save (img : Image) (path : string) : io unit := fun fs =>
  match write_at path (components path) (ImageFile img) fs with
  | Ok fs' => (Ok tt, fs')
  | Raise e => (Raise e, fs)
  end.

End OS.
Export OS.

(* ===================================================================== *)
(** ** processor.py *)
(* ===================================================================== *)

Module Processor.

Definition SUPPORTED_EXTS : list string :=
  [".png"; ".jpg"; ".jpeg"; ".bmp"; ".gif"; ".tiff"; ".webp"].

(** [_has_alpha(img)] *)
Definition _has_alpha (img : Image) : bool :=
  if str_in "A" (getbands (mode img)) then true
  else info_transparency img.

(** [_rgb_for_detection(img, color_type)] *)
Definition _rgb_for_detection (img : Image) (color_type : string) : result Image :=
  if _has_alpha img then
    let bg := if String.eqb color_type "white"
              then (255, 255, 255, 255) else (0, 0, 0, 255) in
    base ← new "RGBA" (width img, height img) bg;
    tmp ← convert_RGBA img;
    let base := paste base tmp (0, 0) (Some tmp) in
    convert_RGB base
  else convert_RGB img.

(** [is_bg], the closure of [detect_whitespace] over [color_type] and
    [thr]. *)
Definition is_bg (color_type : string) (thr : Z) (rgb : Z * Z * Z) : bool :=
  let '(r, g, b) := rgb in
  if String.eqb color_type "black"
  then (r <=? thr) && (g <=? thr) && (b <=? thr)
  else (r >=? 255 - thr) && (g >=? 255 - thr) && (b >=? 255 - thr).

(** [for x in xs: if test(x): <assign x>; break]: the first element the
    test accepts, if any. *)
Fixpoint first_hit (test : Z -> result bool) (xs : list Z) : result (option Z) :=
  match xs with
  | [] => Ok None
  | x :: xs' => b ← test x; if b : bool then Ok (Some x) else first_hit test xs'
  end.

(** The default of the parameter [thr]. *)
Definition thr_default : Z := 70.

(** [detect_whitespace(img_rgb, color_type, direction, thr)]; the locals
    [left], [right], [top], [bottom] carry a trailing underscore. *)
Definition detect_whitespace (img_rgb : Image) (color_type direction : string)
    (thr : Z) : result (Z * Z * Z * Z) :=
  let w := width img_rgb in
  let h := height img_rgb in
  let column_has_content x :=
    any (fun y => p ← px img_rgb x y; Ok (negb (is_bg color_type thr p))) (range h) in
  let row_has_content y :=
    any (fun x => p ← px img_rgb x y; Ok (negb (is_bg color_type thr p))) (range w) in
  let '(left_, right_, top_, bottom_) := (0, w, 0, h) in
  '(left_, right_) ←
    (if str_in direction ["horizontal"; "both"] then
       fl ← first_hit column_has_content (range w);
       let left_ := match fl with Some x => x | None => left_ end in
       fr ← first_hit column_has_content (range_down (w - 1) (-1));
       let right_ := match fr with Some x => x + 1 | None => right_ end in
       Ok (left_, right_)
     else Ok (left_, right_));
  '(top_, bottom_) ←
    (if str_in direction ["vertical"; "both"] then
       ft ← first_hit row_has_content (range h);
       let top_ := match ft with Some y => y | None => top_ end in
       fb ← first_hit row_has_content (range_down (h - 1) (-1));
       let bottom_ := match fb with Some y => y + 1 | None => bottom_ end in
       Ok (top_, bottom_)
     else Ok (top_, bottom_));
  let left_ := Z.max 0 (Z.min left_ (w - 1)) in
  let right_ := Z.max (left_ + 1) (Z.min right_ w) in
  let top_ := Z.max 0 (Z.min top_ (h - 1)) in
  let bottom_ := Z.max (top_ + 1) (Z.min bottom_ h) in
  Ok (left_, right_, top_, bottom_).

(** A call that leaves [thr] out. *)
Definition detect_whitespace_default (img_rgb : Image) (color_type direction : string)
    : result (Z * Z * Z * Z) :=
  detect_whitespace img_rgb color_type direction thr_default.

(** [trim_whitespace], lines 78 to 94: from the decoded image to the
    image [cropped] holds when the output directory is made. *)
Definition trim_image (orig : Image) (keep_margin_percent : Z)
    (color_type direction : string) : result Image :=
  let '(w, h) := (width orig, height orig) in
  det ← _rgb_for_detection orig color_type;
  '(l, r, t, b) ← detect_whitespace det color_type direction 70;
  cropped ← crop orig (l, t, r, b);
  if keep_margin_percent >? 0 then
    let mw := int_div100 (w * keep_margin_percent) in
    let mh := int_div100 (h * keep_margin_percent) in
    let '(nw, nh) := ((r - l) + 2 * mw, (b - t) + 2 * mh) in
    canvas ← (if _has_alpha cropped
              then new "RGBA" (nw, nh) (0, 0, 0, 0)
              else new "RGB" (nw, nh) (255, 255, 255, 255));
    let canvas :=
      paste canvas cropped (mw, mh)
            (if String.eqb (mode cropped) "RGBA" then Some cropped else None) in
    Ok canvas
  else Ok cropped.

(** [trim_whitespace], lines 98 to 102: the image given to [save]. *)
Definition for_save (output_path : string) (cropped : Image) : result Image :=
  let ext := lower (snd (splitext output_path)) in
  if str_in ext [".jpg"; ".jpeg"; ".bmp"] then
    if _has_alpha cropped || negb (str_in (mode cropped) ["RGB"; "L"])
    then convert_RGB cropped
    else Ok cropped
  else Ok cropped.

(** [trim_whitespace(image_path, output_path, keep_margin_percent,
    color_type, direction)] *)
Definition trim_whitespace (image_path output_path : string) (keep_margin_percent : Z)
    (color_type direction : string) : io unit :=
  orig ← Image_open image_path;
  cropped ← lift (trim_image orig keep_margin_percent color_type direction);
  _ ← makedirs (dirname output_path);
  cropped ← lift (for_save output_path cropped);
  save cropped output_path.

(** [collect_dir(d)], the paths it appends to [targets]. *)
Definition collect_dir (d : string) (fs : filesystem) : list string :=
  flat_map
    (fun '(root, files) =>
       flat_map (fun f => if endswith_any (lower f) SUPPORTED_EXTS
                          then [join root [f]] else [])
                files)
    (walk d fs).

(** The first loop of [process_targets]: the targets of the inputs. *)
Definition collect_targets (inputs : list string) (fs : filesystem) : list string :=
  flat_map
    (fun p =>
       if isdir p fs then collect_dir p fs
       else if isfile p fs && endswith_any (lower p) SUPPORTED_EXTS then [p]
       else [])
    inputs.

(** What the second loop does, in order: a call of [is_cancelled] with
    its answer, a call of [trim_whitespace] with its outcome, a call of
    [progress_cb] with its arguments. *)
Inductive event :=
| Polled (answer : bool)
| Trimmed (src : string) (outcome : result unit)
| Reported (done total : Z).

Section Batch.

(** The state of the caller, which its two callbacks read and write. *)
Context {W : Type}.

Variable color_type direction : string.
Variable keep_margin_percent : Z.
Variable progress_cb : option (Z -> Z -> W -> W).
Variable is_cancelled : option (W -> bool * W).

Definition report (i total : Z) (w : W) : list event * W :=
  match progress_cb with
  | Some cb => ([Reported i total], cb i total w)
  | None => ([], w)
  end.

Definition poll (w : W) : list event * bool * W :=
  match is_cancelled with
  | Some p => let '(b, w') := p w in ([Polled b], b, w')
  | None => ([], false, w)
  end.

(** [for i, src in enumerate(targets, 1): ...]; the result is the list
    [errors], the calls made, and the states left behind. *)
Fixpoint process_loop (targets : list string) (i total : Z) (errors : list string)
    (fs : filesystem) (w : W) : list string * list event * filesystem * W :=
  match targets with
  | [] => (errors, [], fs, w)
  | src :: rest =>
      let '(ev_poll, cancelled, w) := poll w in
      if cancelled : bool then (errors, ev_poll, fs, w)
      else
        let out := join (dirname src) ["Remake"; basename src] in
        let '(outcome, fs) :=
          trim_whitespace src out keep_margin_percent color_type direction fs in
        let errors :=
          match outcome with
          | Ok _ => errors
          | Raise e => errors ++ [src +:+ ": " +:+ str_exn e]
          end in
        let '(ev_report, w) := report i total w in
        let '(errors, evs, fs, w) := process_loop rest (i + 1) total errors fs w in
        (errors, ev_poll ++ [Trimmed src outcome] ++ ev_report ++ evs, fs, w)
  end.

(** [process_targets(inputs, color_type, direction, keep_margin_percent,
    progress_cb, is_cancelled)] *)
Definition process_targets (inputs : list string) (fs : filesystem) (w : W)
    : list string * list event * filesystem * W :=
  let targets := collect_targets inputs fs in
  let total := Z.of_nat (length targets) in
  let '(ev0, w) := report 0 total w in
  let '(errors, evs, fs, w) := process_loop targets 1 total [] fs w in
  (errors, ev0 ++ evs, fs, w).

End Batch.

Arguments trim_whitespace : simpl never.

End Processor.
Export Processor.

(* ===================================================================== *)
(** ** gui.py: what the window computes before it calls the processor,
    and the geometry of its frameless resize *)
(* ===================================================================== *)

Module Gui.

(** [needle in s] on strings: [needle] occurs in [s]. *)
Fixpoint str_contains (needle s : string) : bool :=
  startswith s needle
  || match s with
     | EmptyString => false
     | String _ s' => str_contains needle s'
     end.

(** [if first_img:] on a value that is [None] or a string. *)
Definition truthy (first_img : option string) : bool :=
  match first_img with
  | Some s => negb (String.eqb s "")
  | None => false
  end.

(** [for f in files: if f.lower().endswith(SUPPORTED_EXTS): first_img =
    os.path.join(root, f); break], from the value [first_img] has when
    the loop starts to the one it has when the loop ends. *)
Fixpoint scan_files (root : string) (files : list string) (first_img : option string)
    : option string :=
  match files with
  | [] => first_img
  | f :: files' =>
      if endswith_any (lower f) SUPPORTED_EXTS then Some (join root [f])
      else scan_files root files' first_img
  end.

(** [for root, _, files in os.walk(p): ...; if first_img: break] *)
Fixpoint scan_walk (entries : list (string * list string)) (first_img : option string)
    : option string :=
  match entries with
  | [] => first_img
  | (root, files) :: entries' =>
      let first_img := scan_files root files first_img in
      if truthy first_img then first_img else scan_walk entries' first_img
  end.

(** [for p in inputs: ...; if first_img: break] *)
Fixpoint scan_inputs (inputs : list string) (fs : filesystem) (first_img : option string)
    : option string :=
  match inputs with
  | [] => first_img
  | p :: inputs' =>
      let first_img :=
        if isdir p fs then scan_walk (walk p fs) first_img
        else if isfile p fs && endswith_any (lower p) SUPPORTED_EXTS then Some p
        else first_img in
      if truthy first_img then first_img else scan_inputs inputs' fs first_img
  end.

(** [_prepare_preview_from_inputs(inputs)]: the path given to
    [_update_preview_with_box], or [None] when it is not called. *)
Definition _prepare_preview_from_inputs (inputs : list string) (fs : filesystem)
    : option string :=
  let first_img := None in
  let first_img :=
    if (Z.of_nat (length inputs) =? 1)
       && match inputs with
          | p :: _ => isfile p fs && endswith_any (lower p) SUPPORTED_EXTS
          | [] => false
          end
    then match inputs with p :: _ => Some p | [] => first_img end
    else scan_inputs inputs fs first_img in
  if truthy first_img then first_img else None.

(** [_update_preview_with_box(path)], lines 255 to 258: the detection
    view and the rectangle found in it, which the rest of the method
    scales and draws. *)
Definition preview_box (path color direction : string) : io (Image * (Z * Z * Z * Z)) :=
  orig ← Image_open path;
  det ← lift (_rgb_for_detection orig color);
  box ← lift (detect_whitespace det color direction 70);
  mret (det, box).

(** [RESIZE_MARGIN] of [ui_common.py] *)
Definition RESIZE_MARGIN : Z := 8.

(** [_edge_at(pos)] in a window whose [rect()] is [rect_w] by [rect_h] *)
Definition _edge_at (rect_w rect_h : Z) (pos : Z * Z) : string :=
  let m := RESIZE_MARGIN in
  let '(pos_x, pos_y) := pos in
  let edges := "" in
  let edges := if pos_y <=? m then edges +:+ "T" else edges in
  let edges := if pos_y >=? rect_h - m then edges +:+ "B" else edges in
  let edges := if pos_x <=? m then edges +:+ "L" else edges in
  let edges := if pos_x >=? rect_w - m then edges +:+ "R" else edges in
  edges.

Inductive cursor :=
| SizeFDiagCursor | SizeBDiagCursor | SizeHorCursor | SizeVerCursor | ArrowCursor.

(** [mouseMoveEvent], lines 342 to 347: the cursor set when no drag is
    under way. *)
Definition hover_cursor (rect_w rect_h : Z) (pos : Z * Z) : cursor :=
  let edges := _edge_at rect_w rect_h pos in
  if str_in edges ["TL"; "BR"] then SizeFDiagCursor
  else if str_in edges ["TR"; "BL"] then SizeBDiagCursor
  else if str_in edges ["L"; "R"] then SizeHorCursor
  else if str_in edges ["T"; "B"] then SizeVerCursor
  else ArrowCursor.

Inductive drag :=
| Resizing (edges : string)
| Moving.

(** [mousePressEvent] with the left button: the drag it starts. *)
Definition press (rect_w rect_h : Z) (pos : Z * Z) : drag :=
  let edges := _edge_at rect_w rect_h pos in
  if negb (String.eqb edges "") then Resizing edges else Moving.

(** [_resize_to(gpos)]: the geometry (x, y, width, height) given to
    [setGeometry], from the mouse position and the geometry recorded
    when the drag started. *)
Definition _resize_to (start_mouse : Z * Z) (start_geo : Z * Z * Z * Z)
    (minimumSize : Z * Z) (edges : string) (gpos : Z * Z) : Z * Z * Z * Z :=
  let dx := fst gpos - fst start_mouse in
  let dy := snd gpos - snd start_mouse in
  let '(x, y, w, h) := start_geo in
  let '(minw, minh) := minimumSize in
  let '(x, w) :=
    if str_contains "L" edges
    then let new_w := Z.max minw (w - dx) in (x + (w - new_w), new_w)
    else (x, w) in
  let w := if str_contains "R" edges then Z.max minw (w + dx) else w in
  let '(y, h) :=
    if str_contains "T" edges
    then let new_h := Z.max minh (h - dy) in (y + (h - new_h), new_h)
    else (y, h) in
  let h := if str_contains "B" edges then Z.max minh (h + dy) else h in
  (x, y, w, h).

End Gui.
Export Gui.

(* ===================================================================== *)
(** ** Sample images *)
(* ===================================================================== *)

Module Samples.

Definition white : rgba := (255, 255, 255, 255).
Definition black : rgba := (0, 0, 0, 255).

(** A [w]x[h] RGB image, white but for a black [k]x[k] square whose top
    left corner is at [(x0, y0)]. *)
Definition white_with_square (w h x0 y0 k : Z) : Image :=
  mkImage "RGB" false w h
    (mk_rows w h (fun x y => if in_box x y x0 y0 k k then black else white)).

Definition all_white (w h : Z) : Image := white_with_square w h 0 0 0.

(** A [w]x[h] RGBA image, opaque red but for one fully transparent pixel
    at [(x0, y0)]. *)
Definition red_with_hole (w h x0 y0 : Z) : Image :=
  mkImage "RGBA" false w h
    (mk_rows w h (fun x y => if (x =? x0) && (y =? y0) then (0, 0, 0, 0)
                             else (255, 0, 0, 255))).

(** The detection view of an image (the image itself if there is none). *)
Definition view_of (img : Image) (color_type : string) : Image :=
  match _rgb_for_detection img color_type with
  | Ok det => det
  | Raise _ => img
  end.

(** A directory [d] with an all-white 10x10 [a.png] and a 10x10 [b.png],
    white with a black 2x2 square at (4, 4). *)
Definition album : filesystem :=
  [Dir "d" [File "a.png" (ImageFile (all_white 10 10));
            File "b.png" (ImageFile (white_with_square 10 10 4 4 2))]].

(** The same with a text file and a subdirectory between the two. *)
Definition album_with_notes : filesystem :=
  [Dir "d" [File "a.png" (ImageFile (all_white 10 10));
            File "notes.txt" NotAnImage;
            Dir "more" [File "c.JPG" (ImageFile (white_with_square 4 4 1 1 2))];
            File "b.png" (ImageFile (white_with_square 10 10 4 4 2))]].

(** The same with [b.png] listed first. *)
Definition album_rev : filesystem :=
  [Dir "d" [File "b.png" (ImageFile (white_with_square 10 10 4 4 2));
            File "a.png" (ImageFile (all_white 10 10))]].

Definition black_2x2 : Image :=
  mkImage "RGB" false 2 2 [[black; black]; [black; black]].

(** Five small images, the second of which cannot be decoded. *)
Definition five_files : filesystem :=
  [Dir "d" [File "f1.png" (ImageFile (white_with_square 3 3 1 1 1));
            File "f2.png" NotAnImage;
            File "f3.png" (ImageFile (white_with_square 3 3 0 0 1));
            File "f4.png" (ImageFile (white_with_square 3 3 2 2 1));
            File "f5.png" (ImageFile (all_white 2 2))]].

(** A caller that counts the calls of its progress callback and raises
    its cancellation flag once the second call was made. *)
Definition count_calls : Z -> Z -> Z -> Z := fun _ _ calls => calls + 1.
Definition after_two_calls : Z -> bool * Z := fun calls => (2 <=? calls, calls).

(** A caller whose progress callback raises the cancellation flag when it
    is told that two files are done. *)
Definition flag_when_two_done : Z -> Z -> bool -> bool :=
  fun done _ flag => if done =? 2 then true else flag.
Definition read_flag : bool -> bool * bool := fun flag => (flag, flag).

End Samples.

(* ===================================================================== *)
(** ** Vocabulary of the statements *)
(* ===================================================================== *)

(** The pure reading of the detector: [content img c thr x y] tells whether
    the pixel at [(x, y)] is not background. *)
Definition content (img : Image) (color_type : string) (thr : Z) (x y : Z) : bool :=
  negb (is_bg color_type thr (rgb_at img x y)).

Definition column_content (img : Image) (color_type : string) (thr : Z) (x : Z) : bool :=
  existsb (fun y => content img color_type thr x y) (range (height img)).

Definition row_content (img : Image) (color_type : string) (thr : Z) (y : Z) : bool :=
  existsb (fun x => content img color_type thr x y) (range (width img)).

Definition clamp_box (w h : Z) (raw : Z * Z * Z * Z) : Z * Z * Z * Z :=
  let '(l, r, t, b) := raw in
  let l := Z.max 0 (Z.min l (w - 1)) in
  let r := Z.max (l + 1) (Z.min r w) in
  let t := Z.max 0 (Z.min t (h - 1)) in
  let b := Z.max (t + 1) (Z.min b h) in
  (l, r, t, b).

(** The four raw boundaries, before clamping. *)
Definition raw_box (img : Image) (color_type direction : string) (thr : Z)
    : Z * Z * Z * Z :=
  let w := width img in
  let h := height img in
  let '(l, r) :=
    if str_in direction ["horizontal"; "both"]
    then (default 0 (find (column_content img color_type thr) (range w)),
          default w ((fun x => x + 1)
                       <$> find (column_content img color_type thr) (range_down (w - 1) (-1))))
    else (0, w) in
  let '(t, b) :=
    if str_in direction ["vertical"; "both"]
    then (default 0 (find (row_content img color_type thr) (range h)),
          default h ((fun y => y + 1)
                       <$> find (row_content img color_type thr) (range_down (h - 1) (-1))))
    else (0, h) in
  (l, r, t, b).

(** The canvas with the margin, as lines 86 to 93 build it. *)
Definition with_margin (w h keep_margin_percent : Z) (box : Z * Z * Z * Z)
    (cropped : Image) : Image :=
  let '(l, r, t, b) := box in
  let mw := int_div100 (w * keep_margin_percent) in
  let mh := int_div100 (h * keep_margin_percent) in
  let nw := (r - l) + 2 * mw in
  let nh := (b - t) + 2 * mh in
  let canvas :=
    if _has_alpha cropped
    then mkImage "RGBA" false nw nh (mk_rows nw nh (fun _ _ => (0, 0, 0, 0)))
    else mkImage "RGB" false nw nh (mk_rows nw nh (fun _ _ => (255, 255, 255, 255))) in
  paste canvas cropped (mw, mh)
        (if String.eqb (mode cropped) "RGBA" then Some cropped else None).


(** The image stored at a path, if one is. *)
Definition image_at (p : string) (fs : filesystem) : option Image :=
  match lookup_path p fs with
  | Some (inl (ImageFile img)) => Some img
  | _ => None
  end.

(** The entries of the trace of a batch. *)
Definition failures (tr : list event) : list string :=
  flat_map (fun ev => match ev with
                      | Trimmed src (Raise e) => [src +:+ ": " +:+ str_exn e]
                      | _ => []
                      end) tr.

Definition trimmed (tr : list event) : list string :=
  flat_map (fun ev => match ev with Trimmed src _ => [src] | _ => [] end) tr.

Definition outcomes (tr : list event) : list (result unit) :=
  flat_map (fun ev => match ev with Trimmed _ o => [o] | _ => [] end) tr.

Definition polls (tr : list event) : list bool :=
  flat_map (fun ev => match ev with Polled b => [b] | _ => [] end) tr.

(** Trimming the files of a list one after the other, each on the file
    system the one before left, whether it failed or not. *)
Fixpoint trim_all (srcs : list string) (m : Z) (c d : string) (fs : filesystem)
    : list (result unit) * filesystem :=
  match srcs with
  | [] => ([], fs)
  | src :: rest =>
      let '(o, fs1) :=
        trim_whitespace src (join (dirname src) ["Remake"; basename src]) m c d fs in
      let '(os, fs2) := trim_all rest m c d fs1 in
      (o :: os, fs2)
  end.

(** Whether [int_div100_float] and [int_div100] agree on the [k] integers
    from [n] on. *)
Fixpoint int_div100_agree_from (k : nat) (n : Z) : bool :=
  match k with
  | O => true
  | S k' => (int_div100_float n =? int_div100 n) && int_div100_agree_from k' (n + 1)
  end.

(** Whether there is a progress callback. *)
Definition has_callback {A : Type} (cb : option A) : bool :=
  match cb with Some _ => true | None => false end.

(** The calls of the loop for the files it went through: one poll that
    answers no, the trim, the report if there is a progress callback. *)
Fixpoint rounds (reports : bool) (i total : Z) (done : list (string * result unit))
    : list event :=
  match done with
  | [] => []
  | (src, o) :: rest =>
      [Polled false; Trimmed src o]
        ++ (if reports then [Reported i total] else [])
        ++ rounds reports (i + 1) total rest
  end.

(** The progress calls of a trace, with their arguments. *)
Definition reported (tr : list event) : list (Z * Z) :=
  flat_map (fun ev => match ev with Reported i total => [(i, total)] | _ => [] end) tr.

(** The calls of a trace other than the polls. *)
Definition calls (tr : list event) : list event :=
  flat_map (fun ev => match ev with Polled _ => [] | _ => [ev] end) tr.

(** For each file gone through, its trim and then the progress call that
    counts it, the first file counted [i]. *)
Fixpoint trim_then_report (i total : Z) (done : list (string * result unit))
    : list event :=
  match done with
  | [] => []
  | (src, o) :: rest =>
      Trimmed src o :: Reported i total :: trim_then_report (i + 1) total rest
  end.

(** A string without the path separator. *)
Fixpoint no_sep (s : string) : bool :=
  match s with
  | EmptyString => true
  | String ch s' => negb (Ascii.eqb ch sep) && no_sep s'
  end.

(** The names a pending name [cur] gives when the path ends. *)
Definition flush (cur : string) : list string :=
  if String.eqb cur "" then [] else [cur].

(** The batch run again over the directory its first run wrote to. *)
Definition second_run (fs : filesystem) : list string * list event * filesystem * unit :=
  let '(_, _, fs1, _) :=
    process_targets (W := unit) "white" "both" 0 None None ["d"] fs tt in
  process_targets (W := unit) "white" "both" 0 None None ["d"] fs1 tt.

(* ===================================================================== *)
(** * Properties *)
(* ===================================================================== *)

Example detect_square :
  detect_whitespace (Samples.white_with_square 10 10 4 4 2) "white" "both" 70
  = Ok (4, 6, 4, 6).
Proof. vm_compute. reflexivity. Qed.

Example detect_all_white :
  detect_whitespace (Samples.all_white 10 10) "white" "both" 70 = Ok (0, 10, 0, 10).
Proof. vm_compute. reflexivity. Qed.

Example detect_square_horizontal :
  detect_whitespace (Samples.white_with_square 10 8 3 4 2) "white" "horizontal" 70
  = Ok (3, 5, 0, 8).
Proof. vm_compute. reflexivity. Qed.

(** ** The scans never leave the image *)

Section Scans.

Context {A : Type}.

(** A generator whose elements all evaluate is [existsb]. *)
Lemma any_pure (f : A -> result bool) (g : A -> bool) (l : list A) :
  (forall a, In a l -> f a = Ok (g a)) ->
  any f l = Ok (existsb g l).
Proof.
  induction l as [|a l IH]; intros Hf; simpl; [reflexivity|].
  rewrite (Hf a) by (left; reflexivity). simpl.
  destruct (g a); [reflexivity|].
  apply IH. intros b Hb. apply Hf. right. exact Hb.
Qed.

End Scans.

(** A scan whose tests all evaluate is [find]. *)
Lemma first_hit_pure (test : Z -> result bool) (g : Z -> bool) (xs : list Z) :
  (forall x, In x xs -> test x = Ok (g x)) ->
  first_hit test xs = Ok (find g xs).
Proof.
  induction xs as [|x xs IH]; intros Hf; simpl; [reflexivity|].
  rewrite (Hf x) by (left; reflexivity). simpl.
  destruct (g x); [reflexivity|].
  apply IH. intros b Hb. apply Hf. right. exact Hb.
Qed.

Lemma In_range (n x : Z) : In x (range n) <-> 0 <= x < n.
Proof.
  unfold range. rewrite <- list_elem_of_In, elem_of_seqZ. lia.
Qed.

Lemma In_range_down (hi x : Z) : In x (range_down hi (-1)) <-> 0 <= x <= hi.
Proof.
  unfold range_down. rewrite <- list_elem_of_In, list_elem_of_fmap. split.
  - intros (k & -> & Hk). apply elem_of_seqZ in Hk. lia.
  - intros Hx. exists (hi - x). split; [lia|]. apply elem_of_seqZ. lia.
Qed.

Lemma px_inside (img : Image) (x y : Z) :
  mode img = "RGB" ->
  0 <= x < width img -> 0 <= y < height img ->
  px img x y = Ok (rgb_at img x y).
Proof.
  intros Hmode Hx Hy. unfold px. rewrite Hmode.
  destruct (Z.ltb_spec x 0); [lia|]. destruct (Z.ltb_spec y 0); [lia|].
  unfold in_image.
  destruct (Z.leb_spec 0 x); [|lia]. destruct (Z.ltb_spec x (width img)); [|lia].
  destruct (Z.leb_spec 0 y); [|lia]. destruct (Z.ltb_spec y (height img)); [|lia].
  reflexivity.
Qed.

(** A pixel that was read inside the image is the stored one. *)
Lemma px_Ok_inside (img : Image) (x y : Z) (p : Z * Z * Z) :
  0 <= x < width img -> 0 <= y < height img ->
  px img x y = Ok p -> p = rgb_at img x y.
Proof.
  intros Hx Hy. unfold px.
  destruct (Z.ltb_spec x 0); [lia|]. destruct (Z.ltb_spec y 0); [lia|].
  destruct (in_image img x y); [|discriminate].
  destruct (String.eqb (mode img) "RGB"); [|discriminate].
  intros [= <-]. reflexivity.
Qed.

Lemma column_scan_pure (img : Image) (c : string) (thr x : Z) :
  mode img = "RGB" ->
  0 <= x < width img ->
  any (fun y => p ← px img x y; Ok (negb (is_bg c thr p))) (range (height img))
  = Ok (column_content img c thr x).
Proof.
  intros Hmode Hx. apply any_pure. intros y Hy. apply In_range in Hy.
  rewrite px_inside by (assumption || lia). reflexivity.
Qed.

Lemma row_scan_pure (img : Image) (c : string) (thr y : Z) :
  mode img = "RGB" ->
  0 <= y < height img ->
  any (fun x => p ← px img x y; Ok (negb (is_bg c thr p))) (range (width img))
  = Ok (row_content img c thr y).
Proof.
  intros Hmode Hy. apply any_pure. intros x Hx. apply In_range in Hx.
  rewrite px_inside by (assumption || lia). reflexivity.
Qed.

(** On an image of mode RGB [detect_whitespace] raises nothing: every
    pixel it reads lies inside the image and unpacks into three values,
    whatever the size, the colour type, the direction and the
    threshold. *)
Lemma detect_whitespace_total (img : Image) (c d : string) (thr : Z) :
  mode img = "RGB" ->
  detect_whitespace img c d thr
  = Ok (clamp_box (width img) (height img) (raw_box img c d thr)).
Proof.
  intros Hmode. unfold detect_whitespace, raw_box, clamp_box.
  rewrite (first_hit_pure _ (column_content img c thr) (range (width img)))
    by (intros x Hx; apply In_range in Hx; apply column_scan_pure; [assumption | lia]).
  rewrite (first_hit_pure _ (column_content img c thr) (range_down (width img - 1) (-1)))
    by (intros x Hx; apply In_range_down in Hx; apply column_scan_pure; [assumption | lia]).
  rewrite (first_hit_pure _ (row_content img c thr) (range (height img)))
    by (intros y Hy; apply In_range in Hy; apply row_scan_pure; [assumption | lia]).
  rewrite (first_hit_pure _ (row_content img c thr) (range_down (height img - 1) (-1)))
    by (intros y Hy; apply In_range_down in Hy; apply row_scan_pure; [assumption | lia]).
  destruct (str_in d ["horizontal"; "both"]), (str_in d ["vertical"; "both"]); simpl;
    repeat match goal with |- context [find ?g ?l] => destruct (find g l) end;
    reflexivity.
Qed.

(** A generator that returns, returns what [existsb] does on the values
    its elements gave. *)
Lemma any_sound {A : Type} (f : A -> result bool) (g : A -> bool) (l : list A) (r : bool) :
  (forall a b, In a l -> f a = Ok b -> b = g a) ->
  any f l = Ok r -> r = existsb g l.
Proof.
  induction l as [|a l IH]; intros Hf; simpl; [intros [= <-]; reflexivity|].
  destruct (f a) as [b|e] eqn:Hfa; [|discriminate].
  rewrite <- (Hf a b (or_introl eq_refl) Hfa). simpl.
  destruct b; [intros [= <-]; reflexivity|].
  apply IH. intros a' b' Ha'. apply Hf. right. exact Ha'.
Qed.

(** A scan that returns, returns what [find] does. *)
Lemma first_hit_sound (test : Z -> result bool) (g : Z -> bool) (xs : list Z)
    (r : option Z) :
  (forall x b, In x xs -> test x = Ok b -> b = g x) ->
  first_hit test xs = Ok r -> r = find g xs.
Proof.
  induction xs as [|x xs IH]; intros Hf; simpl; [intros [= <-]; reflexivity|].
  destruct (test x) as [b|e] eqn:Htx; [|discriminate].
  rewrite <- (Hf x b (or_introl eq_refl) Htx). simpl.
  destruct b; [intros [= <-]; reflexivity|].
  apply IH. intros x' b' Hx'. apply Hf. right. exact Hx'.
Qed.

Lemma column_scan_sound (img : Image) (c : string) (thr x : Z) (r : bool) :
  0 <= x < width img ->
  any (fun y => p ← px img x y; Ok (negb (is_bg c thr p))) (range (height img)) = Ok r ->
  r = column_content img c thr x.
Proof.
  intros Hx. apply any_sound. intros y b Hy. apply In_range in Hy.
  destruct (px img x y) as [p|e] eqn:Hp; [|discriminate].
  apply px_Ok_inside in Hp; [|lia|lia]. subst p. intros [= <-]. reflexivity.
Qed.

Lemma row_scan_sound (img : Image) (c : string) (thr y : Z) (r : bool) :
  0 <= y < height img ->
  any (fun x => p ← px img x y; Ok (negb (is_bg c thr p))) (range (width img)) = Ok r ->
  r = row_content img c thr y.
Proof.
  intros Hy. apply any_sound. intros x b Hx. apply In_range in Hx.
  destruct (px img x y) as [p|e] eqn:Hp; [|discriminate].
  apply px_Ok_inside in Hp; [|lia|lia]. subst p. intros [= <-]. reflexivity.
Qed.

(** Whatever the mode of the image, a box that [detect_whitespace]
    returns is the clamped box of the scans. *)
Lemma detect_whitespace_Ok_box (img : Image) (c d : string) (thr : Z)
    (box : Z * Z * Z * Z) :
  detect_whitespace img c d thr = Ok box ->
  box = clamp_box (width img) (height img) (raw_box img c d thr).
Proof.
  unfold detect_whitespace, raw_box, clamp_box.
  pose proof (fun r => first_hit_sound _ (column_content img c thr) (range (width img)) r
                (fun x b Hx => column_scan_sound img c thr x b
                                 (proj1 (In_range _ _) Hx))) as Hl.
  pose proof (fun r => first_hit_sound _ (column_content img c thr)
                (range_down (width img - 1) (-1)) r
                (fun x b Hx => column_scan_sound img c thr x b
                                 ltac:(apply In_range_down in Hx; lia))) as Hr.
  pose proof (fun r => first_hit_sound _ (row_content img c thr) (range (height img)) r
                (fun y b Hy => row_scan_sound img c thr y b
                                 (proj1 (In_range _ _) Hy))) as Ht.
  pose proof (fun r => first_hit_sound _ (row_content img c thr)
                (range_down (height img - 1) (-1)) r
                (fun y b Hy => row_scan_sound img c thr y b
                                 ltac:(apply In_range_down in Hy; lia))) as Hb.
  intros Hok.
  repeat match type of Hok with
         | context [first_hit ?f ?l] =>
             let H := fresh "Hscan" in destruct (first_hit f l) as [?|?] eqn:H
         end.
  all: repeat match goal with
              | H : forall r : option Z, Ok ?a = Ok r -> r = _ |- _ =>
                  specialize (H a eq_refl); subst a
              end.
  all: destruct (str_in d ["horizontal"; "both"]), (str_in d ["vertical"; "both"]);
    simpl in Hok; try discriminate Hok; injection Hok as <-;
    repeat match goal with |- context [find ?g ?l] => destruct (find g l) end;
    reflexivity.
Qed.

(** ** C1: the background test *)

(** C1. A pixel (r, g, b) is background under "white" exactly when every
    channel is at least 255 - thr, and under "black" exactly when every
    channel is at most thr; a call of [detect_whitespace] that leaves the
    threshold out runs with 70. *)
Theorem is_bg_classification (r g b thr : Z) :
  (is_bg "white" thr (r, g, b) = true <-> r >= 255 - thr /\ g >= 255 - thr /\ b >= 255 - thr)
  /\ (is_bg "black" thr (r, g, b) = true <-> r <= thr /\ g <= thr /\ b <= thr)
  /\ (forall img c d, detect_whitespace_default img c d = detect_whitespace img c d 70).
Proof.
  split; [|split].
  - unfold is_bg. simpl. rewrite !andb_true_iff, !Z.geb_le. lia.
  - unfold is_bg. simpl. rewrite !andb_true_iff, !Z.leb_le. lia.
  - reflexivity.
Qed.

(** ** C2: the box is never empty and lies in the image *)

Lemma clamp_box_bounds (w h l r t b : Z) :
  1 <= w -> 1 <= h ->
  let '(l', r', t', b') := clamp_box w h (l, r, t, b) in
  0 <= l' < r' /\ r' <= w /\ 0 <= t' < b' /\ b' <= h.
Proof. intros Hw Hh. unfold clamp_box. lia. Qed.

(** C2. On an RGB image of at least one pixel (the detector is given the
    RGB view of [_rgb_for_detection]), [detect_whitespace] returns a box
    with 0 <= left < right <= width and 0 <= top < bottom <= height, for
    every colour type, direction and threshold, and raises nothing, be
    every pixel background or not. *)
Theorem detect_whitespace_box_invariant (img : Image) (c d : string) (thr : Z) :
  mode img = "RGB" ->
  1 <= width img -> 1 <= height img ->
  exists l r t b,
    detect_whitespace img c d thr = Ok (l, r, t, b)
    /\ 0 <= l < r /\ r <= width img
    /\ 0 <= t < b /\ b <= height img.
Proof.
  intros Hmode Hw Hh. rewrite detect_whitespace_total by exact Hmode.
  destruct (raw_box img c d thr) as [[[l r] t] b].
  pose proof (clamp_box_bounds (width img) (height img) l r t b Hw Hh) as Hc.
  destruct (clamp_box (width img) (height img) (l, r, t, b)) as [[[l' r'] t'] b'].
  exists l', r', t', b'. split; [reflexivity | lia].
Qed.

Lemma detect_whitespace_box_invariant_witness :
  exists l r t b,
    detect_whitespace (Samples.all_white 3 2) "white" "both" 200 = Ok (l, r, t, b)
    /\ 0 <= l < r /\ r <= 3 /\ 0 <= t < b /\ b <= 2.
Proof.
  apply (detect_whitespace_box_invariant (Samples.all_white 3 2) "white" "both" 200).
  - reflexivity.
  - simpl. lia.
  - simpl. lia.
Defined.

(** On an image of another mode the first pixel read does not unpack:
    four values of an RGBA image, a number of a grey one. *)
Example detect_whitespace_other_modes :
  detect_whitespace (Samples.red_with_hole 3 3 1 1) "white" "both" 70
  = Raise (Exn "ValueError" "too many values to unpack (expected 3)")
  /\ detect_whitespace (mkImage "L" false 1 1 [[(9, 9, 9, 255)]]) "white" "both" 70
     = Raise (Exn "TypeError" "cannot unpack non-iterable int object")
  /\ detect_whitespace (Samples.red_with_hole 3 3 1 1) "white" "none" 70
     = Ok (0, 3, 0, 3).
Proof. vm_compute. repeat split; reflexivity. Qed.

(** ** C3: a single pixel of content *)

Lemma find_first (g : Z -> bool) (l1 l2 : list Z) (x : Z) :
  (forall a, In a l1 -> g a = false) -> g x = true ->
  find g (l1 ++ x :: l2) = Some x.
Proof.
  intros H1 Hx. induction l1 as [|a l1 IH]; simpl.
  - rewrite Hx. reflexivity.
  - rewrite (H1 a) by (left; reflexivity). apply IH.
    intros a' Ha'. apply H1. right. exact Ha'.
Qed.

Lemma range_split (n x : Z) :
  0 <= x < n -> range n = seqZ 0 x ++ x :: seqZ (x + 1) (n - x - 1).
Proof.
  intros Hx. unfold range.
  replace n with (x + (n - x)) at 1 by lia.
  rewrite seqZ_app by lia. f_equal.
  rewrite seqZ_cons by lia.
  replace (0 + x) with x by lia.
  replace (Z.succ x) with (x + 1) by lia.
  replace (Z.pred (n - x)) with (n - x - 1) by lia.
  reflexivity.
Qed.

Lemma range_down_split (n x : Z) :
  0 <= x < n ->
  range_down (n - 1) (-1)
  = ((fun k => n - 1 - k) <$> seqZ 0 (n - 1 - x))
      ++ x :: ((fun k => n - 1 - k) <$> seqZ (n - x) x).
Proof.
  intros Hx. unfold range_down.
  replace (n - 1 - -1) with ((n - 1 - x) + (x + 1)) by lia.
  rewrite seqZ_app by lia. rewrite fmap_app. f_equal.
  rewrite seqZ_cons by lia. rewrite fmap_cons.
  replace (0 + (n - 1 - x)) with (n - 1 - x) by lia.
  replace (n - 1 - (n - 1 - x)) with x by lia.
  replace (Z.succ (n - 1 - x)) with (n - x) by lia.
  replace (Z.pred (x + 1)) with x by lia.
  reflexivity.
Qed.

(** The first accepted index of an upward scan. *)
Lemma find_range_first (g : Z -> bool) (n x : Z) :
  0 <= x < n -> g x = true -> (forall a, 0 <= a < x -> g a = false) ->
  find g (range n) = Some x.
Proof.
  intros Hx Hg Hbefore. rewrite (range_split n x Hx).
  apply find_first; [|exact Hg].
  intros a Ha. apply list_elem_of_In, elem_of_seqZ in Ha. apply Hbefore. lia.
Qed.

(** The first accepted index of a downward scan. *)
Lemma find_range_down_first (g : Z -> bool) (n x : Z) :
  0 <= x < n -> g x = true -> (forall a, x < a < n -> g a = false) ->
  find g (range_down (n - 1) (-1)) = Some x.
Proof.
  intros Hx Hg Hafter. rewrite (range_down_split n x Hx).
  apply find_first; [|exact Hg].
  intros a Ha. apply list_elem_of_In, list_elem_of_fmap in Ha.
  destruct Ha as (k & -> & Hk). apply elem_of_seqZ in Hk. apply Hafter. lia.
Qed.

(** A scan that accepts nothing. *)
Lemma find_none (g : Z -> bool) (l : list Z) :
  (forall a, In a l -> g a = false) -> find g l = None.
Proof.
  intros H. induction l as [|a l IH]; simpl; [reflexivity|].
  rewrite (H a) by (left; reflexivity). apply IH.
  intros a' Ha'. apply H. right. exact Ha'.
Qed.

Lemma column_content_true (img : Image) (c : string) (thr x : Z) :
  column_content img c thr x = true
  <-> exists y, 0 <= y < height img /\ content img c thr x y = true.
Proof.
  unfold column_content. rewrite existsb_exists. split.
  - intros (y & Hy & Hc). apply In_range in Hy. eauto.
  - intros (y & Hy & Hc). exists y. split; [apply In_range; lia | exact Hc].
Qed.

Lemma row_content_true (img : Image) (c : string) (thr y : Z) :
  row_content img c thr y = true
  <-> exists x, 0 <= x < width img /\ content img c thr x y = true.
Proof.
  unfold row_content. rewrite existsb_exists. split.
  - intros (x & Hx & Hc). apply In_range in Hx. eauto.
  - intros (x & Hx & Hc). exists x. split; [apply In_range; lia | exact Hc].
Qed.

Lemma not_true_false (b : bool) : (b = true -> False) -> b = false.
Proof. destruct b; [intros H; destruct H; reflexivity | reflexivity]. Qed.

(** C3. When the pixel at (x0, y0) is the only one of the RGB image that
    is not background, [detect_whitespace] under "both" returns exactly
    left = x0, right = x0 + 1, top = y0, bottom = y0 + 1. *)
Theorem detect_whitespace_single_pixel (img : Image) (c : string) (thr x0 y0 : Z) :
  mode img = "RGB" ->
  0 <= x0 < width img -> 0 <= y0 < height img ->
  (forall x y, 0 <= x < width img -> 0 <= y < height img ->
     (is_bg c thr (rgb_at img x y) = false <-> x = x0 /\ y = y0)) ->
  detect_whitespace img c "both" thr = Ok (x0, x0 + 1, y0, y0 + 1).
Proof.
  intros Hmode Hx0 Hy0 Hone.
  assert (Hcontent : forall x y, 0 <= x < width img -> 0 <= y < height img ->
            (content img c thr x y = true <-> x = x0 /\ y = y0)).
  { intros x y Hx Hy. unfold content. rewrite negb_true_iff. apply Hone; assumption. }
  assert (Hcol : forall x, 0 <= x < width img ->
            (column_content img c thr x = true <-> x = x0)).
  { intros x Hx. rewrite column_content_true. split.
    - intros (y & Hy & Hc). apply Hcontent in Hc; [tauto | lia | lia].
    - intros ->. exists y0. split; [lia|]. apply Hcontent; [lia | lia | tauto]. }
  assert (Hrow : forall y, 0 <= y < height img ->
            (row_content img c thr y = true <-> y = y0)).
  { intros y Hy. rewrite row_content_true. split.
    - intros (x & Hx & Hc). apply Hcontent in Hc; [tauto | lia | lia].
    - intros ->. exists x0. split; [lia|]. apply Hcontent; [lia | lia | tauto]. }
  rewrite detect_whitespace_total by exact Hmode. unfold raw_box. simpl str_in. cbv iota.
  rewrite (find_range_first _ (width img) x0), (find_range_down_first _ (width img) x0),
          (find_range_first _ (height img) y0), (find_range_down_first _ (height img) y0);
    try lia;
    try (apply Hcol; lia); try (apply Hrow; lia);
    try (intros a Ha; apply not_true_false; intros Hc;
         first [apply Hcol in Hc | apply Hrow in Hc]; lia).
  unfold clamp_box. simpl. f_equal. repeat f_equal; lia.
Qed.

Lemma detect_whitespace_single_pixel_witness :
  detect_whitespace (Samples.white_with_square 3 3 1 2 1) "white" "both" 70
  = Ok (1, 1 + 1, 2, 2 + 1).
Proof.
  apply (detect_whitespace_single_pixel (Samples.white_with_square 3 3 1 2 1) "white" 70 1 2).
  - reflexivity.
  - simpl. lia.
  - simpl. lia.
  - simpl. intros x y Hx Hy.
    assert (Hxs : x = 0 \/ x = 1 \/ x = 2) by lia.
    assert (Hys : y = 0 \/ y = 1 \/ y = 2) by lia.
    destruct Hxs as [-> | [-> | ->]]; destruct Hys as [-> | [-> | ->]];
      vm_compute; split; intros H; try discriminate H; try reflexivity;
      try (destruct H; discriminate).
    split; reflexivity.
Defined.

Example splitext_1 : splitext "a/b.c/photo.JPG" = ("a/b.c/photo", ".JPG").
Proof. vm_compute. reflexivity. Qed.
Example splitext_2 : splitext "a/b.c/.hidden" = ("a/b.c/.hidden", "").
Proof. vm_compute. reflexivity. Qed.
Example splitext_3 : splitext "a/b.c/photo" = ("a/b.c/photo", "").
Proof. vm_compute. reflexivity. Qed.
Example splitext_4 : splitext "x.tar.gz" = ("x.tar", ".gz").
Proof. vm_compute. reflexivity. Qed.
Example dirname_1 : dirname "d/sub/a.png" = "d/sub".
Proof. vm_compute. reflexivity. Qed.
Example dirname_2 : dirname "/a.png" = "/".
Proof. vm_compute. reflexivity. Qed.
Example dirname_3 : dirname "a.png" = "".
Proof. vm_compute. reflexivity. Qed.
Example dirname_4 : dirname "d//a.png" = "d".
Proof. vm_compute. reflexivity. Qed.
Example basename_1 : basename "d/sub/a.png" = "a.png".
Proof. vm_compute. reflexivity. Qed.
Example join_1 : join "d/sub" ["Remake"; "a.png"] = "d/sub/Remake/a.png".
Proof. vm_compute. reflexivity. Qed.
Example join_2 : join "" ["Remake"; "a.png"] = "Remake/a.png".
Proof. vm_compute. reflexivity. Qed.
Example lower_1 : lower "Ab.JpEg" = "ab.jpeg".
Proof. vm_compute. reflexivity. Qed.
Example endswith_1 : endswith_any "x.png" [".jpg"; ".png"] = true.
Proof. vm_compute. reflexivity. Qed.
Example rstrip_1 : rstrip "/" "a/b//" = "a/b".
Proof. vm_compute. reflexivity. Qed.

(** ** Pixel grids *)

Lemma nth_mk_rows (w h : Z) (f : Z -> Z -> rgba) (x y : Z) :
  0 <= x < w -> 0 <= y < h ->
  nth (Z.to_nat x) (nth (Z.to_nat y) (mk_rows w h f) []) zero_px = f x y.
Proof.
  intros Hx Hy. unfold mk_rows.
  rewrite (nth_lookup_Some _ _ _ ((fun x => f x y) <$> seqZ 0 w)).
  - rewrite (nth_lookup_Some _ _ _ (f x y)); [reflexivity|].
    rewrite list_lookup_fmap, lookup_seqZ_lt by lia. simpl. f_equal. f_equal. lia.
  - rewrite list_lookup_fmap, lookup_seqZ_lt by lia. simpl. f_equal.
    replace (0 + Z.of_nat (Z.to_nat y)) with y by lia. reflexivity.
Qed.

Lemma pixel_at_mk_rows (m : string) (tr : bool) (w h : Z) (f : Z -> Z -> rgba) (x y : Z) :
  0 <= x < w -> 0 <= y < h ->
  pixel_at (mkImage m tr w h (mk_rows w h f)) x y = f x y.
Proof. intros Hx Hy. unfold pixel_at. simpl. apply nth_mk_rows; assumption. Qed.

Lemma mk_rows_ext (w h : Z) (f g : Z -> Z -> rgba) :
  (forall x y, 0 <= x < w -> 0 <= y < h -> f x y = g x y) ->
  mk_rows w h f = mk_rows w h g.
Proof.
  intros Hfg. unfold mk_rows.
  apply list_fmap_ext. intros i y Hy. apply lookup_seqZ in Hy.
  apply list_fmap_ext. intros j x Hx. apply lookup_seqZ in Hx.
  apply Hfg; lia.
Qed.

Lemma wf_image_mk_rows (m : string) (tr : bool) (w h : Z) (f : Z -> Z -> rgba) :
  0 <= w -> 0 <= h -> wf_image (mkImage m tr w h (mk_rows w h f)) = true.
Proof.
  intros Hw Hh. unfold wf_image. simpl.
  rewrite !andb_true_iff. repeat split.
  - apply Z.leb_le. exact Hw.
  - apply Z.leb_le. exact Hh.
  - apply Nat.eqb_eq. unfold mk_rows. rewrite length_fmap, length_seqZ. reflexivity.
  - apply forallb_forall. intros row Hrow. apply Nat.eqb_eq.
    unfold mk_rows in Hrow. apply list_elem_of_In, list_elem_of_fmap in Hrow.
    destruct Hrow as (y & -> & _). rewrite length_fmap, length_seqZ. reflexivity.
Qed.

Lemma wf_image_inv (img : Image) :
  wf_image img = true ->
  0 <= width img /\ 0 <= height img
  /\ length (rows img) = Z.to_nat (height img)
  /\ (forall row, In row (rows img) -> length row = Z.to_nat (width img)).
Proof.
  unfold wf_image. rewrite !andb_true_iff. intros [[[Hw Hh] Hlen] Hrows].
  apply Z.leb_le in Hw. apply Z.leb_le in Hh. apply Nat.eqb_eq in Hlen.
  repeat split; try assumption.
  intros row Hrow. apply Nat.eqb_eq. revert row Hrow. apply forallb_forall. exact Hrows.
Qed.

(** A rectangular image is the grid of its own pixels. *)
Lemma rows_of_wf_image (img : Image) :
  wf_image img = true ->
  mk_rows (width img) (height img) (fun x y => pixel_at img x y) = rows img.
Proof.
  intros Hwf. destruct (wf_image_inv img Hwf) as (Hw & Hh & Hlen & Hrows).
  unfold mk_rows, pixel_at. apply list_eq. intros j.
  rewrite list_lookup_fmap.
  destruct (rows img !! j) as [row|] eqn:Hrow.
  - assert (Hj : (j < length (rows img))%nat) by (apply lookup_lt_is_Some; eauto).
    rewrite lookup_seqZ_lt by lia. simpl. f_equal.
    assert (Hlenrow : length row = Z.to_nat (width img)).
    { apply Hrows. apply list_elem_of_In. eapply list_elem_of_lookup_2. exact Hrow. }
    apply list_eq. intros i. rewrite list_lookup_fmap.
    replace (Z.to_nat (0 + Z.of_nat j)) with j by lia.
    rewrite (nth_lookup_Some _ _ _ row Hrow).
    destruct (row !! i) as [p|] eqn:Hp.
    + assert (Hi : (i < length row)%nat) by (apply lookup_lt_is_Some; eauto).
      rewrite lookup_seqZ_lt by lia. simpl. f_equal.
      replace (Z.to_nat (0 + Z.of_nat i)) with i by lia.
      apply nth_lookup_Some. exact Hp.
    + apply lookup_ge_None in Hp. rewrite lookup_seqZ_ge by lia. reflexivity.
  - apply lookup_ge_None in Hrow. rewrite lookup_seqZ_ge by lia. reflexivity.
Qed.

Lemma in_image_true (img : Image) (x y : Z) :
  in_image img x y = true <-> 0 <= x < width img /\ 0 <= y < height img.
Proof.
  unfold in_image. rewrite !andb_true_iff, !Z.leb_le, !Z.ltb_lt. lia.
Qed.


(** Cropping to the whole image changes nothing. *)
Lemma crop_whole (img : Image) :
  wf_image img = true ->
  crop img (0, 0, width img, height img) = Ok img.
Proof.
  intros Hwf. destruct (wf_image_inv img Hwf) as (Hw & Hh & _).
  unfold crop.
  destruct (Z.ltb_spec (width img) 0); [lia|].
  destruct (Z.ltb_spec (height img) 0); [lia|].
  f_equal. rewrite !Z.sub_0_r.
  rewrite (mk_rows_ext _ _ _ (fun x y => pixel_at img x y)).
  - rewrite rows_of_wf_image by exact Hwf. destruct img; reflexivity.
  - intros x y Hx Hy. rewrite !Z.add_0_r.
    destruct (in_image img x y) eqn:Hin; [reflexivity|].
    assert (in_image img x y = true) by (apply in_image_true; lia). congruence.
Qed.

(** A crop has the size of its box and the pixels under it. *)
Lemma crop_inside (img : Image) (l t r b : Z) :
  l <= r -> t <= b ->
  exists c, crop img (l, t, r, b) = Ok c
    /\ mode c = mode img /\ info_transparency c = info_transparency img
    /\ width c = r - l /\ height c = b - t
    /\ wf_image c = true
    /\ (forall x y, 0 <= x < r - l -> 0 <= y < b - t ->
          in_image img (x + l) (y + t) = true ->
          pixel_at c x y = pixel_at img (x + l) (y + t)).
Proof.
  intros Hlr Htb. unfold crop.
  destruct (Z.ltb_spec r l); [lia|]. destruct (Z.ltb_spec b t); [lia|].
  eexists. split; [reflexivity|]. simpl. repeat split.
  - apply wf_image_mk_rows; lia.
  - intros x y Hx Hy Hin. rewrite pixel_at_mk_rows by lia. rewrite Hin. reflexivity.
Qed.

(** ** The detection view and the steps of [trim_whitespace] *)

Ltac result_step := unfold mbind, result_bind; cbv beta iota.

Lemma convert_RGB_ok (img : Image) :
  convertible img = true ->
  exists out, convert_RGB img = Ok out
    /\ mode out = "RGB" /\ width out = width img /\ height out = height img.
Proof.
  intros Hc. unfold convert_RGB.
  destruct (String.eqb_spec (mode img) "RGB") as [Hm|Hm].
  - exists img. repeat split; [exact Hm].
  - rewrite Hc. eexists. repeat split.
Qed.

Lemma convert_RGBA_ok (img : Image) :
  convertible img = true ->
  exists out, convert_RGBA img = Ok out
    /\ mode out = "RGBA" /\ width out = width img /\ height out = height img
    /\ rows out = rows img.
Proof.
  intros Hc. unfold convert_RGBA.
  destruct (String.eqb_spec (mode img) "RGBA") as [Hm|Hm].
  - exists img. repeat split; [exact Hm].
  - rewrite Hc. eexists. repeat split.
Qed.

Lemma new_ok (m : string) (w h : Z) (color : rgba) :
  0 <= w -> 0 <= h ->
  new m (w, h) color = Ok (mkImage m false w h (mk_rows w h (fun _ _ => color))).
Proof.
  intros Hw Hh. unfold new.
  destruct (Z.ltb_spec w 0); [lia|]. destruct (Z.ltb_spec h 0); [lia|]. reflexivity.
Qed.

(** The detection view exists and has the size of the image. *)
Lemma rgb_for_detection_ok (img : Image) (c : string) :
  wf_image img = true -> convertible img = true ->
  exists det, _rgb_for_detection img c = Ok det
    /\ mode det = "RGB" /\ width det = width img /\ height det = height img.
Proof.
  intros Hwf Hc. destruct (wf_image_inv img Hwf) as (Hw & Hh & _).
  unfold _rgb_for_detection. destruct (_has_alpha img).
  - rewrite new_ok by assumption. result_step.
    destruct (convert_RGBA_ok img Hc) as (tmp & -> & _). result_step.
    match goal with |- context [convert_RGB ?b] =>
      destruct (convert_RGB_ok b eq_refl) as (out & -> & Hm & Hwo & Hho) end.
    exists out. repeat split; assumption.
  - destruct (convert_RGB_ok img Hc) as (out & -> & Hm & Hwo & Hho).
    exists out. repeat split; assumption.
Qed.

Lemma clamp_box_nonempty (w h l r t b : Z) :
  let '(l', r', t', b') := clamp_box w h (l, r, t, b) in
  0 <= l' < r' /\ 0 <= t' < b' /\ (1 <= w -> r' <= w) /\ (1 <= h -> b' <= h).
Proof. unfold clamp_box. lia. Qed.

(** The box of [detect_whitespace] is never empty, on any RGB image. *)
Lemma detect_whitespace_nonempty (img : Image) (c d : string) (thr : Z) :
  mode img = "RGB" ->
  exists l r t b,
    detect_whitespace img c d thr = Ok (l, r, t, b)
    /\ 0 <= l < r /\ 0 <= t < b
    /\ (1 <= width img -> r <= width img) /\ (1 <= height img -> b <= height img).
Proof.
  intros Hmode. rewrite detect_whitespace_total by exact Hmode.
  destruct (raw_box img c d thr) as [[[l r] t] b].
  pose proof (clamp_box_nonempty (width img) (height img) l r t b) as Hc.
  destruct (clamp_box (width img) (height img) (l, r, t, b)) as [[[l' r'] t'] b'].
  exists l', r', t', b'. split; [reflexivity | exact Hc].
Qed.

Lemma int_div100_agree_from_spec (k : nat) :
  forall n, int_div100_agree_from k n = true ->
  forall j, n <= j < n + Z.of_nat k -> int_div100_float j = int_div100 j.
Proof.
  induction k as [|k IH]; intros n Hk j Hj; [lia|].
  cbn [int_div100_agree_from] in Hk. apply andb_true_iff in Hk. destruct Hk as [Hn Hrest].
  destruct (Z.eq_dec j n) as [->|Hne].
  - apply Z.eqb_eq. exact Hn.
  - apply (IH (n + 1) Hrest). lia.
Qed.

(** The binary64 evaluation of [int(n / 100.0)] and the integer quotient
    agree on every [n] up to 51200 (a side of 1024 pixels at 50 percent). *)
Lemma int_div100_float_agrees (n : Z) :
  0 <= n <= 51200 -> int_div100_float n = int_div100 n.
Proof.
  intros Hn.
  assert (Hall : int_div100_agree_from (Z.to_nat 51201) 0 = true)
    by (vm_compute; reflexivity).
  apply (int_div100_agree_from_spec (Z.to_nat 51201) 0 Hall).
  rewrite Z2Nat.id; lia.
Qed.

Lemma int_div100_floor (n : Z) : 0 <= n -> int_div100 n = n / 100.
Proof. intros Hn. unfold int_div100. apply Z.quot_div_nonneg; lia. Qed.

(** [trim_image] step by step: it succeeds on every image Pillow can
    convert, crops to the box detected at threshold 70, and pads when
    the margin is positive. *)
Lemma trim_image_steps (orig : Image) (m : Z) (c d : string) :
  wf_image orig = true -> convertible orig = true -> 0 <= m ->
  exists det l r t b cropped,
    _rgb_for_detection orig c = Ok det
    /\ width det = width orig /\ height det = height orig
    /\ detect_whitespace det c d 70 = Ok (l, r, t, b)
    /\ 0 <= l < r /\ 0 <= t < b
    /\ (1 <= width orig -> r <= width orig) /\ (1 <= height orig -> b <= height orig)
    /\ crop orig (l, t, r, b) = Ok cropped
    /\ trim_image orig m c d
       = Ok (if m >? 0
             then with_margin (width orig) (height orig) m (l, r, t, b) cropped
             else cropped).
Proof.
  intros Hwf Hc Hm. destruct (wf_image_inv orig Hwf) as (Hw & Hh & _).
  destruct (rgb_for_detection_ok orig c Hwf Hc) as (det & Hdet & Hdm & Hdw & Hdh).
  destruct (detect_whitespace_nonempty det c d 70 Hdm)
    as (l & r & t & b & Hbox & Hlr & Htb & Hrw & Hbh).
  rewrite Hdw in Hrw. rewrite Hdh in Hbh.
  destruct (crop_inside orig l t r b) as (cropped & Hcrop & Hcm & Hci & Hcw & Hch & _);
    [lia | lia |].
  exists det, l, r, t, b, cropped.
  repeat (split; [first [assumption | lia] |]).
  unfold trim_image. rewrite Hdet. result_step. rewrite Hbox. result_step.
  rewrite Hcrop. result_step.
  destruct (Z.gtb_spec m 0); [|reflexivity].
  assert (0 <= int_div100 (width orig * m))
    by (rewrite int_div100_floor by nia; apply Z.div_pos; nia).
  assert (0 <= int_div100 (height orig * m))
    by (rewrite int_div100_floor by nia; apply Z.div_pos; nia).
  unfold with_margin.
  destruct (_has_alpha cropped); rewrite new_ok by lia; reflexivity.
Qed.

Lemma str_in_cons (x a : string) (l : list string) :
  str_in x (a :: l) = String.eqb x a || str_in x l.
Proof. reflexivity. Qed.

(** What [for_save] hands to the encoder. *)
Lemma for_save_ok (output_path : string) (img : Image) :
  convertible img = true ->
  exists saved, for_save output_path img = Ok saved
    /\ width saved = width img /\ height saved = height img
    /\ (str_in (lower (snd (splitext output_path))) [".jpg"; ".jpeg"; ".bmp"] = false ->
        saved = img)
    /\ (_has_alpha img = false -> str_in (mode img) ["RGB"; "L"] = true -> saved = img)
    /\ (str_in (lower (snd (splitext output_path))) [".jpg"; ".jpeg"; ".bmp"] = true ->
        (mode saved = "RGB" \/ mode saved = "L") /\ has_band "A" saved = false).
Proof.
  intros Hc. unfold for_save.
  destruct (str_in (lower (snd (splitext output_path))) [".jpg"; ".jpeg"; ".bmp"]) eqn:Hext.
  - destruct (_has_alpha img || negb (str_in (mode img) ["RGB"; "L"])) eqn:Hconv.
    + destruct (convert_RGB_ok img Hc) as (out & Hout & Hm & Hw & Hh).
      exists out. repeat split; try assumption; try discriminate.
      * intros Ha Hrgb. rewrite Ha, Hrgb in Hconv. discriminate.
      * left. exact Hm.
      * unfold has_band. rewrite Hm. reflexivity.
    + apply orb_false_iff in Hconv. destruct Hconv as [Ha Hrgb].
      apply negb_false_iff in Hrgb.
      exists img. repeat split; try reflexivity; try discriminate.
      * rewrite !str_in_cons in Hrgb.
        destruct (String.eqb_spec (mode img) "RGB") as [->|_]; [left; reflexivity|].
        destruct (String.eqb_spec (mode img) "L") as [->|_]; [right; reflexivity|].
        discriminate Hrgb.
      * unfold _has_alpha in Ha. unfold has_band.
        destruct (str_in "A" (getbands (mode img))); [discriminate | reflexivity].
  - exists img. repeat split; try reflexivity; discriminate.
Qed.

(** ** C5: the size of the output *)

Lemma with_margin_size (w h m l r t b : Z) (cropped : Image) :
  0 <= w -> 0 <= h -> 0 <= m ->
  let out := with_margin w h m (l, r, t, b) cropped in
  width out = (r - l) + 2 * (w * m / 100)
  /\ height out = (b - t) + 2 * (h * m / 100)
  /\ convertible out = true.
Proof.
  intros Hw Hh Hm. unfold with_margin.
  rewrite !int_div100_floor by nia.
  destruct (_has_alpha cropped); simpl; repeat split; reflexivity.
Qed.

(** C5. For a W x H image, a margin percent m in [0, 50] and the box
    (l, r, t, b) detected on it, the image [trim_whitespace] turns out,
    before and after the conversion for its file format, is
    (r - l) + 2 * floor(W * m / 100) wide and
    (b - t) + 2 * floor(H * m / 100) high: the margin is a share of the
    size of the original, not of the crop. *)
Theorem trim_output_size (orig : Image) (m : Z) (c d output_path : string) :
  wf_image orig = true -> convertible orig = true -> 0 <= m <= 50 ->
  exists det l r t b final saved,
    _rgb_for_detection orig c = Ok det
    /\ detect_whitespace det c d 70 = Ok (l, r, t, b)
    /\ trim_image orig m c d = Ok final
    /\ for_save output_path final = Ok saved
    /\ width final = (r - l) + 2 * (width orig * m / 100)
    /\ height final = (b - t) + 2 * (height orig * m / 100)
    /\ width saved = width final /\ height saved = height final.
Proof.
  intros Hwf Hc [Hm0 Hm50]. destruct (wf_image_inv orig Hwf) as (Hw & Hh & _).
  destruct (trim_image_steps orig m c d Hwf Hc Hm0)
    as (det & l & r & t & b & cropped & Hdet & _ & _ & Hbox & Hlr & Htb & _ & _ & Hcrop & Htrim).
  destruct (crop_inside orig l t r b) as (cropped' & Hcrop' & Hcm & _ & Hcw & Hch & _);
    [lia | lia |].
  rewrite Hcrop in Hcrop'. injection Hcrop' as <-.
  pose proof (with_margin_size (width orig) (height orig) m l r t b cropped Hw Hh Hm0)
    as (Hmw & Hmh & Hmc).
  set (final := if m >? 0
                then with_margin (width orig) (height orig) m (l, r, t, b) cropped
                else cropped) in *.
  assert (Hfinal : width final = r - l + 2 * (width orig * m / 100)
                   /\ height final = b - t + 2 * (height orig * m / 100)
                   /\ convertible final = true).
  { unfold final. destruct (Z.gtb_spec m 0) as [Hpos|Hzero].
    - repeat split; assumption.
    - assert (m = 0) by lia. subst m. rewrite !Z.mul_0_r. simpl Z.div.
      repeat split; [lia | lia |].
      unfold convertible. rewrite Hcm. exact Hc. }
  destruct Hfinal as (Hfw & Hfh & Hfc).
  destruct (for_save_ok output_path final Hfc) as (saved & Hsave & Hsw & Hsh & _).
  exists det, l, r, t, b, final, saved.
  repeat split; assumption.
Qed.

Lemma trim_output_size_witness :
  exists det l r t b final saved,
    _rgb_for_detection (Samples.white_with_square 10 8 3 4 2) "white" = Ok det
    /\ detect_whitespace det "white" "both" 70 = Ok (l, r, t, b)
    /\ trim_image (Samples.white_with_square 10 8 3 4 2) 25 "white" "both" = Ok final
    /\ for_save "out/Remake/x.jpg" final = Ok saved
    /\ width final = (r - l) + 2 * (10 * 25 / 100)
    /\ height final = (b - t) + 2 * (8 * 25 / 100)
    /\ width saved = width final /\ height saved = height final.
Proof.
  apply (trim_output_size (Samples.white_with_square 10 8 3 4 2) 25 "white" "both"
           "out/Remake/x.jpg").
  - vm_compute. reflexivity.
  - vm_compute. reflexivity.
  - lia.
Defined.

Example trim_square_with_margin :
  (fun r => match r with Ok img => Some (width img, height img) | Raise _ => None end)
    (trim_image (Samples.white_with_square 10 8 3 4 2) 25 "white" "both")
  = Some (2 + 2 * 2, 2 + 2 * 2).
Proof. vm_compute. reflexivity. Qed.

(** ** C6: an image with content on all four edges *)

Lemma content_true (img : Image) (c : string) (thr x y : Z) :
  content img c thr x y = true <-> is_bg c thr (rgb_at img x y) = false.
Proof. unfold content. apply negb_true_iff. Qed.

(** Content on the four edges: the box is the whole image, under every
    direction. *)
Lemma detect_whitespace_tight (img : Image) (c d : string) (thr : Z) :
  mode img = "RGB" ->
  (exists y, 0 <= y < height img /\ is_bg c thr (rgb_at img 0 y) = false) ->
  (exists y, 0 <= y < height img /\ is_bg c thr (rgb_at img (width img - 1) y) = false) ->
  (exists x, 0 <= x < width img /\ is_bg c thr (rgb_at img x 0) = false) ->
  (exists x, 0 <= x < width img /\ is_bg c thr (rgb_at img x (height img - 1)) = false) ->
  detect_whitespace img c d thr = Ok (0, width img, 0, height img).
Proof.
  intros Hmode (y1 & Hy1 & Hleft) (y2 & Hy2 & Hright) (x1 & Hx1 & Htop) (x2 & Hx2 & Hbottom).
  rewrite detect_whitespace_total by exact Hmode. unfold raw_box.
  assert (Hl : find (column_content img c thr) (range (width img)) = Some 0).
  { apply find_range_first; [lia | | intros a Ha; lia].
    apply column_content_true. exists y1. split; [lia|]. apply content_true. exact Hleft. }
  assert (Hr : find (column_content img c thr) (range_down (width img - 1) (-1))
               = Some (width img - 1)).
  { apply find_range_down_first; [lia | | intros a Ha; lia].
    apply column_content_true. exists y2. split; [lia|]. apply content_true. exact Hright. }
  assert (Ht : find (row_content img c thr) (range (height img)) = Some 0).
  { apply find_range_first; [lia | | intros a Ha; lia].
    apply row_content_true. exists x1. split; [lia|]. apply content_true. exact Htop. }
  assert (Hb : find (row_content img c thr) (range_down (height img - 1) (-1))
               = Some (height img - 1)).
  { apply find_range_down_first; [lia | | intros a Ha; lia].
    apply row_content_true. exists x2. split; [lia|]. apply content_true. exact Hbottom. }
  rewrite Hl, Hr, Ht, Hb.
  destruct (str_in d ["horizontal"; "both"]), (str_in d ["vertical"; "both"]);
    unfold clamp_box; simpl; f_equal; repeat f_equal; lia.
Qed.

Lemma convert_RGB_size (img out : Image) :
  convert_RGB img = Ok out -> width out = width img /\ height out = height img.
Proof.
  unfold convert_RGB. destruct (String.eqb (mode img) "RGB"); [intros [= <-]; split; reflexivity|].
  destruct (convertible img); [intros [= <-]; split; reflexivity | discriminate].
Qed.


Lemma convert_RGB_mode (img out : Image) :
  convert_RGB img = Ok out -> mode out = "RGB".
Proof.
  unfold convert_RGB. destruct (String.eqb_spec (mode img) "RGB") as [Hm|_].
  - intros [= <-]. exact Hm.
  - destruct (convertible img); [intros [= <-]; reflexivity | discriminate].
Qed.

(** A detection view is an RGB image. *)
Lemma rgb_for_detection_mode (img det : Image) (c : string) :
  _rgb_for_detection img c = Ok det -> mode det = "RGB".
Proof.
  unfold _rgb_for_detection. destruct (_has_alpha img).
  - unfold new. destruct ((width img <? 0) || (height img <? 0)); [discriminate|].
    result_step. destruct (convert_RGBA img) as [tmp|e]; [|discriminate].
    result_step. apply convert_RGB_mode.
  - apply convert_RGB_mode.
Qed.

(** A detection view has the size of its image. *)
Lemma rgb_for_detection_size (img det : Image) (c : string) :
  _rgb_for_detection img c = Ok det ->
  width det = width img /\ height det = height img.
Proof.
  unfold _rgb_for_detection. destruct (_has_alpha img).
  - unfold new. destruct ((width img <? 0) || (height img <? 0)); [discriminate|].
    result_step. destruct (convert_RGBA img) as [tmp|e]; [|discriminate].
    result_step. intros Hdet. apply convert_RGB_size in Hdet. exact Hdet.
  - apply convert_RGB_size.
Qed.

(** An image the conversion of lines 99 to 102 does not apply to is saved
    as it is. *)
Lemma for_save_unchanged (output_path : string) (img : Image) :
  str_in (lower (snd (splitext output_path))) [".jpg"; ".jpeg"; ".bmp"] = false
  \/ (_has_alpha img = false /\ str_in (mode img) ["RGB"; "L"] = true) ->
  for_save output_path img = Ok img.
Proof.
  unfold for_save. intros [Hext | [Ha Hm]].
  - rewrite Hext. reflexivity.
  - rewrite Ha, Hm. destruct (str_in _ [".jpg"; ".jpeg"; ".bmp"]); reflexivity.
Qed.

(** C6. When each edge row and each edge column of the detection view of
    an image holds a pixel that is not background, [trim_whitespace] with
    margin 0 detects the box (0, width, 0, height) and the image it turns
    out is the input itself, so that a second run gives the same again.
    (The image is also saved as it is, unless the conversion for .jpg,
    .jpeg and .bmp applies to it.) *)
Theorem trim_tight_image_unchanged (orig det : Image) (c d : string) :
  wf_image orig = true ->
  _rgb_for_detection orig c = Ok det ->
  (exists y, 0 <= y < height det /\ is_bg c 70 (rgb_at det 0 y) = false) ->
  (exists y, 0 <= y < height det /\ is_bg c 70 (rgb_at det (width det - 1) y) = false) ->
  (exists x, 0 <= x < width det /\ is_bg c 70 (rgb_at det x 0) = false) ->
  (exists x, 0 <= x < width det /\ is_bg c 70 (rgb_at det x (height det - 1)) = false) ->
  detect_whitespace det c d 70 = Ok (0, width orig, 0, height orig)
  /\ trim_image orig 0 c d = Ok orig
  /\ (forall out, trim_image orig 0 c d = Ok out -> trim_image out 0 c d = Ok out)
  /\ (forall output_path,
        str_in (lower (snd (splitext output_path))) [".jpg"; ".jpeg"; ".bmp"] = false
        \/ (_has_alpha orig = false /\ str_in (mode orig) ["RGB"; "L"] = true) ->
        for_save output_path orig = Ok orig).
Proof.
  intros Hwf Hdet Hleft Hright Htop Hbottom.
  destruct (rgb_for_detection_size orig det c Hdet) as (Hdw & Hdh).
  pose proof (detect_whitespace_tight det c d 70 (rgb_for_detection_mode orig det c Hdet)
                Hleft Hright Htop Hbottom) as Hbox.
  rewrite Hdw, Hdh in Hbox.
  assert (Htrim : trim_image orig 0 c d = Ok orig).
  { unfold trim_image. rewrite Hdet. result_step. rewrite Hbox. result_step.
    rewrite crop_whole by exact Hwf. reflexivity. }
  split; [exact Hbox|]. split; [exact Htrim|]. split.
  - intros out Hout. rewrite Htrim in Hout. injection Hout as <-. exact Htrim.
  - intros output_path Hguard. apply for_save_unchanged. exact Hguard.
Qed.

Lemma trim_tight_image_unchanged_witness :
  let img := Samples.red_with_hole 3 3 1 1 in
  detect_whitespace (Samples.view_of img "white") "white" "horizontal" 70 = Ok (0, 3, 0, 3)
  /\ trim_image img 0 "white" "horizontal" = Ok img
  /\ (forall out, trim_image img 0 "white" "horizontal" = Ok out ->
        trim_image out 0 "white" "horizontal" = Ok out)
  /\ (forall output_path,
        str_in (lower (snd (splitext output_path))) [".jpg"; ".jpeg"; ".bmp"] = false
        \/ (_has_alpha img = false /\ str_in (mode img) ["RGB"; "L"] = true) ->
        for_save output_path img = Ok img).
Proof.
  apply (trim_tight_image_unchanged (Samples.red_with_hole 3 3 1 1)
           (Samples.view_of (Samples.red_with_hole 3 3 1 1) "white") "white" "horizontal").
  - vm_compute. reflexivity.
  - vm_compute. reflexivity.
  - exists 0. split; [vm_compute; split; [discriminate | reflexivity] | vm_compute; reflexivity].
  - exists 2. split; [vm_compute; split; [discriminate | reflexivity] | vm_compute; reflexivity].
  - exists 0. split; [vm_compute; split; [discriminate | reflexivity] | vm_compute; reflexivity].
  - exists 2. split; [vm_compute; split; [discriminate | reflexivity] | vm_compute; reflexivity].
Defined.

(** ** C7: the conversion before saving, and transparency *)










Example save_rgba_as_png :
  (fun r => match r with
            | Ok img => Some (mode img, width img, height img, pixel_at img 2 1, pixel_at img 0 0)
            | Raise _ => None
            end)
    (final ← trim_image (Samples.red_with_hole 4 3 1 1) 25 "white" "both";
     for_save "d/Remake/x.PNG" final)
  = Some ("RGBA", 6, 3, (0, 0, 0, 0), (0, 0, 0, 0)).
Proof. vm_compute. reflexivity. Qed.

Example save_rgba_as_jpg :
  (fun r => match r with
            | Ok img => Some (mode img, width img, height img, pixel_at img 2 1, pixel_at img 1 0)
            | Raise _ => None
            end)
    (final ← trim_image (Samples.red_with_hole 4 3 1 1) 25 "white" "both";
     for_save "d/Remake/x.Jpg" final)
  = Some ("RGB", 6, 3, (0, 0, 0, 255), (255, 0, 0, 255)).
Proof. vm_compute. reflexivity. Qed.

(** ** C10: the threshold of [trim_whitespace] *)

Lemma find_entry_name (name : string) (l : list node) (n : node) :
  find_entry name l = Some n -> node_name n = name.
Proof.
  induction l as [|m l IH]; simpl; [discriminate|].
  destruct (String.eqb_spec (node_name m) name) as [Heq|Hne].
  - intros [= <-]. exact Heq.
  - exact IH.
Qed.

Lemma find_entry_put_entry (name : string) (n : node) (l : list node) :
  node_name n = name -> find_entry name (put_entry n l) = Some n.
Proof.
  intros <-. induction l as [|m l IH]; simpl.
  - rewrite String.eqb_refl. reflexivity.
  - destruct (String.eqb_spec (node_name m) (node_name n)) as [Heq|Hne]; simpl.
    + rewrite String.eqb_refl. reflexivity.
    + destruct (String.eqb_spec (node_name m) (node_name n)); [contradiction | exact IH].
Qed.

(** A file that was written is found at its path. *)
Lemma resolve_write_at (path : string) (p : list string) (d : file_data)
    (here here' : list node) :
  write_at path p d here = Ok here' -> resolve p here' = Some (inl d).
Proof.
  revert here here'. induction p as [|name rest IH]; intros here here'; simpl.
  - discriminate.
  - destruct rest as [|next rest'].
    + destruct (find_entry name here) as [[? ?|? ?]|]; try discriminate;
        intros [= <-]; simpl;
        rewrite (find_entry_put_entry name (File name d) here) by reflexivity;
        reflexivity.
    + destruct (find_entry name here) as [[? ?|dn ch]|]; try discriminate.
      destruct (write_at path (next :: rest') d ch) as [ch'|e] eqn:Hw; [|discriminate].
      result_step. intros [= <-].
      change (resolve (name :: next :: rest') (put_entry (Dir name ch') here))
        with (match find_entry name (put_entry (Dir name ch') here) with
              | Some (File _ d0) => None
              | Some (Dir _ ch0) => resolve (next :: rest') ch0
              | None => None
              end).
      rewrite (find_entry_put_entry name (Dir name ch') here) by reflexivity.
      apply (IH ch ch'). exact Hw.
Qed.

Lemma save_lookup (img : Image) (path : string) (fs fs' : filesystem) :
  save img path fs = (Ok tt, fs') ->
  lookup_path path fs' = Some (inl (ImageFile img)).
Proof.
  unfold save, lookup_path.
  destruct (write_at path (components path) (ImageFile img) fs) as [fs1|e] eqn:Hw;
    [|discriminate].
  intros [= <-].
  destruct (String.eqb_spec path "") as [->|_].
  - vm_compute in Hw. discriminate.
  - eapply resolve_write_at. exact Hw.
Qed.

(** C10. Whatever file [trim_whitespace] writes, it holds the crop of the
    input to the box [detect_whitespace] finds at threshold 70 (with the
    margin and the conversion for the format applied): no argument of
    [trim_whitespace], and so none of [process_targets], reaches the
    threshold. *)
Theorem trim_whitespace_threshold_70 (image_path output_path : string) (m : Z)
    (c d : string) (fs fs' : filesystem) (orig : Image) :
  lookup_path image_path fs = Some (inl (ImageFile orig)) ->
  wf_image orig = true -> convertible orig = true -> 0 <= m ->
  trim_whitespace image_path output_path m c d fs = (Ok tt, fs') ->
  exists det l r t b cropped saved,
    _rgb_for_detection orig c = Ok det
    /\ detect_whitespace det c d 70 = Ok (l, r, t, b)
    /\ detect_whitespace_default det c d = Ok (l, r, t, b)
    /\ crop orig (l, t, r, b) = Ok cropped
    /\ for_save output_path
         (if m >? 0
          then with_margin (width orig) (height orig) m (l, r, t, b) cropped
          else cropped) = Ok saved
    /\ lookup_path output_path fs' = Some (inl (ImageFile saved)).
Proof.
  intros Hsrc Hwf Hc Hm Hrun.
  destruct (trim_image_steps orig m c d Hwf Hc Hm)
    as (det & l & r & t & b & cropped & Hdet & _ & _ & Hbox & _ & _ & _ & _ & Hcrop & Htrim).
  exists det, l, r, t, b, cropped.
  unfold trim_whitespace, mbind, io_bind in Hrun.
  unfold Image_open in Hrun at 1. rewrite Hsrc in Hrun.
  unfold lift in Hrun at 1. rewrite Htrim in Hrun.
  destruct (makedirs (dirname output_path) fs) as [[[]|e] fs1]; [|discriminate].
  unfold lift in Hrun.
  destruct (for_save output_path _) as [saved|e] eqn:Hsave; [|discriminate].
  exists saved. repeat split; try assumption.
  eapply save_lookup. exact Hrun.
Qed.

Lemma trim_whitespace_threshold_70_witness :
  let fs' := snd (trim_whitespace "d/b.png" "d/Remake/b.png" 0 "white" "both" Samples.album) in
  let orig := Samples.white_with_square 10 10 4 4 2 in
  exists det l r t b cropped saved,
    _rgb_for_detection orig "white" = Ok det
    /\ detect_whitespace det "white" "both" 70 = Ok (l, r, t, b)
    /\ detect_whitespace_default det "white" "both" = Ok (l, r, t, b)
    /\ crop orig (l, t, r, b) = Ok cropped
    /\ for_save "d/Remake/b.png"
         (if 0 >? 0 then with_margin (width orig) (height orig) 0 (l, r, t, b) cropped
          else cropped) = Ok saved
    /\ lookup_path "d/Remake/b.png" fs' = Some (inl (ImageFile saved)).
Proof.
  apply (trim_whitespace_threshold_70 "d/b.png" "d/Remake/b.png" 0 "white" "both"
           Samples.album
           (snd (trim_whitespace "d/b.png" "d/Remake/b.png" 0 "white" "both" Samples.album))
           (Samples.white_with_square 10 10 4 4 2)).
  - vm_compute. reflexivity.
  - vm_compute. reflexivity.
  - vm_compute. reflexivity.
  - lia.
  - vm_compute. reflexivity.
Defined.

(** A grey the threshold 70 takes for background and 10 does not: the
    threshold matters to [detect_whitespace], and [trim_image] sides
    with 70. *)
Example threshold_matters :
  let img := mkImage "RGB" false 3 1 [[(255, 255, 255, 255); (200, 200, 200, 255);
                                       (255, 255, 255, 255)]] in
  detect_whitespace img "white" "both" 10 = Ok (1, 2, 0, 1)
  /\ detect_whitespace img "white" "both" 70 = Ok (0, 3, 0, 1)
  /\ trim_image img 0 "white" "both" = Ok img.
Proof. vm_compute. repeat split; reflexivity. Qed.

(** ** C8: the errors of a batch *)

Section BatchFacts.

Context {W : Type}.
Variable c d : string.
Variable m : Z.
Variable progress_cb : option (Z -> Z -> W -> W).
Variable is_cancelled : option (W -> bool * W).

Lemma failures_app (t1 t2 : list event) : failures (t1 ++ t2) = failures t1 ++ failures t2.
Proof. apply flat_map_app. Qed.

Lemma trimmed_app (t1 t2 : list event) : trimmed (t1 ++ t2) = trimmed t1 ++ trimmed t2.
Proof. apply flat_map_app. Qed.

Lemma outcomes_app (t1 t2 : list event) : outcomes (t1 ++ t2) = outcomes t1 ++ outcomes t2.
Proof. apply flat_map_app. Qed.

Lemma failures_Trimmed (src : string) (o : result unit) (tr : list event) :
  failures (Trimmed src o :: tr)
  = match o with Ok _ => [] | Raise e => [src +:+ ": " +:+ str_exn e] end ++ failures tr.
Proof. reflexivity. Qed.

Lemma trimmed_Trimmed (src : string) (o : result unit) (tr : list event) :
  trimmed (Trimmed src o :: tr) = src :: trimmed tr.
Proof. reflexivity. Qed.

Lemma outcomes_Trimmed (src : string) (o : result unit) (tr : list event) :
  outcomes (Trimmed src o :: tr) = o :: outcomes tr.
Proof. reflexivity. Qed.

Lemma poll_events (w : W) :
  let '(ev, b, w') := poll is_cancelled w in
  failures ev = [] /\ trimmed ev = [] /\ outcomes ev = []
  /\ (b = false -> ~ In (Polled true) ev)
  /\ (b = true -> ev = [Polled true]).
Proof.
  unfold poll. destruct is_cancelled as [p|].
  - destruct (p w) as [b w']. repeat split; try reflexivity.
    + intros -> [H|[]]. discriminate H.
    + intros ->. reflexivity.
  - repeat split; try reflexivity.
    + intros _ [].
    + discriminate.
Qed.

Lemma report_events (i total : Z) (w : W) :
  let '(ev, w') := report progress_cb i total w in
  failures ev = [] /\ trimmed ev = [] /\ outcomes ev = [] /\ ~ In (Polled true) ev.
Proof.
  unfold report. destruct progress_cb as [cb|]; repeat split; try reflexivity.
  - intros [H|[]]. discriminate H.
  - intros [].
Qed.

(** The loop: the errors it adds are those of the files it trimmed, which
    are the first targets, trimmed one after the other, and all of them
    unless the predicate answered yes. *)
Lemma process_loop_trace (targets : list string) :
  forall (i total : Z) (errs : list string) (fs : filesystem) (w : W),
  let '(errs', tr, fs', w') :=
    process_loop c d m progress_cb is_cancelled targets i total errs fs w in
  errs' = errs ++ failures tr
  /\ (outcomes tr, fs') = trim_all (trimmed tr) m c d fs
  /\ (exists n, trimmed tr = take n targets)
  /\ (~ In (Polled true) tr -> trimmed tr = targets).
Proof.
  induction targets as [|src rest IH]; intros i total errs fs w.
  - simpl. rewrite app_nil_r. repeat split; try reflexivity. exists 0%nat. reflexivity.
  - simpl. pose proof (poll_events w) as Hpoll.
    destruct (poll is_cancelled w) as [[ev_poll cancelled] w1].
    destruct Hpoll as (Hpf & Hpt & Hpo & Hpno & Hpyes).
    destruct cancelled.
    + rewrite Hpf, Hpt, Hpo, app_nil_r. repeat split; try reflexivity.
      * exists 0%nat. reflexivity.
      * intros Hno. exfalso. apply Hno. rewrite (Hpyes eq_refl). left. reflexivity.
    + destruct (trim_whitespace src (join (dirname src) ["Remake"; basename src]) m c d fs)
        as [outcome fs1] eqn:Htrim.
      pose proof (report_events i total w1) as Hrep.
      destruct (report progress_cb i total w1) as [ev_report w2].
      destruct Hrep as (Hrf & Hrt & Hro & Hrno).
      specialize (IH (i + 1) total
                     (match outcome with
                      | Ok _ => errs
                      | Raise e => errs ++ [src +:+ ": " +:+ str_exn e]
                      end) fs1 w2).
      destruct (process_loop c d m progress_cb is_cancelled rest (i + 1) total _ fs1 w2)
        as [[[errs' evs] fs'] w'].
      destruct IH as (Herrs & Hall & (n & Hn) & Hfull).
      rewrite failures_app, trimmed_app, outcomes_app, Hpf, Hpt, Hpo.
      rewrite failures_Trimmed, trimmed_Trimmed, outcomes_Trimmed.
      rewrite failures_app, trimmed_app, outcomes_app, Hrf, Hrt, Hro.
      rewrite !app_nil_l.
      cbn [trim_all]. rewrite Htrim. rewrite <- Hall.
      repeat split.
      * rewrite Herrs. destruct outcome as [u|e]; [reflexivity|].
        rewrite <- app_assoc. reflexivity.
      * exists (S n). rewrite Hn. reflexivity.
      * intros Hno. f_equal. apply Hfull. intros Hin. apply Hno.
        apply in_or_app. right. right. apply in_or_app. right. exact Hin.
Qed.

(** Without a predicate, or with one that never answers yes, the loop
    records no such answer. *)
Lemma process_loop_never_cancelled (targets : list string) :
  (forall p w, is_cancelled = Some p -> fst (p w) = false) ->
  forall (i total : Z) (errs : list string) (fs : filesystem) (w : W),
  let '(errs', tr, fs', w') :=
    process_loop c d m progress_cb is_cancelled targets i total errs fs w in
  ~ In (Polled true) tr.
Proof.
  intros Hnever.
  induction targets as [|src rest IH]; intros i total errs fs w; [intros []|].
  cbn [process_loop].
  assert (Hpoll : exists ev w1, poll is_cancelled w = (ev, false, w1)
                                /\ ~ In (Polled true) ev).
  { unfold poll. destruct is_cancelled as [p|] eqn:Hp.
    - specialize (Hnever p w eq_refl). destruct (p w) as [b w1]. simpl in Hnever. subst b.
      exists [Polled false], w1. split; [reflexivity|]. intros [H|[]]. discriminate H.
    - exists [], w. split; [reflexivity|]. intros []. }
  destruct Hpoll as (ev_poll & w1 & -> & Hpno).
  destruct (trim_whitespace src (join (dirname src) ["Remake"; basename src]) m c d fs)
    as [outcome fs1].
  pose proof (report_events i total w1) as Hrep.
  destruct (report progress_cb i total w1) as [ev_report w2].
  destruct Hrep as (_ & _ & _ & Hrno).
  specialize (IH (i + 1) total
                 (match outcome with
                  | Ok _ => errs
                  | Raise e => errs ++ [src +:+ ": " +:+ str_exn e]
                  end) fs1 w2).
  destruct (process_loop c d m progress_cb is_cancelled rest (i + 1) total _ fs1 w2)
    as [[[errs' evs] fs'] w'].
  intros H. apply in_app_or in H. destruct H as [H|H]; [exact (Hpno H)|].
  cbn [app] in H. destruct H as [H|H]; [discriminate H|].
  apply in_app_or in H. destruct H as [H|H]; [exact (Hrno H) | exact (IH H)].
Qed.

Lemma failures_nil_iff (tr : list event) :
  failures tr = [] <-> Forall (fun o => exists u, o = Ok u) (outcomes tr).
Proof.
  induction tr as [|ev tr IH]; simpl.
  - split; [intros _; constructor | reflexivity].
  - destruct ev as [b|src [u|e]|i total]; simpl; try exact IH.
    + rewrite IH. split.
      * intros H. constructor; [exists u; reflexivity | exact H].
      * intros H. inversion H; assumption.
    + split; [discriminate|]. intros H. inversion H as [|? ? [u Hu] ?]. discriminate Hu.
Qed.

End BatchFacts.

(** C8. In a batch, a file whose trimming raises adds the line
    "<source path>: <text of the exception>" to the errors and the loop
    goes on with the next file: the files gone through are the first
    targets, in order, trimmed one after the other, each on the file
    system the one before left; they are all the targets when there is
    no cancellation predicate or when it never answers yes, whatever
    failed; the errors returned are the lines of the files that failed,
    in order, and they are empty exactly when none failed. *)
Theorem batch_collects_errors {W : Type} (c d : string) (m : Z)
    (progress_cb : option (Z -> Z -> W -> W)) (is_cancelled : option (W -> bool * W))
    (inputs : list string) (fs : filesystem) (w : W) :
  let '(errors, tr, fs', w') :=
    process_targets c d m progress_cb is_cancelled inputs fs w in
  errors = failures tr
  /\ (outcomes tr, fs') = trim_all (trimmed tr) m c d fs
  /\ (~ In (Polled true) tr -> trimmed tr = collect_targets inputs fs)
  /\ (errors = [] <-> Forall (fun o => exists u, o = Ok u) (outcomes tr))
  /\ (exists n, trimmed tr = take n (collect_targets inputs fs))
  /\ ((forall p w0, is_cancelled = Some p -> fst (p w0) = false) ->
      trimmed tr = collect_targets inputs fs
      /\ length (outcomes tr) = length (collect_targets inputs fs)
      /\ ~ In (Polled true) tr).
Proof.
  unfold process_targets.
  pose proof (report_events progress_cb 0
                (Z.of_nat (length (collect_targets inputs fs))) w) as Hrep.
  destruct (report progress_cb 0 _ w) as [ev0 w0].
  destruct Hrep as (Hrf & Hrt & Hro & Hrno).
  pose proof (process_loop_trace c d m progress_cb is_cancelled
                (collect_targets inputs fs) 1
                (Z.of_nat (length (collect_targets inputs fs))) [] fs w0) as Hloop.
  pose proof (fun Hnever => process_loop_never_cancelled c d m progress_cb is_cancelled
                (collect_targets inputs fs) Hnever 1
                (Z.of_nat (length (collect_targets inputs fs))) [] fs w0) as Hquiet.
  destruct (process_loop c d m progress_cb is_cancelled _ 1 _ [] fs w0)
    as [[[errors evs] fs'] w'].
  destruct Hloop as (Herrs & Hall & Hprefix & Hfull).
  rewrite failures_app, trimmed_app, outcomes_app, Hrf, Hrt, Hro.
  rewrite !app_nil_l. rewrite app_nil_l in Herrs.
  assert (Hlen : length (outcomes evs) = length (trimmed evs)).
  { clear. induction evs as [|[b|src o|i total] evs IH]; simpl; congruence. }
  repeat split.
  - exact Herrs.
  - exact Hall.
  - intros Hno. apply Hfull. intros Hin. apply Hno. apply in_or_app. right. exact Hin.
  - rewrite Herrs. apply failures_nil_iff.
  - rewrite Herrs. apply failures_nil_iff.
  - exact Hprefix.
  - apply Hfull. apply Hquiet. assumption.
  - rewrite Hlen. f_equal. apply Hfull. apply Hquiet. assumption.
  - intros Hin. apply in_app_or in Hin. destruct Hin as [Hin|Hin]; [exact (Hrno Hin)|].
    revert Hin. apply Hquiet. assumption.
Qed.

(** Two files that fail do not stop the batch: all five targets are gone
    through and the three others are written. *)
Example batch_goes_on_after_failures :
  let fs := [Dir "d" [File "f1.png" NotAnImage;
                      File "f2.png" (ImageFile (Samples.all_white 2 2));
                      File "f3.png" NotAnImage;
                      File "f4.png" (ImageFile (Samples.all_white 2 2));
                      File "f5.png" (ImageFile (Samples.all_white 2 2))]] in
  let '(errors, tr, fs', _) :=
    process_targets (W := unit) "white" "both" 0 None None ["d"] fs tt in
  errors = ["d/f1.png: cannot identify image file 'd/f1.png'";
            "d/f3.png: cannot identify image file 'd/f3.png'"]
  /\ trimmed tr = ["d/f1.png"; "d/f2.png"; "d/f3.png"; "d/f4.png"; "d/f5.png"]
  /\ map node_name (match lookup_path "d/Remake" fs' with Some (inr l) => l | _ => [] end)
     = ["f2.png"; "f4.png"; "f5.png"].
Proof. vm_compute. repeat split; reflexivity. Qed.

Example batch_with_a_broken_file :
  let '(errors, tr, fs', _) :=
    process_targets (W := unit) "white" "both" 0 None None ["d"] Samples.five_files tt in
  errors = ["d/f2.png: cannot identify image file 'd/f2.png'"]
  /\ trimmed tr = ["d/f1.png"; "d/f2.png"; "d/f3.png"; "d/f4.png"; "d/f5.png"]
  /\ map node_name (match lookup_path "d/Remake" fs' with Some (inr l) => l | _ => [] end)
     = ["f1.png"; "f3.png"; "f4.png"; "f5.png"].
Proof. vm_compute. repeat split; reflexivity. Qed.

(** ** C9: cancellation *)

Section Cancellation.

Context {W : Type}.
Variable c d : string.
Variable m : Z.
Variable progress_cb : option (Z -> Z -> W -> W).
Variable is_cancelled : W -> bool * W.

(** With a cancellation predicate the loop is a run of rounds, each
    opened by one poll that answers no, closed by one poll that answers
    yes if the run stops short. *)
Lemma process_loop_rounds (targets : list string) :
  forall (i total : Z) (errs : list string) (fs : filesystem) (w : W),
  let '(errs', tr, fs', w') :=
    process_loop c d m progress_cb (Some is_cancelled) targets i total errs fs w in
  exists (done : list (string * result unit)) (stopped : bool),
    tr = rounds (has_callback progress_cb) i total done
           ++ (if stopped then [Polled true] else [])
    /\ map fst done = take (length done) targets
    /\ (if stopped then (length done < length targets)%nat
        else length done = length targets).
Proof.
  induction targets as [|src rest IH]; intros i total errs fs w.
  - exists [], false. repeat split.
  - cbn [process_loop poll]. destruct (is_cancelled w) as [[|] w1].
    + exists [], true. repeat split. simpl. lia.
    + destruct (trim_whitespace src (join (dirname src) ["Remake"; basename src]) m c d fs)
        as [outcome fs1].
      unfold report.
      destruct progress_cb as [cb|].
      * specialize (IH (i + 1) total
                       (match outcome with
                        | Ok _ => errs
                        | Raise e => errs ++ [src +:+ ": " +:+ str_exn e]
                        end) fs1 (cb i total w1)).
        destruct (process_loop c d m (Some cb) (Some is_cancelled) rest (i + 1) total _ fs1 _)
          as [[[errs' evs] fs'] w'].
        destruct IH as (done & stopped & Htr & Hpre & Hlen).
        exists ((src, outcome) :: done), stopped. repeat split.
        -- rewrite Htr. reflexivity.
        -- simpl. f_equal. exact Hpre.
        -- destruct stopped; simpl; lia.
      * specialize (IH (i + 1) total
                       (match outcome with
                        | Ok _ => errs
                        | Raise e => errs ++ [src +:+ ": " +:+ str_exn e]
                        end) fs1 w1).
        destruct (process_loop c d m None (Some is_cancelled) rest (i + 1) total _ fs1 _)
          as [[[errs' evs] fs'] w'].
        destruct IH as (done & stopped & Htr & Hpre & Hlen).
        exists ((src, outcome) :: done), stopped. repeat split.
        -- rewrite Htr. reflexivity.
        -- simpl. f_equal. exact Hpre.
        -- destruct stopped; simpl; lia.
Qed.

End Cancellation.

Lemma trimmed_rounds (r : bool) (i total : Z) (done : list (string * result unit)) :
  trimmed (rounds r i total done) = map fst done.
Proof.
  revert i. induction done as [|[src o] done IH]; intros i; [reflexivity|].
  cbn [rounds]. rewrite !trimmed_app. rewrite IH. destruct r; reflexivity.
Qed.

(** With a caller that raises its flag when told that two files are done,
    a batch of five targets trims the first two and stops at the third
    poll. *)
Lemma flag_when_two_done_stops_after_two (c d : string) (m : Z)
    (t1 t2 t3 t4 t5 : string) (fs : filesystem) :
  let '(errors, tr, fs', flag) :=
    process_loop c d m (Some Samples.flag_when_two_done) (Some Samples.read_flag)
      [t1; t2; t3; t4; t5] 1 5 [] fs false in
  trimmed tr = [t1; t2]
  /\ polls tr = [false; false; true]
  /\ tr = rounds true 1 5 (combine [t1; t2] (outcomes tr)) ++ [Polled true].
Proof.
  cbn [process_loop poll report].
  unfold Samples.read_flag at 1.
  destruct (trim_whitespace t1 _ m c d fs) as [o1 fs1].
  unfold Samples.flag_when_two_done at 1. cbn [Z.add Z.eqb Pos.eqb Pos.add Pos.succ].
  unfold Samples.read_flag at 1.
  destruct (trim_whitespace t2 _ m c d fs1) as [o2 fs2].
  unfold Samples.flag_when_two_done at 1. cbn [Z.add Z.eqb Pos.eqb Pos.add Pos.succ].
  unfold Samples.read_flag at 1.
  repeat split.
Qed.

(** C9 (amended). With a cancellation predicate, [process_targets] polls
    it exactly once before each file it trims; once it answers yes nothing
    more is trimmed or reported and the errors gathered so far are
    returned.  The first progress call, (0, total), comes before any file:
    over five targets, with a flag raised by the progress call that tells
    two files are done (the third call), exactly the first two targets are
    trimmed and the errors returned are theirs. *)
Theorem cancellation_stops_the_batch (c d : string) (m : Z) :
  (forall (W : Type) (progress_cb : option (Z -> Z -> W -> W))
          (is_cancelled : W -> bool * W) (inputs : list string)
          (fs : filesystem) (w : W),
     let '(errors, tr, fs', w') :=
       process_targets c d m progress_cb (Some is_cancelled) inputs fs w in
     let targets := collect_targets inputs fs in
     let total := Z.of_nat (length targets) in
     exists (done : list (string * result unit)) (stopped : bool),
       tr = (if has_callback progress_cb then [Reported 0 total] else [])
              ++ rounds (has_callback progress_cb) 1 total done
              ++ (if stopped then [Polled true] else [])
       /\ map fst done = take (length done) targets
       /\ (if stopped then (length done < length targets)%nat
           else length done = length targets)
       /\ errors = failures tr
       /\ (outcomes tr, fs') = trim_all (map fst done) m c d fs)
  /\ (forall (inputs : list string) (fs : filesystem),
        length (collect_targets inputs fs) = 5%nat ->
        let '(errors, tr, fs', flag) :=
          process_targets c d m (Some Samples.flag_when_two_done) (Some Samples.read_flag)
            inputs fs false in
        trimmed tr = take 2 (collect_targets inputs fs)
        /\ polls tr = [false; false; true]
        /\ errors = failures tr
        /\ (outcomes tr, fs') = trim_all (take 2 (collect_targets inputs fs)) m c d fs).
Proof.
  split.
  - intros W progress_cb is_cancelled inputs fs w.
    unfold process_targets.
    set (targets := collect_targets inputs fs).
    set (total := Z.of_nat (length targets)).
    assert (Hev0 : fst (report progress_cb 0 total w)
                   = if has_callback progress_cb then [Reported 0 total] else [])
      by (unfold report; destruct progress_cb; reflexivity).
    destruct (report progress_cb 0 total w) as [ev0 w0]. simpl in Hev0. subst ev0.
    pose proof (process_loop_rounds c d m progress_cb is_cancelled targets 1 total [] fs w0)
      as Hrounds.
    pose proof (process_loop_trace c d m progress_cb (Some is_cancelled) targets 1 total
                  [] fs w0) as Htrace.
    destruct (process_loop c d m progress_cb (Some is_cancelled) targets 1 total [] fs w0)
      as [[[errors evs] fs'] w'].
    destruct Hrounds as (done & stopped & Hevs & Hpre & Hlen).
    destruct Htrace as (Herrs & Hall & _ & _).
    exists done, stopped. split; [rewrite Hevs; reflexivity|].
    split; [exact Hpre|]. split; [exact Hlen|].
    assert (Htr : trimmed evs = map fst done).
    { rewrite Hevs, trimmed_app, trimmed_rounds. destruct stopped; simpl; apply app_nil_r. }
    split.
    + rewrite failures_app. destruct (has_callback progress_cb); exact Herrs.
    + rewrite outcomes_app. rewrite <- Htr.
      destruct (has_callback progress_cb); exact Hall.
  - intros inputs fs Hfive.
    unfold process_targets.
    pose proof (process_loop_trace c d m (Some Samples.flag_when_two_done)
                  (Some Samples.read_flag) (collect_targets inputs fs) 1
                  (Z.of_nat (length (collect_targets inputs fs))) [] fs false) as Htrace.
    destruct (collect_targets inputs fs) as [|t1 [|t2 [|t3 [|t4 [|t5 [|t6 ts]]]]]];
      try discriminate Hfive.
    pose proof (flag_when_two_done_stops_after_two c d m t1 t2 t3 t4 t5 fs) as Hstop.
    change (Z.of_nat (length [t1; t2; t3; t4; t5])) with 5 in *.
    cbn [report].
    destruct (process_loop c d m (Some Samples.flag_when_two_done) (Some Samples.read_flag)
                [t1; t2; t3; t4; t5] 1 5 [] fs _) as [[[errors evs] fs'] flag].
    destruct Hstop as (Htr & Hpolls & _).
    destruct Htrace as (Herrs & Hall & _ & _).
    repeat split.
    + exact Htr.
    + exact Hpolls.
    + exact Herrs.
    + cbn [take]. rewrite <- Htr. exact Hall.
Qed.

Lemma cancellation_stops_the_batch_witness :
  let '(errors, tr, fs', flag) :=
    process_targets "white" "both" 0 (Some Samples.flag_when_two_done)
      (Some Samples.read_flag) ["d"] Samples.five_files false in
  trimmed tr = take 2 (collect_targets ["d"] Samples.five_files)
  /\ polls tr = [false; false; true]
  /\ errors = failures tr
  /\ (outcomes tr, fs')
     = trim_all (take 2 (collect_targets ["d"] Samples.five_files)) 0 "white" "both"
         Samples.five_files.
Proof.
  apply (proj2 (cancellation_stops_the_batch "white" "both" 0) ["d"] Samples.five_files).
  vm_compute. reflexivity.
Defined.

Example cancellation_two_files_run :
  let '(errors, tr, fs', flag) :=
    process_targets "white" "both" 0 (Some Samples.flag_when_two_done)
      (Some Samples.read_flag) ["d"] Samples.five_files false in
  errors = ["d/f2.png: cannot identify image file 'd/f2.png'"]
  /\ map (fun ev => match ev with
                    | Trimmed src _ => src
                    | Polled b => if b then "yes" else "no"
                    | Reported _ _ => "report"
                    end) tr
     = ["report"; "no"; "d/f1.png"; "report"; "no"; "d/f2.png"; "report"; "yes"].
Proof. vm_compute. split; reflexivity. Qed.

(** The flag of C9 read as raised after the second call of the progress
    callback: the first call is the one made before any file, so the
    second comes after one file, and the batch over five targets trims
    one file, not two. *)
Lemma cancel_after_second_call_trims_one_file :
  let '(errors, tr, fs', calls) :=
    process_targets "white" "both" 0 (Some Samples.count_calls)
      (Some Samples.after_two_calls) ["d"] Samples.five_files 0 in
  length (collect_targets ["d"] Samples.five_files) = 5%nat
  /\ tr = [Reported 0 5; Polled false; Trimmed "d/f1.png" (Ok tt); Reported 1 5; Polled true]
  /\ trimmed tr = ["d/f1.png"]
  /\ length (trimmed tr) <> 2%nat.
Proof. vm_compute. repeat split; try reflexivity. discriminate. Qed.

(** ** C4: the batch over an all-white image and an image with a square *)

(** An image that is all background keeps its whole extent: the scans find
    nothing, the boundaries stay at 0 and at the size, and the clamps
    leave them there. *)
Lemma detect_whitespace_all_background (img : Image) (c d : string) (thr : Z) :
  mode img = "RGB" ->
  1 <= width img -> 1 <= height img ->
  (forall x y, 0 <= x < width img -> 0 <= y < height img ->
     is_bg c thr (rgb_at img x y) = true) ->
  detect_whitespace img c d thr = Ok (0, width img, 0, height img).
Proof.
  intros Hmode Hw Hh Hbg. rewrite detect_whitespace_total by exact Hmode. unfold raw_box.
  assert (Hcol : forall x, 0 <= x < width img -> column_content img c thr x = false).
  { intros x Hx. apply not_true_false. intros Hc. apply column_content_true in Hc.
    destruct Hc as (y & Hy & Hc). apply content_true in Hc.
    rewrite Hbg in Hc by lia. discriminate. }
  assert (Hrow : forall y, 0 <= y < height img -> row_content img c thr y = false).
  { intros y Hy. apply not_true_false. intros Hc. apply row_content_true in Hc.
    destruct Hc as (x & Hx & Hc). apply content_true in Hc.
    rewrite Hbg in Hc by lia. discriminate. }
  rewrite !(find_none (column_content img c thr)), !(find_none (row_content img c thr));
    try (intros a Ha; first [apply In_range in Ha | apply In_range_down in Ha];
         first [apply Hcol | apply Hrow]; lia).
  destruct (str_in d ["horizontal"; "both"]), (str_in d ["vertical"; "both"]);
    unfold clamp_box; simpl; f_equal; repeat f_equal; lia.
Qed.

(** C4 (amended). The batch over the directory with the all-white 10x10
    [a.png] and the 10x10 [b.png] with a black 2x2 square at (4, 4), under
    "both", "white" and margin 0, returns no error and leaves exactly two
    files in [Remake]: for [b.png] the 2x2 black square, and for [a.png]
    the whole 10x10 image, unchanged.  The order of the two files in the
    directory does not matter. *)
Theorem batch_scenario :
  (let '(errors, tr, fs', _) :=
     process_targets (W := unit) "white" "both" 0 None None ["d"] Samples.album tt in
   errors = []
   /\ lookup_path "d/Remake" fs'
      = Some (inr [File "a.png" (ImageFile (Samples.all_white 10 10));
                   File "b.png" (ImageFile Samples.black_2x2)])
   /\ lookup_path "d/a.png" fs' = lookup_path "d/a.png" Samples.album
   /\ lookup_path "d/b.png" fs' = lookup_path "d/b.png" Samples.album)
  /\ (let '(errors, tr, fs', _) :=
        process_targets (W := unit) "white" "both" 0 None None ["d"] Samples.album_rev tt in
      errors = []
      /\ lookup_path "d/Remake" fs'
         = Some (inr [File "b.png" (ImageFile Samples.black_2x2);
                      File "a.png" (ImageFile (Samples.all_white 10 10))]))
  /\ crop (Samples.white_with_square 10 10 4 4 2) (4, 4, 6, 6) = Ok Samples.black_2x2.
Proof. vm_compute. repeat split; reflexivity. Qed.

(** The output for the all-white [a.png] is not a 1x1 image. *)
Lemma white_image_output_not_1x1 :
  let '(errors, tr, fs', _) :=
    process_targets (W := unit) "white" "both" 0 None None ["d"] Samples.album tt in
  ~ (exists out, image_at "d/Remake/a.png" fs' = Some out
                 /\ width out = 1 /\ height out = 1).
Proof.
  vm_compute. intros (out & Hout & Hw & Hh).
  injection Hout as <-. discriminate Hw.
Qed.

Example batch_skips_other_files :
  let '(errors, tr, fs', _) :=
    process_targets (W := unit) "white" "both" 0 (Some (fun _ _ u => u)) None
      ["d"; "d/notes.txt"; "d/nothing.png"] Samples.album_with_notes tt in
  errors = []
  /\ map (fun ev => match ev with
                    | Trimmed src _ => src
                    | Polled b => if b then "yes" else "no"
                    | Reported _ total => if total =? 3 then "report" else "?"
                    end) tr
     = ["report"; "d/a.png"; "report"; "d/b.png"; "report"; "d/more/c.JPG"; "report"]
  /\ walk "d" fs'
     = [("d", ["a.png"; "notes.txt"; "b.png"]);
        ("d/more", ["c.JPG"]);
        ("d/more/Remake", ["c.JPG"]);
        ("d/Remake", ["a.png"; "b.png"])].
Proof. vm_compute. repeat split; reflexivity. Qed.

(* ===================================================================== *)
(** * More of [processor.py] *)
(* ===================================================================== *)

(** ** The detected box holds the content, and touches it *)

Lemma find_seqZ_spec (g : Z -> bool) (k : nat) :
  forall m,
  match find g (seqZ m (Z.of_nat k)) with
  | Some x => m <= x < m + Z.of_nat k /\ g x = true
              /\ (forall a, m <= a < x -> g a = false)
  | None => forall a, m <= a < m + Z.of_nat k -> g a = false
  end.
Proof.
  induction k as [|k IH]; intros m.
  - simpl. intros a Ha. lia.
  - rewrite seqZ_cons by lia.
    replace (Z.pred (Z.of_nat (S k))) with (Z.of_nat k) by lia.
    simpl. destruct (g m) eqn:Hm.
    + repeat split; [lia | lia | exact Hm | intros a Ha; lia].
    + specialize (IH (Z.succ m)).
      destruct (find g (seqZ (Z.succ m) (Z.of_nat k))) as [x|].
      * destruct IH as (Hx & Hg & Hbefore). repeat split; [lia | lia | exact Hg |].
        intros a Ha. destruct (Z.eq_dec a m) as [->|Hne]; [exact Hm | apply Hbefore; lia].
      * intros a Ha. destruct (Z.eq_dec a m) as [->|Hne]; [exact Hm | apply IH; lia].
Qed.

(** What an upward scan returns: the least accepted index. *)
Lemma find_range_spec (g : Z -> bool) (n : Z) :
  match find g (range n) with
  | Some x => 0 <= x < n /\ g x = true /\ (forall a, 0 <= a < x -> g a = false)
  | None => forall a, 0 <= a < n -> g a = false
  end.
Proof.
  unfold range. destruct (Z.le_gt_cases 0 n) as [Hn|Hn].
  - pose proof (find_seqZ_spec g (Z.to_nat n) 0) as H.
    rewrite Z2Nat.id in H by exact Hn.
    destruct (find g (seqZ 0 n)) as [x|]; [|exact H].
    destruct H as (Hx & Hg & Hb). repeat split; [lia | lia | exact Hg | exact Hb].
  - rewrite (seqZ_nil 0 n) by lia. simpl. intros a Ha. lia.
Qed.

Lemma find_fmap (g : Z -> bool) (f : Z -> Z) (l : list Z) :
  find g (f <$> l) = f <$> find (fun k => g (f k)) l.
Proof.
  induction l as [|a l IH]; [reflexivity|].
  rewrite fmap_cons. simpl. destruct (g (f a)); [reflexivity | exact IH].
Qed.

(** What a downward scan returns: the greatest accepted index. *)
Lemma find_range_down_spec (g : Z -> bool) (n : Z) :
  match find g (range_down (n - 1) (-1)) with
  | Some x => 0 <= x < n /\ g x = true /\ (forall a, x < a < n -> g a = false)
  | None => forall a, 0 <= a < n -> g a = false
  end.
Proof.
  unfold range_down. rewrite find_fmap.
  replace (n - 1 - -1) with n by lia.
  pose proof (find_range_spec (fun k => g (n - 1 - k)) n) as H. unfold range in H.
  destruct (find (fun k => g (n - 1 - k)) (seqZ 0 n)) as [k|]; simpl.
  - destruct H as (Hk & Hg & Hb). repeat split; [lia | lia | exact Hg |].
    intros a Ha. replace a with (n - 1 - (n - 1 - a)) by lia. apply Hb. lia.
  - intros a Ha. replace a with (n - 1 - (n - 1 - a)) by lia. apply H. lia.
Qed.

(** The columns of the box under a horizontal scan: every column with
    content lies in it, and when there is one its first and last columns
    have content. *)
Lemma scanned_columns (img : Image) (c : string) (thr : Z) :
  let w := width img in
  let l := Z.max 0 (Z.min (default 0 (find (column_content img c thr) (range w))) (w - 1)) in
  let r := Z.max (l + 1)
             (Z.min (default w ((fun x => x + 1)
                       <$> find (column_content img c thr) (range_down (w - 1) (-1)))) w) in
  (forall x, 0 <= x < w -> column_content img c thr x = true -> l <= x < r)
  /\ ((exists x, 0 <= x < w /\ column_content img c thr x = true) ->
      column_content img c thr l = true /\ column_content img c thr (r - 1) = true).
Proof.
  intros w l r.
  pose proof (find_range_spec (column_content img c thr) w) as Hup.
  pose proof (find_range_down_spec (column_content img c thr) w) as Hdown.
  subst l r.
  destruct (find (column_content img c thr) (range w)) as [xl|];
    destruct (find (column_content img c thr) (range_down (w - 1) (-1))) as [xr|]; simpl.
  - destruct Hup as (Hxl & Hgl & Hbefore). destruct Hdown as (Hxr & Hgr & Hafter).
    assert (Hle : xl <= xr).
    { destruct (Z.le_gt_cases xl xr) as [H|H]; [exact H|].
      rewrite Hafter in Hgl by lia. discriminate. }
    split.
    + intros x Hx Hc.
      assert (Hlo : xl <= x).
      { destruct (Z.le_gt_cases xl x) as [H|H]; [exact H|].
        rewrite Hbefore in Hc by lia. discriminate. }
      assert (Hhi : x <= xr).
      { destruct (Z.le_gt_cases x xr) as [H|H]; [exact H|].
        rewrite Hafter in Hc by lia. discriminate. }
      lia.
    + intros _.
      replace (Z.max 0 (Z.min xl (w - 1))) with xl by lia.
      replace (Z.max (xl + 1) (Z.min (xr + 1) w) - 1) with xr by lia.
      split; assumption.
  - destruct Hup as (Hxl & Hgl & _). rewrite Hdown in Hgl by lia. discriminate.
  - destruct Hdown as (Hxr & Hgr & _). rewrite Hup in Hgr by lia. discriminate.
  - split.
    + intros x Hx Hc. rewrite Hup in Hc by lia. discriminate.
    + intros (x & Hx & Hc). rewrite Hup in Hc by lia. discriminate.
Qed.

Lemma scanned_rows (img : Image) (c : string) (thr : Z) :
  let h := height img in
  let t := Z.max 0 (Z.min (default 0 (find (row_content img c thr) (range h))) (h - 1)) in
  let b := Z.max (t + 1)
             (Z.min (default h ((fun y => y + 1)
                       <$> find (row_content img c thr) (range_down (h - 1) (-1)))) h) in
  (forall y, 0 <= y < h -> row_content img c thr y = true -> t <= y < b)
  /\ ((exists y, 0 <= y < h /\ row_content img c thr y = true) ->
      row_content img c thr t = true /\ row_content img c thr (b - 1) = true).
Proof.
  intros h t b.
  pose proof (find_range_spec (row_content img c thr) h) as Hup.
  pose proof (find_range_down_spec (row_content img c thr) h) as Hdown.
  subst t b.
  destruct (find (row_content img c thr) (range h)) as [yt|];
    destruct (find (row_content img c thr) (range_down (h - 1) (-1))) as [yb|]; simpl.
  - destruct Hup as (Hyt & Hgt & Hbefore). destruct Hdown as (Hyb & Hgb & Hafter).
    assert (Hle : yt <= yb).
    { destruct (Z.le_gt_cases yt yb) as [H|H]; [exact H|].
      rewrite Hafter in Hgt by lia. discriminate. }
    split.
    + intros y Hy Hc.
      assert (Hlo : yt <= y).
      { destruct (Z.le_gt_cases yt y) as [H|H]; [exact H|].
        rewrite Hbefore in Hc by lia. discriminate. }
      assert (Hhi : y <= yb).
      { destruct (Z.le_gt_cases y yb) as [H|H]; [exact H|].
        rewrite Hafter in Hc by lia. discriminate. }
      lia.
    + intros _.
      replace (Z.max 0 (Z.min yt (h - 1))) with yt by lia.
      replace (Z.max (yt + 1) (Z.min (yb + 1) h) - 1) with yb by lia.
      split; assumption.
  - destruct Hup as (Hyt & Hgt & _). rewrite Hdown in Hgt by lia. discriminate.
  - destruct Hdown as (Hyb & Hgb & _). rewrite Hup in Hgb by lia. discriminate.
  - split.
    + intros y Hy Hc. rewrite Hup in Hc by lia. discriminate.
    + intros (y & Hy & Hc). rewrite Hup in Hc by lia. discriminate.
Qed.

(** The clamped box of the scans, axis by axis. *)
Lemma detect_whitespace_axes (img : Image) (c d : string) (thr : Z) :
  let w := width img in
  let h := height img in
  let lr :=
    if str_in d ["horizontal"; "both"]
    then let l := Z.max 0 (Z.min (default 0 (find (column_content img c thr) (range w)))
                             (w - 1)) in
         (l, Z.max (l + 1)
               (Z.min (default w ((fun x => x + 1)
                         <$> find (column_content img c thr) (range_down (w - 1) (-1)))) w))
    else (Z.max 0 (Z.min 0 (w - 1)), Z.max (Z.max 0 (Z.min 0 (w - 1)) + 1) (Z.min w w)) in
  let tb :=
    if str_in d ["vertical"; "both"]
    then let t := Z.max 0 (Z.min (default 0 (find (row_content img c thr) (range h)))
                             (h - 1)) in
         (t, Z.max (t + 1)
               (Z.min (default h ((fun y => y + 1)
                         <$> find (row_content img c thr) (range_down (h - 1) (-1)))) h))
    else (Z.max 0 (Z.min 0 (h - 1)), Z.max (Z.max 0 (Z.min 0 (h - 1)) + 1) (Z.min h h)) in
  clamp_box w h (raw_box img c d thr) = (fst lr, snd lr, fst tb, snd tb).
Proof.
  unfold raw_box, clamp_box.
  destruct (str_in d ["horizontal"; "both"]), (str_in d ["vertical"; "both"]); reflexivity.
Qed.

Lemma scans_columns_iff (d : string) :
  str_in d ["horizontal"; "both"] = true <-> d = "horizontal" \/ d = "both".
Proof.
  rewrite !str_in_cons. unfold str_in. simpl.
  destruct (String.eqb_spec d "horizontal"), (String.eqb_spec d "both"); simpl;
    split; intros H; try tauto; try discriminate; destruct H; contradiction.
Qed.

Lemma scans_rows_iff (d : string) :
  str_in d ["vertical"; "both"] = true <-> d = "vertical" \/ d = "both".
Proof.
  rewrite !str_in_cons. unfold str_in. simpl.
  destruct (String.eqb_spec d "vertical"), (String.eqb_spec d "both"); simpl;
    split; intros H; try tauto; try discriminate; destruct H; contradiction.
Qed.

Lemma unscanned_clamp (n : Z) :
  1 <= n ->
  Z.max 0 (Z.min 0 (n - 1)) = 0
  /\ Z.max (Z.max 0 (Z.min 0 (n - 1)) + 1) (Z.min n n) = n.
Proof.
  intros Hn. rewrite Z.min_id. rewrite (Z.min_l 0 (n - 1)) by lia.
  rewrite Z.max_id. split; [reflexivity|]. apply Z.max_r. lia.
Qed.

(** X1. [detect_whitespace] never leaves content out: a pixel of an RGB
    image that is not background lies inside the box it returns, under
    every direction. *)
Theorem detect_whitespace_keeps_content (img : Image) (c d : string) (thr x y : Z) :
  mode img = "RGB" ->
  0 <= x < width img -> 0 <= y < height img ->
  is_bg c thr (rgb_at img x y) = false ->
  exists l r t b,
    detect_whitespace img c d thr = Ok (l, r, t, b)
    /\ l <= x < r /\ t <= y < b.
Proof.
  intros Hmode Hx Hy Hpx.
  assert (Hc : content img c thr x y = true) by (apply content_true; exact Hpx).
  assert (Hcol : column_content img c thr x = true)
    by (apply column_content_true; exists y; split; assumption).
  assert (Hrow : row_content img c thr y = true)
    by (apply row_content_true; exists x; split; assumption).
  rewrite detect_whitespace_total by exact Hmode. rewrite detect_whitespace_axes.
  pose proof (scanned_columns img c thr) as [Hcols _].
  pose proof (scanned_rows img c thr) as [Hrows _].
  specialize (Hcols x Hx Hcol). specialize (Hrows y Hy Hrow).
  destruct (unscanned_clamp (width img)) as [Hl0 Hr0]; [lia|].
  destruct (unscanned_clamp (height img)) as [Ht0 Hb0]; [lia|].
  cbv zeta in Hcols, Hrows. cbv zeta.
  eexists _, _, _, _. split; [apply eq_refl|]. split.
  - destruct (str_in d ["horizontal"; "both"]); cbn [fst snd];
      [exact Hcols | rewrite Hr0, Hl0; exact Hx].
  - destruct (str_in d ["vertical"; "both"]); cbn [fst snd];
      [exact Hrows | rewrite Hb0, Ht0; exact Hy].
Qed.

Lemma detect_whitespace_keeps_content_witness :
  exists l r t b,
    detect_whitespace (Samples.white_with_square 10 8 3 4 2) "white" "vertical" 70
    = Ok (l, r, t, b)
    /\ l <= 4 < r /\ t <= 5 < b.
Proof.
  apply (detect_whitespace_keeps_content
           (Samples.white_with_square 10 8 3 4 2) "white" "vertical" 70 4 5).
  - reflexivity.
  - simpl. lia.
  - simpl. lia.
  - vm_compute. reflexivity.
Defined.

(** X2. On an axis it scans, [detect_whitespace] trims all it can: when
    the image has a pixel that is not background, the first and the last
    column of the box (under "horizontal" and "both"), and its first and
    last row (under "vertical" and "both"), each hold such a pixel. *)
Theorem detect_whitespace_touches_content (img : Image) (c d : string)
    (thr l r t b : Z) :
  detect_whitespace img c d thr = Ok (l, r, t, b) ->
  (exists x y, 0 <= x < width img /\ 0 <= y < height img
               /\ is_bg c thr (rgb_at img x y) = false) ->
  (d = "horizontal" \/ d = "both" ->
     (exists y, 0 <= y < height img /\ is_bg c thr (rgb_at img l y) = false)
     /\ (exists y, 0 <= y < height img /\ is_bg c thr (rgb_at img (r - 1) y) = false))
  /\ (d = "vertical" \/ d = "both" ->
     (exists x, 0 <= x < width img /\ is_bg c thr (rgb_at img x t) = false)
     /\ (exists x, 0 <= x < width img /\ is_bg c thr (rgb_at img x (b - 1)) = false)).
Proof.
  intros Hbox (x & y & Hx & Hy & Hpx).
  assert (Hc : content img c thr x y = true) by (apply content_true; exact Hpx).
  assert (Hcol : exists x, 0 <= x < width img /\ column_content img c thr x = true).
  { exists x. split; [exact Hx|]. apply column_content_true. exists y. split; assumption. }
  assert (Hrow : exists y, 0 <= y < height img /\ row_content img c thr y = true).
  { exists y. split; [exact Hy|]. apply row_content_true. exists x. split; assumption. }
  apply detect_whitespace_Ok_box in Hbox. rewrite detect_whitespace_axes in Hbox.
  symmetry in Hbox.
  pose proof (scanned_columns img c thr) as [_ Hcols].
  pose proof (scanned_rows img c thr) as [_ Hrows].
  specialize (Hcols Hcol). specialize (Hrows Hrow).
  cbv zeta in Hcols, Hrows, Hbox.
  split.
  - intros Hd. apply scans_columns_iff in Hd. rewrite Hd in Hbox.
    cbn [fst snd] in Hbox.
    injection Hbox as <- <- _ _. destruct Hcols as [Hl Hr].
    apply column_content_true in Hl. apply column_content_true in Hr.
    destruct Hl as (y1 & Hy1 & Hc1). destruct Hr as (y2 & Hy2 & Hc2).
    split; [exists y1 | exists y2]; (split; [assumption | apply content_true; assumption]).
  - intros Hd. apply scans_rows_iff in Hd. rewrite Hd in Hbox.
    cbn [fst snd] in Hbox.
    injection Hbox as _ _ <- <-. destruct Hrows as [Ht Hb].
    apply row_content_true in Ht. apply row_content_true in Hb.
    destruct Ht as (x1 & Hx1 & Hc1). destruct Hb as (x2 & Hx2 & Hc2).
    split; [exists x1 | exists x2]; (split; [assumption | apply content_true; assumption]).
Qed.

Lemma detect_whitespace_touches_content_witness :
  let img := Samples.white_with_square 10 8 3 4 2 in
  (("both" = "horizontal" \/ "both" = "both")%type ->
     (exists y, 0 <= y < height img /\ is_bg "white" 70 (rgb_at img 3 y) = false)
     /\ (exists y, 0 <= y < height img /\ is_bg "white" 70 (rgb_at img (5 - 1) y) = false))
  /\ (("both" = "vertical" \/ "both" = "both")%type ->
     (exists x, 0 <= x < width img /\ is_bg "white" 70 (rgb_at img x 4) = false)
     /\ (exists x, 0 <= x < width img /\ is_bg "white" 70 (rgb_at img x (6 - 1)) = false)).
Proof.
  apply (detect_whitespace_touches_content
           (Samples.white_with_square 10 8 3 4 2) "white" "both" 70 3 5 4 6).
  - vm_compute. reflexivity.
  - exists 3, 4. simpl. split; [lia|]. split; [lia|]. vm_compute. reflexivity.
Defined.

(** X3. An axis the direction does not name is left whole: the columns
    under any direction but "horizontal" and "both", the rows under any
    but "vertical" and "both"; a direction that is none of the three
    strings trims nothing and raises nothing. *)
Theorem detect_whitespace_unscanned_axis (img : Image) (c d : string) (thr l r t b : Z) :
  1 <= width img -> 1 <= height img ->
  detect_whitespace img c d thr = Ok (l, r, t, b) ->
  (d <> "horizontal" -> d <> "both" -> l = 0 /\ r = width img)
  /\ (d <> "vertical" -> d <> "both" -> t = 0 /\ b = height img).
Proof.
  intros Hw Hh Hbox. apply detect_whitespace_Ok_box in Hbox.
  rewrite detect_whitespace_axes in Hbox. symmetry in Hbox. cbv zeta in Hbox. split.
  - intros H1 H2.
    assert (Hd : str_in d ["horizontal"; "both"] = false).
    { apply not_true_false. intros Hd. apply scans_columns_iff in Hd. tauto. }
    rewrite Hd in Hbox. cbn [fst snd] in Hbox. injection Hbox as <- <- _ _.
    apply unscanned_clamp. exact Hw.
  - intros H1 H2.
    assert (Hd : str_in d ["vertical"; "both"] = false).
    { apply not_true_false. intros Hd. apply scans_rows_iff in Hd. tauto. }
    rewrite Hd in Hbox. cbn [fst snd] in Hbox. injection Hbox as _ _ <- <-.
    apply unscanned_clamp. exact Hh.
Qed.

Lemma detect_whitespace_unscanned_axis_witness :
  let img := Samples.white_with_square 10 8 3 4 2 in
  ("Both" <> "horizontal" -> "Both" <> "both" -> 0 = 0 /\ 10 = width img)
  /\ ("Both" <> "vertical" -> "Both" <> "both" -> 0 = 0 /\ 8 = height img).
Proof.
  apply (detect_whitespace_unscanned_axis
           (Samples.white_with_square 10 8 3 4 2) "white" "Both" 70 0 10 0 8).
  - simpl. lia.
  - simpl. lia.
  - vm_compute. reflexivity.
Defined.

(** ** The detection view of an image with alpha *)






(** A pixel that is half transparent is mixed with the backdrop. *)
Example detection_view_of_a_half_transparent_pixel :
  let img := mkImage "RGBA" false 1 1 [[(0, 0, 0, 128)]] in
  rgb_at (Samples.view_of img "white") 0 0 = (127, 127, 127)
  /\ detect_whitespace (Samples.view_of img "white") "white" "both" 70 = Ok (0, 1, 0, 1)
  /\ rgb_at (Samples.view_of img "black") 0 0 = (0, 0, 0).
Proof. vm_compute. repeat split; reflexivity. Qed.

(** ** What [trim_whitespace] turns out, pixel by pixel *)

Lemma trim_image_no_margin_steps (orig : Image) (m : Z) (c d : string) :
  wf_image orig = true -> convertible orig = true -> m <= 0 ->
  exists det l r t b cropped,
    _rgb_for_detection orig c = Ok det
    /\ detect_whitespace det c d 70 = Ok (l, r, t, b)
    /\ 0 <= l < r /\ 0 <= t < b
    /\ (1 <= width orig -> r <= width orig) /\ (1 <= height orig -> b <= height orig)
    /\ crop orig (l, t, r, b) = Ok cropped
    /\ trim_image orig m c d = Ok cropped.
Proof.
  intros Hwf Hc Hm.
  destruct (rgb_for_detection_ok orig c Hwf Hc) as (det & Hdet & Hdm & Hdw & Hdh).
  destruct (detect_whitespace_nonempty det c d 70 Hdm)
    as (l & r & t & b & Hbox & Hlr & Htb & Hrw & Hbh).
  rewrite Hdw in Hrw. rewrite Hdh in Hbh.
  destruct (crop_inside orig l t r b) as (cropped & Hcrop & _); [lia | lia |].
  exists det, l, r, t, b, cropped.
  repeat (split; [first [assumption | lia] |]).
  unfold trim_image. rewrite Hdet. result_step. rewrite Hbox. result_step.
  rewrite Hcrop. result_step.
  destruct (Z.gtb_spec m 0); [lia | reflexivity].
Qed.

(** X5. With a margin percent of 0 or less, [trim_whitespace] turns out
    the pixels of the original under the detected box, in the mode of the
    original and with its transparency entry: no canvas is made, and a
    negative percent is taken for 0. *)
Theorem trim_without_margin (orig : Image) (m : Z) (c d : string) :
  wf_image orig = true -> convertible orig = true ->
  1 <= width orig -> 1 <= height orig -> m <= 0 ->
  exists det l r t b final,
    _rgb_for_detection orig c = Ok det
    /\ detect_whitespace det c d 70 = Ok (l, r, t, b)
    /\ trim_image orig m c d = Ok final
    /\ mode final = mode orig
    /\ info_transparency final = info_transparency orig
    /\ width final = r - l /\ height final = b - t
    /\ (forall x y, 0 <= x < r - l -> 0 <= y < b - t ->
          pixel_at final x y = pixel_at orig (x + l) (y + t)).
Proof.
  intros Hwf Hc Hw Hh Hm.
  destruct (trim_image_no_margin_steps orig m c d Hwf Hc Hm)
    as (det & l & r & t & b & cropped & Hdet & Hbox & Hlr & Htb & Hrw & Hbh & Hcrop & Htrim).
  destruct (crop_inside orig l t r b) as (cropped' & Hcrop' & Hcm & Hci & Hcw & Hch & _ & Hpx);
    [lia | lia |].
  rewrite Hcrop in Hcrop'. injection Hcrop' as <-.
  exists det, l, r, t, b, cropped.
  repeat (split; [assumption|]).
  intros x y Hx Hy. apply Hpx; [exact Hx | exact Hy |].
  apply in_image_true. specialize (Hrw Hw). specialize (Hbh Hh). lia.
Qed.

Lemma trim_without_margin_witness :
  let orig := Samples.red_with_hole 4 3 1 1 in
  exists det l r t b final,
    _rgb_for_detection orig "white" = Ok det
    /\ detect_whitespace det "white" "both" 70 = Ok (l, r, t, b)
    /\ trim_image orig (-5) "white" "both" = Ok final
    /\ mode final = mode orig
    /\ info_transparency final = info_transparency orig
    /\ width final = r - l /\ height final = b - t
    /\ (forall x y, 0 <= x < r - l -> 0 <= y < b - t ->
          pixel_at final x y = pixel_at orig (x + l) (y + t)).
Proof.
  apply (trim_without_margin (Samples.red_with_hole 4 3 1 1) (-5) "white" "both").
  - vm_compute. reflexivity.
  - vm_compute. reflexivity.
  - simpl. lia.
  - simpl. lia.
  - lia.
Defined.



(** Under "black" the margin is white all the same; and a pixel of an
    RGBA image that is half transparent comes out darker and more
    transparent when a margin is added, since it is mixed with the
    transparent canvas band by band. *)
Example margin_examples :
  (fun r => match r with
            | Ok img => Some (mode img, width img, height img, pixel_at img 0 0)
            | Raise _ => None
            end)
    (trim_image (mkImage "RGB" false 3 1 [[(0, 0, 0, 255); (200, 0, 0, 255); (0, 0, 0, 255)]])
       50 "black" "both")
  = Some ("RGB", 3, 1, (255, 255, 255, 255))
  /\ (fun r => match r with
               | Ok img => Some (mode img, width img, pixel_at img 0 0, pixel_at img 1 0)
               | Raise _ => None
               end)
       (trim_image (mkImage "RGBA" false 2 1 [[(255, 0, 0, 128); (255, 0, 0, 128)]])
          50 "white" "both")
     = Some ("RGBA", 4, (0, 0, 0, 0), (128, 0, 0, 64)).
Proof. vm_compute. split; reflexivity. Qed.

(** ** The targets of a batch *)

Lemma lower_app (a b : string) : lower (a +:+ b) = lower a +:+ lower b.
Proof. induction a as [|ch a IH]; simpl; [reflexivity | rewrite IH; reflexivity]. Qed.

Lemma str_length_app (a b : string) :
  String.length (a +:+ b) = (String.length a + String.length b)%nat.
Proof. induction a as [|ch a IH]; simpl; [reflexivity | rewrite IH; reflexivity]. Qed.

Lemma drop_str_app (a b : string) : drop_str (String.length a) (a +:+ b) = b.
Proof. induction a as [|ch a IH]; simpl; [destruct b; reflexivity | exact IH]. Qed.

Lemma take_drop_str (n : nat) (s : string) : take_str n s +:+ drop_str n s = s.
Proof.
  revert s. induction n as [|n IH]; intros s; [reflexivity|].
  destruct s as [|ch s]; [reflexivity|].
  change (String ch (take_str n s +:+ drop_str n s) = String ch s).
  f_equal. apply IH.
Qed.

Lemma str_app_assoc (a b c : string) : (a +:+ b) +:+ c = a +:+ (b +:+ c).
Proof.
  induction a as [|ch a IH]; [reflexivity|].
  change (String ch ((a +:+ b) +:+ c) = String ch (a +:+ (b +:+ c))).
  f_equal. exact IH.
Qed.

(** [endswith] is what its name says. *)
Lemma endswith_spec (s suffix : string) :
  endswith s suffix = true <-> exists stem, s = stem +:+ suffix.
Proof.
  unfold endswith. rewrite andb_true_iff, Nat.leb_le, String.eqb_eq. split.
  - intros [Hlen Hdrop].
    exists (take_str (String.length s - String.length suffix) s).
    transitivity (take_str (String.length s - String.length suffix) s
                    +:+ drop_str (String.length s - String.length suffix) s).
    + symmetry. apply take_drop_str.
    + rewrite Hdrop. reflexivity.
  - intros (stem & ->). rewrite str_length_app. split; [lia|].
    replace (String.length stem + String.length suffix - String.length suffix)%nat
      with (String.length stem) by lia.
    apply drop_str_app.
Qed.

Lemma endswith_any_spec (s : string) (suffixes : list string) :
  endswith_any s suffixes = true
  <-> exists ext stem, In ext suffixes /\ s = stem +:+ ext.
Proof.
  unfold endswith_any. rewrite existsb_exists. split.
  - intros (ext & Hin & He). apply endswith_spec in He. destruct He as (stem & ->).
    exists ext, stem. split; [exact Hin | reflexivity].
  - intros (ext & stem & Hin & ->). exists ext. split; [exact Hin|].
    apply endswith_spec. exists stem. reflexivity.
Qed.

(** A joined path ends with its last part. *)
Lemma join2_ends (path b : string) : exists pre, join2 path b = pre +:+ b.
Proof.
  unfold join2. destruct (startswith b "/").
  - exists "". reflexivity.
  - destruct (String.eqb path "" || endswith path "/").
    + exists path. reflexivity.
    + exists (path +:+ "/"). rewrite str_app_assoc. reflexivity.
Qed.

Lemma supported_after_join (root f : string) :
  endswith_any (lower f) SUPPORTED_EXTS = true ->
  endswith_any (lower (join root [f])) SUPPORTED_EXTS = true.
Proof.
  intros H. apply endswith_any_spec in H. destruct H as (ext & stem & Hin & Hf).
  apply endswith_any_spec. exists ext.
  unfold join. cbn [fold_left]. destruct (join2_ends root f) as (pre & ->).
  exists (lower pre +:+ stem). split; [exact Hin|].
  rewrite lower_app, Hf, str_app_assoc. reflexivity.
Qed.

Lemma collect_dir_supported (d : string) (fs : filesystem) (t : string) :
  In t (collect_dir d fs) -> endswith_any (lower t) SUPPORTED_EXTS = true.
Proof.
  unfold collect_dir. rewrite in_flat_map. intros ([root files] & _ & Hin).
  rewrite in_flat_map in Hin. destruct Hin as (f & _ & Hin).
  destruct (endswith_any (lower f) SUPPORTED_EXTS) eqn:Hf; [|destruct Hin].
  destruct Hin as [<-|[]]. apply supported_after_join. exact Hf.
Qed.

(** X7. Every target of a batch, whether found in a directory or given
    as a file, has a name that ends, whatever its case, with one of the
    seven supported extensions: [process_targets] trims no other file,
    and counts no other in [total]. *)
Theorem targets_have_supported_extensions (inputs : list string) (fs : filesystem)
    (t : string) :
  In t (collect_targets inputs fs) ->
  exists ext stem, In ext SUPPORTED_EXTS /\ lower t = stem +:+ ext.
Proof.
  intros Hin. apply endswith_any_spec.
  unfold collect_targets in Hin. rewrite in_flat_map in Hin.
  destruct Hin as (p & _ & Hin).
  destruct (isdir p fs).
  - apply (collect_dir_supported p fs). exact Hin.
  - destruct (isfile p fs && endswith_any (lower p) SUPPORTED_EXTS) eqn:Hp; [|destruct Hin].
    destruct Hin as [<-|[]]. apply andb_true_iff in Hp. apply Hp.
Qed.

Lemma targets_have_supported_extensions_witness :
  exists ext stem, In ext SUPPORTED_EXTS /\ lower "d/more/c.JPG" = stem +:+ ext.
Proof.
  apply (targets_have_supported_extensions ["d"; "d/notes.txt"] Samples.album_with_notes
           "d/more/c.JPG").
  vm_compute. right. right. left. reflexivity.
Defined.

(** ** Progress *)

Lemma reported_app (t1 t2 : list event) : reported (t1 ++ t2) = reported t1 ++ reported t2.
Proof. apply flat_map_app. Qed.

Lemma process_loop_reports {W : Type} (c d : string) (m : Z) (cb : Z -> Z -> W -> W)
    (is_cancelled : option (W -> bool * W)) (targets : list string) :
  forall (i total : Z) (errs : list string) (fs : filesystem) (w : W),
  let '(errs', tr, fs', w') :=
    process_loop c d m (Some cb) is_cancelled targets i total errs fs w in
  reported tr = (fun k => (k, total)) <$> seqZ i (Z.of_nat (length (trimmed tr))).
Proof.
  induction targets as [|src rest IH]; intros i total errs fs w.
  - reflexivity.
  - cbn [process_loop]. unfold poll.
    destruct is_cancelled as [p|].
    + destruct (p w) as [[|] w1]; [reflexivity|].
      destruct (trim_whitespace src (join (dirname src) ["Remake"; basename src]) m c d fs)
        as [outcome fs1].
      cbn [report].
      specialize (IH (i + 1) total
                     (match outcome with
                      | Ok _ => errs
                      | Raise e => errs ++ [src +:+ ": " +:+ str_exn e]
                      end) fs1 (cb i total w1)).
      destruct (process_loop c d m (Some cb) (Some p) rest (i + 1) total _ fs1 _)
        as [[[errs' evs] fs'] w'].
      cbn [app reported trimmed flat_map length]. fold (reported evs). fold (trimmed evs).
      rewrite IH. rewrite Nat2Z.inj_succ. rewrite (seqZ_cons i) by lia.
      rewrite fmap_cons. f_equal. f_equal. f_equal; lia.
    + destruct (trim_whitespace src (join (dirname src) ["Remake"; basename src]) m c d fs)
        as [outcome fs1].
      cbn [report].
      specialize (IH (i + 1) total
                     (match outcome with
                      | Ok _ => errs
                      | Raise e => errs ++ [src +:+ ": " +:+ str_exn e]
                      end) fs1 (cb i total w)).
      destruct (process_loop c d m (Some cb) None rest (i + 1) total _ fs1 _)
        as [[[errs' evs] fs'] w'].
      cbn [app reported trimmed flat_map length]. fold (reported evs). fold (trimmed evs).
      rewrite IH. rewrite Nat2Z.inj_succ. rewrite (seqZ_cons i) by lia.
      rewrite fmap_cons. f_equal. f_equal. f_equal; lia.
Qed.

(** With a progress callback, each trim is followed at once by the call
    that counts it, and nothing else is called but the predicate. *)
Lemma process_loop_calls {W : Type} (c d : string) (m : Z) (cb : Z -> Z -> W -> W)
    (is_cancelled : option (W -> bool * W)) (targets : list string) :
  forall (i total : Z) (errs : list string) (fs : filesystem) (w : W),
  let '(errs', tr, fs', w') :=
    process_loop c d m (Some cb) is_cancelled targets i total errs fs w in
  calls tr = trim_then_report i total (combine (trimmed tr) (outcomes tr)).
Proof.
  induction targets as [|src rest IH]; intros i total errs fs w.
  - reflexivity.
  - cbn [process_loop]. unfold poll.
    destruct is_cancelled as [p|].
    + destruct (p w) as [[|] w1]; [reflexivity|].
      destruct (trim_whitespace src (join (dirname src) ["Remake"; basename src]) m c d fs)
        as [outcome fs1].
      cbn [report].
      specialize (IH (i + 1) total
                     (match outcome with
                      | Ok _ => errs
                      | Raise e => errs ++ [src +:+ ": " +:+ str_exn e]
                      end) fs1 (cb i total w1)).
      destruct (process_loop c d m (Some cb) (Some p) rest (i + 1) total _ fs1 _)
        as [[[errs' evs] fs'] w'].
      cbn [app calls trimmed outcomes flat_map combine trim_then_report].
      fold (calls evs). fold (trimmed evs). fold (outcomes evs).
      rewrite IH. reflexivity.
    + destruct (trim_whitespace src (join (dirname src) ["Remake"; basename src]) m c d fs)
        as [outcome fs1].
      cbn [report].
      specialize (IH (i + 1) total
                     (match outcome with
                      | Ok _ => errs
                      | Raise e => errs ++ [src +:+ ": " +:+ str_exn e]
                      end) fs1 (cb i total w)).
      destruct (process_loop c d m (Some cb) None rest (i + 1) total _ fs1 _)
        as [[[errs' evs] fs'] w'].
      cbn [app calls trimmed outcomes flat_map combine trim_then_report].
      fold (calls evs). fold (trimmed evs). fold (outcomes evs).
      rewrite IH. reflexivity.
Qed.

(** Without a predicate there are no polls. *)
Lemma process_loop_calls_only {W : Type} (c d : string) (m : Z) (cb : Z -> Z -> W -> W)
    (targets : list string) :
  forall (i total : Z) (errs : list string) (fs : filesystem) (w : W),
  let '(errs', tr, fs', w') :=
    process_loop c d m (Some cb) None targets i total errs fs w in
  calls tr = tr.
Proof.
  induction targets as [|src rest IH]; intros i total errs fs w; [reflexivity|].
  cbn [process_loop poll report].
  destruct (trim_whitespace src (join (dirname src) ["Remake"; basename src]) m c d fs)
    as [outcome fs1].
  specialize (IH (i + 1) total
                 (match outcome with
                  | Ok _ => errs
                  | Raise e => errs ++ [src +:+ ": " +:+ str_exn e]
                  end) fs1 (cb i total w)).
  destruct (process_loop c d m (Some cb) None rest (i + 1) total _ fs1 _)
    as [[[errs' evs] fs'] w'].
  cbn [app calls flat_map]. fold (calls evs). rewrite IH. reflexivity.
Qed.

Lemma process_loop_without_predicate {W : Type} (c d : string) (m : Z)
    (progress_cb : option (Z -> Z -> W -> W)) (targets : list string) :
  forall (i total : Z) (errs : list string) (fs : filesystem) (w : W),
  let '(errs', tr, fs', w') :=
    process_loop c d m progress_cb None targets i total errs fs w in
  ~ In (Polled true) tr.
Proof.
  induction targets as [|src rest IH]; intros i total errs fs w; [intros []|].
  cbn [process_loop poll].
  destruct (trim_whitespace src (join (dirname src) ["Remake"; basename src]) m c d fs)
    as [outcome fs1].
  pose proof (report_events progress_cb i total w) as Hrep.
  destruct (report progress_cb i total w) as [ev_report w2].
  destruct Hrep as (_ & _ & _ & Hrno).
  specialize (IH (i + 1) total
                 (match outcome with
                  | Ok _ => errs
                  | Raise e => errs ++ [src +:+ ": " +:+ str_exn e]
                  end) fs1 w2).
  destruct (process_loop c d m progress_cb None rest (i + 1) total _ fs1 w2)
    as [[[errs' evs] fs'] w'].
  cbn [app]. intros [H|H]; [discriminate H|].
  apply in_app_or in H. destruct H as [H|H]; [exact (Hrno H) | exact (IH H)].
Qed.

(** X8. The progress callback of a batch is called with (0, total) before
    the first file and with (k, total) right after the trim of the k-th
    file, succeeded or failed, and before the next one, where total is
    the number of targets: leaving the polls of the predicate aside, the
    calls of the batch are that first report and then, for each file
    gone through, its trim followed by its report.  The counts go up by
    one from 0 to the number of files gone through, which is at most
    total, and is total when there is no cancellation predicate. *)
Theorem progress_counts_every_file {W : Type} (c d : string) (m : Z)
    (cb : Z -> Z -> W -> W) (is_cancelled : option (W -> bool * W))
    (inputs : list string) (fs : filesystem) (w : W) :
  let '(errors, tr, fs', w') :=
    process_targets c d m (Some cb) is_cancelled inputs fs w in
  let total := Z.of_nat (length (collect_targets inputs fs)) in
  let done := Z.of_nat (length (trimmed tr)) in
  reported tr = (fun k => (k, total)) <$> seqZ 0 (done + 1)
  /\ done <= total
  /\ (is_cancelled = None -> done = total)
  /\ calls tr
     = Reported 0 total :: trim_then_report 1 total (combine (trimmed tr) (outcomes tr))
  /\ (exists n, trimmed tr = take n (collect_targets inputs fs))
  /\ (is_cancelled = None ->
      tr = Reported 0 total
             :: trim_then_report 1 total (combine (collect_targets inputs fs) (outcomes tr))).
Proof.
  unfold process_targets. cbn [report].
  pose proof (process_loop_reports c d m cb is_cancelled (collect_targets inputs fs) 1
                (Z.of_nat (length (collect_targets inputs fs))) [] fs
                (cb 0 (Z.of_nat (length (collect_targets inputs fs))) w)) as Hrep.
  pose proof (process_loop_trace c d m (Some cb) is_cancelled (collect_targets inputs fs) 1
                (Z.of_nat (length (collect_targets inputs fs))) [] fs
                (cb 0 (Z.of_nat (length (collect_targets inputs fs))) w)) as Htrace.
  pose proof (process_loop_calls c d m cb is_cancelled (collect_targets inputs fs) 1
                (Z.of_nat (length (collect_targets inputs fs))) [] fs
                (cb 0 (Z.of_nat (length (collect_targets inputs fs))) w)) as Hcalls.
  assert (Hnever : is_cancelled = None ->
            (let '(_, tr, _, _) :=
               process_loop c d m (Some cb) is_cancelled (collect_targets inputs fs) 1
                 (Z.of_nat (length (collect_targets inputs fs))) [] fs
                 (cb 0 (Z.of_nat (length (collect_targets inputs fs))) w) in
             ~ In (Polled true) tr /\ calls tr = tr)).
  { intros ->.
    pose proof (process_loop_without_predicate c d m (Some cb) (collect_targets inputs fs) 1
                  (Z.of_nat (length (collect_targets inputs fs))) [] fs
                  (cb 0 (Z.of_nat (length (collect_targets inputs fs))) w)) as H.
    pose proof (process_loop_calls_only c d m cb (collect_targets inputs fs) 1
                  (Z.of_nat (length (collect_targets inputs fs))) [] fs
                  (cb 0 (Z.of_nat (length (collect_targets inputs fs))) w)) as H'.
    destruct (process_loop c d m (Some cb) None (collect_targets inputs fs) 1 _ [] fs _)
      as [[[? ?] ?] ?]. split; [exact H | exact H']. }
  destruct (process_loop c d m (Some cb) is_cancelled (collect_targets inputs fs) 1 _ [] fs _)
    as [[[errors evs] fs'] w'].
  destruct Htrace as (_ & _ & (n & Hn) & Hfull).
  cbn [app reported trimmed outcomes calls flat_map].
  fold (reported evs). fold (trimmed evs). fold (outcomes evs). fold (calls evs).
  split; [|split; [|split; [|split; [|split]]]].
  - rewrite Hrep. rewrite (seqZ_cons 0) by lia. rewrite fmap_cons.
    replace (Z.succ 0) with 1 by lia.
    replace (Z.pred (Z.of_nat (length (trimmed evs)) + 1))
      with (Z.of_nat (length (trimmed evs))) by lia.
    reflexivity.
  - rewrite Hn. rewrite length_take. lia.
  - intros Hnone. rewrite Hfull; [reflexivity|]. apply Hnever. exact Hnone.
  - rewrite Hcalls. reflexivity.
  - exists n. exact Hn.
  - intros Hnone. destruct (Hnever Hnone) as [Hno Honly].
    f_equal. transitivity (calls evs); [symmetry; exact Honly|].
    rewrite Hcalls. rewrite (Hfull Hno). reflexivity.
Qed.

Example progress_between_the_trims :
  let '(errors, tr, fs', _) :=
    process_targets (W := unit) "white" "both" 0 (Some (fun _ _ u => u)) None ["d"]
      Samples.album tt in
  tr = [Reported 0 2; Trimmed "d/a.png" (Ok tt); Reported 1 2;
        Trimmed "d/b.png" (Ok tt); Reported 2 2].
Proof. vm_compute. reflexivity. Qed.

(** ** The files [trim_whitespace] leaves alone *)

Lemma find_entry_put_entry_other (name : string) (n : node) (l : list node) :
  node_name n <> name -> find_entry name (put_entry n l) = find_entry name l.
Proof.
  intros Hne. induction l as [|m l IH]; simpl.
  - destruct (String.eqb_spec (node_name n) name); [contradiction | reflexivity].
  - destruct (String.eqb_spec (node_name m) (node_name n)) as [Heq|Hneq]; simpl.
    + destruct (String.eqb_spec (node_name n) name); [contradiction|].
      destruct (String.eqb_spec (node_name m) name) as [Hm|_]; [|reflexivity].
      rewrite Heq in Hm. contradiction.
    + destruct (String.eqb_spec (node_name m) name); [reflexivity | exact IH].
Qed.

Lemma resolve_cons (name : string) (rest : list string) (here : list node) :
  resolve (name :: rest) here
  = match find_entry name here with
    | Some (File _ d) => match rest with [] => Some (inl d) | _ => None end
    | Some (Dir _ ch) => resolve rest ch
    | None => None
    end.
Proof. reflexivity. Qed.

(** Making directories keeps every file. *)
Lemma makedirs_at_keeps_files (path : string) (q : list string) :
  forall (here here' : list node) (p : list string) (x : file_data),
  makedirs_at path q here = Ok here' ->
  resolve p here = Some (inl x) -> resolve p here' = Some (inl x).
Proof.
  induction q as [|name rest IH]; intros here here' p x Hmk Hres.
  - simpl in Hmk. injection Hmk as <-. exact Hres.
  - simpl in Hmk. destruct p as [|n0 p']; [discriminate Hres|].
    rewrite resolve_cons in Hres. rewrite resolve_cons.
    destruct (find_entry name here) as [[fn fd|dn ch]|] eqn:Hfind.
    + destruct rest; discriminate Hmk.
    + destruct (makedirs_at path rest ch) as [ch'|e] eqn:Hrec; [|discriminate Hmk].
      unfold mbind, result_bind in Hmk. injection Hmk as <-.
      destruct (String.eqb_spec n0 name) as [->|Hne].
      * rewrite (find_entry_put_entry name (Dir name ch')) by reflexivity.
        rewrite Hfind in Hres. apply (IH ch ch' p' x Hrec Hres).
      * rewrite find_entry_put_entry_other by (simpl; congruence). exact Hres.
    + destruct (makedirs_at path rest []) as [ch'|e] eqn:Hrec; [|discriminate Hmk].
      unfold mbind, result_bind in Hmk. injection Hmk as <-.
      destruct (String.eqb_spec n0 name) as [->|Hne].
      * rewrite Hfind in Hres. discriminate Hres.
      * rewrite find_entry_put_entry_other by (simpl; congruence). exact Hres.
Qed.

(** Writing a file keeps every other file. *)
Lemma write_at_keeps_files (path : string) (q : list string) (d0 : file_data) :
  forall (here here' : list node) (p : list string) (x : file_data),
  write_at path q d0 here = Ok here' -> p <> q ->
  resolve p here = Some (inl x) -> resolve p here' = Some (inl x).
Proof.
  induction q as [|name rest IH]; intros here here' p x Hw Hpq Hres.
  - discriminate Hw.
  - destruct p as [|n0 p']; [discriminate Hres|].
    rewrite resolve_cons in Hres. rewrite resolve_cons.
    simpl in Hw. destruct rest as [|next rest'].
    + assert (Hhere' : here' = put_entry (File name d0) here).
      { destruct (find_entry name here) as [[? ?|? ?]|]; try discriminate Hw;
          injection Hw as <-; reflexivity. }
      subst here'.
      destruct (String.eqb_spec n0 name) as [->|Hne].
      * destruct (find_entry name here) as [[fn fd|dn ch]|] eqn:Hfind.
        -- destruct p' as [|? ?]; [exfalso; apply Hpq; reflexivity | discriminate Hres].
        -- discriminate Hw.
        -- discriminate Hres.
      * rewrite find_entry_put_entry_other by (simpl; congruence). exact Hres.
    + destruct (find_entry name here) as [[fn fd|dn ch]|] eqn:Hfind; try discriminate Hw.
      destruct (write_at path (next :: rest') d0 ch) as [ch'|e] eqn:Hrec; [|discriminate Hw].
      unfold mbind, result_bind in Hw. injection Hw as <-.
      destruct (String.eqb_spec n0 name) as [->|Hne].
      * rewrite (find_entry_put_entry name (Dir name ch')) by reflexivity.
        rewrite Hfind in Hres.
        apply (IH ch ch' p' x Hrec); [congruence | exact Hres].
      * rewrite find_entry_put_entry_other by (simpl; congruence). exact Hres.
Qed.

Lemma makedirs_keeps_files (path : string) (fs fs' : filesystem) (o : result unit)
    (p : string) (x : file_data) :
  makedirs path fs = (o, fs') ->
  lookup_path p fs = Some (inl x) -> lookup_path p fs' = Some (inl x).
Proof.
  unfold makedirs, lookup_path. intros Hmk Hres.
  destruct (String.eqb p ""); [discriminate Hres|].
  destruct (String.eqb path ""); [injection Hmk as _ <-; exact Hres|].
  destruct (makedirs_at path (components path) fs) as [fs1|e] eqn:Hat;
    injection Hmk as _ <-; [|exact Hres].
  apply (makedirs_at_keeps_files path (components path) fs fs1 _ x Hat Hres).
Qed.

Lemma save_keeps_files (img : Image) (path : string) (fs fs' : filesystem)
    (o : result unit) (p : string) (x : file_data) :
  save img path fs = (o, fs') ->
  components p <> components path ->
  lookup_path p fs = Some (inl x) -> lookup_path p fs' = Some (inl x).
Proof.
  unfold save, lookup_path. intros Hsave Hne Hres.
  destruct (String.eqb p ""); [discriminate Hres|].
  destruct (write_at path (components path) (ImageFile img) fs) as [fs1|e] eqn:Hat;
    injection Hsave as <- <-; [|exact Hres].
  apply (write_at_keeps_files path (components path) _ fs fs1 _ x Hat Hne Hres).
Qed.

Lemma Image_open_reads (path : string) (fs fs0 : filesystem) (r : result Image) :
  Image_open path fs = (r, fs0) ->
  fs0 = fs /\ match r with
              | Ok orig => image_at path fs = Some orig
              | Raise _ => image_at path fs = None
              end.
Proof.
  unfold Image_open, image_at.
  destruct (lookup_path path fs) as [[[?|]|?]|]; intros [= <- <-]; split; reflexivity.
Qed.

Lemma trim_whitespace_keeps_files (image_path output_path : string) (m : Z)
    (c d : string) (fs fs' : filesystem) (o : result unit) (p : string) (x : file_data) :
  trim_whitespace image_path output_path m c d fs = (o, fs') ->
  lookup_path p fs = Some (inl x) ->
  components p <> components output_path ->
  lookup_path p fs' = Some (inl x).
Proof.
  intros Hrun Hres Hother.
  unfold trim_whitespace, mbind, io_bind in Hrun.
  destruct (Image_open image_path fs) as [[orig|e] fs0] eqn:Hopen;
    apply Image_open_reads in Hopen; destruct Hopen as [-> _].
  - unfold lift in Hrun at 1.
    destruct (trim_image orig m c d) as [cropped|e]; [|injection Hrun as _ <-; exact Hres].
    destruct (makedirs (dirname output_path) fs) as [[[]|e] fs1] eqn:Hmk.
    + pose proof (makedirs_keeps_files _ _ _ _ p x Hmk Hres) as Hres1.
      unfold lift in Hrun.
      destruct (for_save output_path cropped) as [saved|e];
        [|injection Hrun as _ <-; exact Hres1].
      apply (save_keeps_files saved output_path fs1 fs' o p x Hrun Hother Hres1).
    + injection Hrun as _ <-. apply (makedirs_keeps_files _ _ _ _ p x Hmk Hres).
  - injection Hrun as _ <-. exact Hres.
Qed.

(** A call that fails to open its image, or to trim it, raises before
    it touches the file system. *)
Lemma trim_whitespace_raises_early (image_path output_path : string) (m : Z)
    (c d : string) (fs fs' : filesystem) (o : result unit) :
  trim_whitespace image_path output_path m c d fs = (o, fs') ->
  (image_at image_path fs = None -> fs' = fs /\ exists e, o = Raise e)
  /\ (forall orig e, image_at image_path fs = Some orig ->
        trim_image orig m c d = Raise e -> fs' = fs /\ o = Raise e).
Proof.
  intros Hrun.
  unfold trim_whitespace, mbind, io_bind in Hrun.
  destruct (Image_open image_path fs) as [[orig|e] fs0] eqn:Hopen;
    apply Image_open_reads in Hopen; destruct Hopen as [-> Himg].
  - split; [intros Hnone; rewrite Hnone in Himg; discriminate Himg|].
    intros orig' e Horig Hfail. rewrite Horig in Himg. injection Himg as ->.
    unfold lift in Hrun at 1. rewrite Hfail in Hrun.
    injection Hrun as <- <-. split; reflexivity.
  - injection Hrun as <- <-. split.
    + intros _. split; [reflexivity | exists e; reflexivity].
    + intros orig e' Horig. rewrite Horig in Himg. discriminate Himg.
Qed.

(** X9. [trim_whitespace] changes no file but the one at its output path:
    a file at any other path holds after the call what it held before,
    whether the call returned or raised.  When the image cannot be
    opened, or trimming it raises, the call raises the same and has
    changed nothing at all: no directory is made and the output path is
    not touched. *)
Theorem trim_whitespace_touches_only_output (image_path output_path : string) (m : Z)
    (c d : string) (fs fs' : filesystem) (o : result unit) :
  trim_whitespace image_path output_path m c d fs = (o, fs') ->
  (forall p x, lookup_path p fs = Some (inl x) ->
     components p <> components output_path ->
     lookup_path p fs' = Some (inl x))
  /\ (image_at image_path fs = None -> fs' = fs /\ exists e, o = Raise e)
  /\ (forall orig e, image_at image_path fs = Some orig ->
        trim_image orig m c d = Raise e -> fs' = fs /\ o = Raise e).
Proof.
  intros Hrun. split.
  - intros p x Hp Hne.
    exact (trim_whitespace_keeps_files image_path output_path m c d fs fs' o p x Hrun Hp Hne).
  - exact (trim_whitespace_raises_early image_path output_path m c d fs fs' o Hrun).
Qed.

Lemma trim_whitespace_touches_only_output_witness :
  lookup_path "d/a.png"
    (snd (trim_whitespace "d/b.png" "d/Remake/b.png" 0 "white" "both" Samples.album))
  = Some (inl (ImageFile (Samples.all_white 10 10))).
Proof.
  destruct (trim_whitespace_touches_only_output "d/b.png" "d/Remake/b.png" 0
              "white" "both" Samples.album
              (snd (trim_whitespace "d/b.png" "d/Remake/b.png" 0 "white" "both"
                      Samples.album))
              (fst (trim_whitespace "d/b.png" "d/Remake/b.png" 0 "white" "both"
                      Samples.album))) as [Hkeep _].
  - vm_compute. reflexivity.
  - apply Hkeep.
    + vm_compute. reflexivity.
    + vm_compute. discriminate.
Defined.

(** ** Where the output goes *)

Lemma str_app_nil_r (a : string) : a +:+ "" = a.
Proof.
  induction a as [|ch a IH]; [reflexivity|].
  change (String ch (a +:+ "") = String ch a). f_equal. exact IH.
Qed.

Lemma take_str_app (a b : string) : take_str (String.length a) (a +:+ b) = a.
Proof.
  induction a as [|ch a IH]; [reflexivity|].
  change (String ch (take_str (String.length a) (a +:+ b)) = String ch a).
  f_equal. exact IH.
Qed.

(** The names of a path cut at a separator. *)
Lemma components_from_sep (a b cur : string) :
  components_from (a +:+ String sep b) cur
  = components_from a cur ++ components_from b "".
Proof.
  revert cur. induction a as [|ch a IH]; intros cur.
  - change ("" +:+ String sep b) with (String sep b).
    cbn [components_from]. rewrite Ascii.eqb_refl.
    destruct (String.eqb cur ""); reflexivity.
  - change (String ch a +:+ String sep b) with (String ch (a +:+ String sep b)).
    cbn [components_from]. destruct (Ascii.eqb ch sep).
    + rewrite IH. rewrite app_assoc. reflexivity.
    + apply IH.
Qed.

Lemma components_from_no_sep (b cur : string) :
  no_sep b = true -> components_from b cur = flush (cur +:+ b).
Proof.
  revert cur. induction b as [|ch b IH]; intros cur Hb.
  - cbn [components_from]. rewrite str_app_nil_r. reflexivity.
  - cbn [no_sep] in Hb. apply andb_true_iff in Hb. destruct Hb as [Hch Hb].
    apply negb_true_iff in Hch. cbn [components_from]. rewrite Hch.
    rewrite (IH _ Hb). rewrite str_app_assoc. reflexivity.
Qed.

Lemma components_sep (a b : string) :
  components (a +:+ String sep b) = components a ++ components b.
Proof. apply components_from_sep. Qed.

(** Where [rfind] finds the last separator. *)
Lemma rfind_from_spec (s : string) :
  forall i found,
  (no_sep s = true /\ rfind_from sep s i found = found)
  \/ (exists a b, s = a +:+ String sep b /\ no_sep b = true
                  /\ rfind_from sep s i found = i + Z.of_nat (String.length a)).
Proof.
  induction s as [|ch s IH]; intros i found.
  - left. split; reflexivity.
  - cbn [rfind_from no_sep].
    destruct (IH (i + 1) (if Ascii.eqb ch sep then i else found))
      as [[Hno Hr] | (a & b & -> & Hb & Hr)].
    + destruct (Ascii.eqb_spec ch sep) as [->|Hne].
      * right. exists "", s. split; [reflexivity|]. split; [exact Hno|].
        rewrite Hr. simpl. lia.
      * left. split; [exact Hno | exact Hr].
    + right. exists (String ch a), b. split; [reflexivity|]. split; [exact Hb|].
      rewrite Hr. cbn [String.length]. lia.
Qed.

(** A path is its head, empty or closed by a separator, and its base
    name, which has no separator. *)
Lemma path_split (p : string) :
  let i := Z.to_nat (rfind sep p + 1) in
  p = take_str i p +:+ drop_str i p
  /\ no_sep (drop_str i p) = true
  /\ (take_str i p = "" \/ exists a, take_str i p = a +:+ String sep "").
Proof.
  intros i. split; [symmetry; apply take_drop_str|].
  subst i. unfold rfind.
  destruct (rfind_from_spec p 0 (-1)) as [[Hno ->] | (a & b & -> & Hb & ->)].
  - simpl. split; [exact Hno | left; reflexivity].
  - replace (Z.to_nat (0 + Z.of_nat (String.length a) + 1))
      with (String.length (a +:+ String sep "")) by (rewrite str_length_app; simpl; lia).
    replace (a +:+ String sep b) with ((a +:+ String sep "") +:+ b)
      by (rewrite str_app_assoc; reflexivity).
    rewrite drop_str_app, take_str_app.
    split; [exact Hb | right; exists a; reflexivity].
Qed.

Lemma components_from_rstrip (h : string) :
  forall cur, components_from (rstrip sep h) cur = components_from h cur.
Proof.
  induction h as [|ch h IH]; intros cur; [reflexivity|].
  cbn [rstrip]. destruct (rstrip sep h) as [|c0 rest] eqn:Hr.
  - destruct (Ascii.eqb_spec ch sep) as [->|Hne].
    + cbn [components_from]. rewrite Ascii.eqb_refl. rewrite <- IH.
      cbn [components_from]. rewrite String.eqb_refl, app_nil_r. reflexivity.
    + cbn [components_from].
      destruct (Ascii.eqb_spec ch sep) as [|_]; [contradiction|].
      rewrite <- IH. reflexivity.
  - cbn [components_from]. destruct (Ascii.eqb ch sep).
    + rewrite <- IH. reflexivity.
    + rewrite <- IH. reflexivity.
Qed.

Lemma components_dirname (p : string) :
  components (dirname p) = components (take_str (Z.to_nat (rfind sep p + 1)) p).
Proof.
  unfold dirname.
  destruct (negb (String.eqb (take_str (Z.to_nat (rfind sep p + 1)) p) "")
            && negb (all_char sep (take_str (Z.to_nat (rfind sep p + 1)) p)));
    [apply components_from_rstrip | reflexivity].
Qed.

Lemma startswith_sep_no_sep (b : string) : no_sep b = true -> startswith b "/" = false.
Proof.
  destruct b as [|ch b]; [reflexivity|].
  cbn [no_sep]. intros H. apply andb_true_iff in H. destruct H as [Hch _].
  apply negb_true_iff in Hch. unfold startswith. cbn [String.length take_str].
  apply String.eqb_neq. intros [= ->]. rewrite Ascii.eqb_refl in Hch. discriminate.
Qed.

Lemma not_both_endings (pre stem : string) : pre +:+ "Remake" <> stem +:+ "/".
Proof.
  revert stem. induction pre as [|ch pre IH]; intros stem H.
  - destruct stem as [|? [|? [|? [|? [|? [|? [|? ?]]]]]]]; discriminate H.
  - destruct stem as [|c0 stem].
    + injection H as _ H. destruct pre; discriminate H.
    + injection H as _ H. apply (IH stem H).
Qed.

Lemma components_join_Remake (dir : string) :
  exists pre, join2 dir "Remake" = pre +:+ "Remake"
    /\ components (join2 dir "Remake") = components dir ++ ["Remake"].
Proof.
  unfold join2. change (startswith "Remake" "/") with false. cbv iota.
  destruct (String.eqb_spec dir "") as [->|Hne]; cbn [orb].
  - exists "". split; reflexivity.
  - destruct (endswith dir "/") eqn:Hend.
    + exists dir. split; [reflexivity|].
      apply endswith_spec in Hend. destruct Hend as (a & ->).
      rewrite str_app_assoc. change ("/" +:+ "Remake") with (String sep "Remake").
      change (a +:+ "/") with (a +:+ String sep "").
      rewrite !components_sep. rewrite app_nil_r. reflexivity.
    + exists (dir +:+ "/"). split; [rewrite str_app_assoc; reflexivity|].
      change (dir +:+ "/" +:+ "Remake") with (dir +:+ String sep "Remake").
      rewrite components_sep. reflexivity.
Qed.

Lemma output_components (src : string) :
  let out := join (dirname src) ["Remake"; basename src] in
  components out = components (dirname src) ++ "Remake" :: components (basename src)
  /\ components src = components (dirname src) ++ components (basename src)
  /\ components out <> components src.
Proof.
  intros out.
  destruct (path_split src) as (Hsplit & Hbase & Hhead).
  fold (basename src) in Hsplit, Hbase.
  assert (Hsrc : components src = components (dirname src) ++ components (basename src)).
  { rewrite components_dirname. rewrite Hsplit at 1.
    destruct Hhead as [-> | (a & ->)].
    - reflexivity.
    - rewrite str_app_assoc.
      change (String sep "" +:+ basename src) with (String sep (basename src)).
      rewrite !components_sep. rewrite app_nil_r. reflexivity. }
  assert (Hout : components out
                 = components (dirname src) ++ "Remake" :: components (basename src)).
  { subst out. unfold join. cbn [fold_left].
    destruct (components_join_Remake (dirname src)) as (pre & Hpre & Hcomp).
    unfold join2 at 1. rewrite (startswith_sep_no_sep _ Hbase).
    assert (Hne : String.eqb (join2 (dirname src) "Remake") "" = false).
    { rewrite Hpre. apply String.eqb_neq. destruct pre; discriminate. }
    assert (Hend : endswith (join2 (dirname src) "Remake") "/" = false).
    { apply not_true_false. intros He. apply endswith_spec in He.
      destruct He as (stem & He). rewrite Hpre in He.
      exact (not_both_endings pre stem He). }
    rewrite Hne, Hend. cbn [orb].
    change (join2 (dirname src) "Remake" +:+ "/" +:+ basename src)
      with (join2 (dirname src) "Remake" +:+ String sep (basename src)).
    rewrite components_sep, Hcomp, <- app_assoc. reflexivity. }
  split; [exact Hout|]. split; [exact Hsrc|].
  rewrite Hout, Hsrc. intros Heq.
  apply (f_equal (@length string)) in Heq.
  rewrite !length_app in Heq. cbn [length] in Heq. lia.
Qed.

(** X10. The output of a target goes to the directory [Remake] beside it,
    under its own name: the names of the output path are those of the
    directory of the source, then "Remake", then the base name.  It is
    never the path of the source itself. *)
Theorem output_path_beside_source (src : string) :
  let out := join (dirname src) ["Remake"; basename src] in
  components out = components (dirname src) ++ "Remake" :: components (basename src)
  /\ components src = components (dirname src) ++ components (basename src)
  /\ components out <> components src.
Proof. exact (output_components src). Qed.

(** The file system a batch leaves is the one its trims leave, one after
    the other. *)
Lemma batch_is_a_run_of_trims {W : Type} (c d : string) (m : Z)
    (progress_cb : option (Z -> Z -> W -> W)) (is_cancelled : option (W -> bool * W))
    (inputs : list string) (fs : filesystem) (w : W) :
  let '(errors, tr, fs', w') :=
    process_targets c d m progress_cb is_cancelled inputs fs w in
  (outcomes tr, fs') = trim_all (trimmed tr) m c d fs.
Proof.
  unfold process_targets.
  pose proof (report_events progress_cb 0
                (Z.of_nat (length (collect_targets inputs fs))) w) as Hrep.
  destruct (report progress_cb 0 _ w) as [ev0 w0].
  destruct Hrep as (_ & Hrt & Hro & _).
  pose proof (process_loop_trace c d m progress_cb is_cancelled
                (collect_targets inputs fs) 1
                (Z.of_nat (length (collect_targets inputs fs))) [] fs w0) as Hloop.
  destruct (process_loop c d m progress_cb is_cancelled _ 1 _ [] fs w0)
    as [[[errors evs] fs'] w'].
  destruct Hloop as (_ & Hall & _).
  rewrite trimmed_app, outcomes_app, Hrt, Hro. exact Hall.
Qed.

(** X11. Trimming a target never writes over the target: the source file
    holds after [trim_whitespace], called as the batch calls it, what it
    held before. *)
Theorem trim_keeps_its_source (src : string) (m : Z) (c d : string)
    (fs fs' : filesystem) (o : result unit) (x : file_data) :
  trim_whitespace src (join (dirname src) ["Remake"; basename src]) m c d fs = (o, fs') ->
  lookup_path src fs = Some (inl x) ->
  lookup_path src fs' = Some (inl x).
Proof.
  intros Hrun Hsrc.
  apply (trim_whitespace_keeps_files _ _ _ _ _ _ _ _ src x Hrun Hsrc).
  intros Heq. destruct (output_components src) as (_ & _ & Hne).
  apply Hne. symmetry. exact Heq.
Qed.

Lemma trim_keeps_its_source_witness :
  lookup_path "d/b.png"
    (snd (trim_whitespace "d/b.png" (join (dirname "d/b.png") ["Remake"; basename "d/b.png"])
            10 "white" "both" Samples.album))
  = Some (inl (ImageFile (Samples.white_with_square 10 10 4 4 2))).
Proof.
  apply (trim_keeps_its_source "d/b.png" 10 "white" "both" Samples.album
           (snd (trim_whitespace "d/b.png"
                   (join (dirname "d/b.png") ["Remake"; basename "d/b.png"])
                   10 "white" "both" Samples.album))
           (fst (trim_whitespace "d/b.png"
                   (join (dirname "d/b.png") ["Remake"; basename "d/b.png"])
                   10 "white" "both" Samples.album))
           (ImageFile (Samples.white_with_square 10 10 4 4 2))).
  - vm_compute. reflexivity.
  - vm_compute. reflexivity.
Defined.

Lemma trim_all_keeps_files (srcs : list string) (m : Z) (c d : string) :
  forall (fs : filesystem) (p : string) (x : file_data),
  lookup_path p fs = Some (inl x) ->
  (forall src, In src srcs ->
     components p <> components (join (dirname src) ["Remake"; basename src])) ->
  lookup_path p (snd (trim_all srcs m c d fs)) = Some (inl x).
Proof.
  induction srcs as [|src rest IH]; intros fs p x Hp Hother; [exact Hp|].
  cbn [trim_all].
  destruct (trim_whitespace src (join (dirname src) ["Remake"; basename src]) m c d fs)
    as [o fs1] eqn:Htrim.
  specialize (IH fs1 p x).
  destruct (trim_all rest m c d fs1) as [os fs2]. cbn [snd] in *.
  apply IH.
  - apply (trim_whitespace_keeps_files _ _ _ _ _ _ _ _ p x Htrim Hp).
    apply Hother. left. reflexivity.
  - intros s Hs. apply Hother. right. exact Hs.
Qed.

(** X12. A batch changes no file but those at the output paths of the
    targets it went through: any other file holds after
    [process_targets] what it held before, whatever failed and whether
    or not the run was cancelled. *)
Theorem batch_touches_only_outputs {W : Type} (c d : string) (m : Z)
    (progress_cb : option (Z -> Z -> W -> W)) (is_cancelled : option (W -> bool * W))
    (inputs : list string) (fs fs' : filesystem) (w w' : W)
    (errors : list string) (tr : list event) (p : string) (x : file_data) :
  process_targets c d m progress_cb is_cancelled inputs fs w = (errors, tr, fs', w') ->
  lookup_path p fs = Some (inl x) ->
  (forall src, In src (trimmed tr) ->
     components p <> components (join (dirname src) ["Remake"; basename src])) ->
  lookup_path p fs' = Some (inl x).
Proof.
  intros Hrun Hp Hother.
  pose proof (batch_is_a_run_of_trims c d m progress_cb is_cancelled inputs fs w) as H.
  rewrite Hrun in H.
  pose proof (trim_all_keeps_files (trimmed tr) m c d fs p x Hp Hother) as Hkeep.
  rewrite <- H in Hkeep. exact Hkeep.
Qed.

Lemma batch_touches_only_outputs_witness :
  lookup_path "d/notes.txt"
    (snd (fst (process_targets "white" "both" 0 None None ["d"]
                 Samples.album_with_notes tt)))
  = Some (inl NotAnImage).
Proof.
  pose (run := process_targets "white" "both" 0 (@None (Z -> Z -> unit -> unit))
                 (@None (unit -> bool * unit)) ["d"] Samples.album_with_notes tt).
  apply (batch_touches_only_outputs "white" "both" 0 None None ["d"]
           Samples.album_with_notes (snd (fst run)) tt (snd run)
           (fst (fst (fst run))) (snd (fst (fst run))) "d/notes.txt" NotAnImage).
  - vm_compute. reflexivity.
  - vm_compute. reflexivity.
  - intros src Hin. vm_compute in Hin.
    repeat (destruct Hin as [<- | Hin]; [vm_compute; discriminate|]).
    destruct Hin.
Defined.

(** A second run over the same directory takes the outputs of the first
    for targets too: it writes over [d/Remake/a.png] while trimming
    [d/a.png], and trims it in turn into [d/Remake/Remake]. *)
Example second_run_trims_the_outputs :
  let '(errors, tr, fs', _) := second_run Samples.album in
  errors = []
  /\ trimmed tr = ["d/a.png"; "d/b.png"; "d/Remake/a.png"; "d/Remake/b.png"]
  /\ walk "d" fs' = [("d", ["a.png"; "b.png"]);
                     ("d/Remake", ["a.png"; "b.png"]);
                     ("d/Remake/Remake", ["a.png"; "b.png"])].
Proof. vm_compute. repeat split; reflexivity. Qed.

(** * The window: preview and resize ([gui.py]) *)

(** ** The image previewed *)

Lemma truthy_supported (t : string) :
  endswith_any (lower t) SUPPORTED_EXTS = true -> truthy (Some t) = true.
Proof.
  intros H. destruct t as [|ch t]; [vm_compute in H; discriminate H | reflexivity].
Qed.

Lemma scan_files_head (root : string) (files : list string) (o : option string) :
  scan_files root files o
  = match head (flat_map (fun f => if endswith_any (lower f) SUPPORTED_EXTS
                                   then [join root [f]] else []) files) with
    | Some t => Some t
    | None => o
    end.
Proof.
  induction files as [|f files IH]; [reflexivity|].
  cbn [scan_files flat_map].
  destruct (endswith_any (lower f) SUPPORTED_EXTS); [reflexivity|exact IH].
Qed.

Lemma scan_walk_head (entries : list (string * list string)) (o : option string) :
  truthy o = false ->
  scan_walk entries o
  = match head (flat_map
                  (fun '(root, files) =>
                     flat_map (fun f => if endswith_any (lower f) SUPPORTED_EXTS
                                        then [join root [f]] else []) files)
                  entries) with
    | Some t => Some t
    | None => o
    end.
Proof.
  intros Ho. induction entries as [|[root files] entries IH]; [reflexivity|].
  cbn [scan_walk flat_map]. rewrite scan_files_head.
  pose proof (fun t => in_flat_map
                (fun f => if endswith_any (lower f) SUPPORTED_EXTS
                          then [join root [f]] else []) files t) as Hmem.
  destruct (flat_map (fun f => if endswith_any (lower f) SUPPORTED_EXTS
                               then [join root [f]] else []) files) as [|t here].
  - cbn [head app]. rewrite Ho. exact IH.
  - cbn [head app].
    assert (Ht : truthy (Some t) = true).
    { apply truthy_supported.
      destruct (proj1 (Hmem t) (or_introl eq_refl)) as (f & _ & Hf).
      destruct (endswith_any (lower f) SUPPORTED_EXTS) eqn:Hext; [|destruct Hf].
      destruct Hf as [<-|[]]. apply supported_after_join. exact Hext. }
    rewrite Ht. reflexivity.
Qed.

Lemma head_supported_truthy (l : list string) (t : string) :
  (forall u, In u l -> endswith_any (lower u) SUPPORTED_EXTS = true) ->
  head l = Some t -> truthy (Some t) = true.
Proof.
  intros Hall Hhead. apply truthy_supported, Hall.
  destruct l as [|u l]; [discriminate Hhead|]. injection Hhead as ->. left. reflexivity.
Qed.

Lemma scan_inputs_head (inputs : list string) (fs : filesystem) (o : option string) :
  truthy o = false ->
  scan_inputs inputs fs o
  = match head (collect_targets inputs fs) with
    | Some t => Some t
    | None => o
    end.
Proof.
  intros Ho. induction inputs as [|p inputs IH]; [reflexivity|].
  unfold collect_targets in *. cbn [scan_inputs flat_map].
  destruct (isdir p fs).
  - rewrite (scan_walk_head _ o Ho). fold (collect_dir p fs).
    pose proof (collect_dir_supported p fs) as Hsup.
    destruct (collect_dir p fs) as [|t here].
    + cbn [head app]. rewrite Ho. exact IH.
    + cbn [head app]. rewrite (truthy_supported t); [reflexivity|].
      apply Hsup. left. reflexivity.
  - destruct (isfile p fs && endswith_any (lower p) SUPPORTED_EXTS) eqn:Hp.
    + cbn [head app]. apply andb_true_iff in Hp.
      rewrite (truthy_supported p (proj2 Hp)). reflexivity.
    + cbn [head app]. rewrite Ho. exact IH.
Qed.

Lemma collect_targets_supported (inputs : list string) (fs : filesystem) (t : string) :
  In t (collect_targets inputs fs) -> endswith_any (lower t) SUPPORTED_EXTS = true.
Proof.
  unfold collect_targets. rewrite in_flat_map. intros (p & _ & Hin).
  destruct (isdir p fs).
  - apply (collect_dir_supported p fs). exact Hin.
  - destruct (isfile p fs && endswith_any (lower p) SUPPORTED_EXTS) eqn:Hp; [|destruct Hin].
    destruct Hin as [<-|[]]. apply andb_true_iff in Hp. apply Hp.
Qed.

(** X13. The image the window previews is the first target of the batch
    it would run on the same inputs; there is no preview exactly when
    the batch would have no target. *)
Theorem preview_is_first_target (inputs : list string) (fs : filesystem) :
  _prepare_preview_from_inputs inputs fs = head (collect_targets inputs fs).
Proof.
  unfold _prepare_preview_from_inputs.
  assert (Hgen : (if truthy (scan_inputs inputs fs None)
                  then scan_inputs inputs fs None else None)
                 = head (collect_targets inputs fs)).
  { rewrite (scan_inputs_head inputs fs None eq_refl).
    destruct (head (collect_targets inputs fs)) as [t|] eqn:Hhead; [|reflexivity].
    rewrite (head_supported_truthy _ t (collect_targets_supported inputs fs) Hhead).
    reflexivity. }
  destruct inputs as [|p [|q rest]]; [exact Hgen| |].
  - change (Z.of_nat (length [p]) =? 1) with true. cbn [andb].
    destruct (isfile p fs && endswith_any (lower p) SUPPORTED_EXTS) eqn:Hp; [|exact Hgen].
    apply andb_true_iff in Hp. destruct Hp as [Hfile Hext].
    rewrite (truthy_supported p Hext).
    unfold collect_targets. cbn [flat_map].
    assert (Hdir : isdir p fs = false).
    { unfold isfile in Hfile. unfold isdir.
      destruct (lookup_path p fs) as [[?|?]|]; [reflexivity|discriminate Hfile|reflexivity]. }
    rewrite Hdir, Hfile, Hext. reflexivity.
  - assert (Hlen : (Z.of_nat (length (p :: q :: rest)) =? 1) = false).
    { apply Z.eqb_neq. cbn [length]. lia. }
    rewrite Hlen. exact Hgen.
Qed.

Example preview_of_a_directory :
  _prepare_preview_from_inputs ["d/notes.txt"; "d"] Samples.album_with_notes
  = Some "d/a.png".
Proof. vm_compute. reflexivity. Qed.

(** ** The rectangle previewed *)

(** X14. The preview and the trim agree.  When the preview of a file
    finds a rectangle, it has written nothing, and a trim of the same
    file with the same colour and direction and no margin cuts the
    original by that very rectangle; when the preview raises, opening
    the file or looking for the rectangle, the trim raises the same
    exception and writes nothing. *)
Theorem preview_box_is_the_crop (path c d : string) (fs : filesystem) :
  match preview_box path c d fs with
  | (Ok (det, (l, r, t, b)), fs') =>
      fs' = fs
      /\ exists orig,
           Image_open path fs = (Ok orig, fs)
           /\ _rgb_for_detection orig c = Ok det
           /\ forall m, m <= 0 -> trim_image orig m c d = crop orig (l, t, r, b)
  | (Raise e, fs') =>
      fs' = fs
      /\ forall out m, trim_whitespace path out m c d fs = (Raise e, fs)
  end.
Proof.
  unfold preview_box, trim_whitespace, mbind, io_bind.
  destruct (Image_open path fs) as [[orig|e] fs0] eqn:Hopen.
  - assert (fs0 = fs).
    { unfold Image_open in Hopen.
      destruct (lookup_path path fs) as [[[?|]|?]|]; injection Hopen as _ <-; reflexivity. }
    subst fs0. unfold lift, trim_image.
    destruct (_rgb_for_detection orig c) as [det|e] eqn:Hdet.
    + destruct (detect_whitespace det c d 70) as [[[[l r] t] b]|e] eqn:Hbox.
      * cbn [mret io_ret]. split; [reflexivity|]. exists orig.
        split; [reflexivity|]. split; [exact Hdet|].
        intros m Hm.
        assert (Hgt : (m >? 0) = false).
        { rewrite Z.gtb_ltb. apply Z.ltb_ge. exact Hm. }
        rewrite Hdet. cbn [mbind result_bind]. rewrite Hbox. cbn [mbind result_bind].
        rewrite Hgt. destruct (crop orig (l, t, r, b)); reflexivity.
      * split; [reflexivity|]. intros out m. cbn [mbind result_bind]. rewrite Hbox.
        reflexivity.
    + split; reflexivity.
  - assert (fs0 = fs).
    { unfold Image_open in Hopen.
      destruct (lookup_path path fs) as [[[?|]|?]|]; injection Hopen as _ <-; reflexivity. }
    subst fs0. split; reflexivity.
Qed.

Example preview_box_of_the_square :
  preview_box "d/b.png" "white" "both" Samples.album
  = (Ok (Samples.white_with_square 10 10 4 4 2, (4, 6, 4, 6)), Samples.album).
Proof. vm_compute. reflexivity. Qed.

(** ** Edges, cursor and resize *)

Lemma str_contains_edges (t b l r : bool) :
  let edges := (if t then "T" else "") +:+ (if b then "B" else "")
               +:+ (if l then "L" else "") +:+ (if r then "R" else "") in
  str_contains "T" edges = t /\ str_contains "B" edges = b
  /\ str_contains "L" edges = l /\ str_contains "R" edges = r.
Proof. destruct t, b, l, r; vm_compute; repeat split; reflexivity. Qed.

Lemma edge_at_tests (rect_w rect_h : Z) (pos : Z * Z) :
  _edge_at rect_w rect_h pos
  = (if snd pos <=? RESIZE_MARGIN then "T" else "")
    +:+ (if snd pos >=? rect_h - RESIZE_MARGIN then "B" else "")
    +:+ (if fst pos <=? RESIZE_MARGIN then "L" else "")
    +:+ (if fst pos >=? rect_w - RESIZE_MARGIN then "R" else "").
Proof.
  unfold _edge_at. destruct pos as [pos_x pos_y]. cbn [fst snd].
  destruct (pos_y <=? RESIZE_MARGIN), (pos_y >=? rect_h - RESIZE_MARGIN),
    (pos_x <=? RESIZE_MARGIN), (pos_x >=? rect_w - RESIZE_MARGIN); reflexivity.
Qed.

(** X15. The string of [_edge_at] records its four tests, each letter
    for one: it holds "L" exactly when the pointer is within
    [RESIZE_MARGIN] of the left side, and so on; and a press starts a
    move exactly when the pointer is further than that from all four
    sides. *)
Theorem edge_at_letters (rect_w rect_h : Z) (pos : Z * Z) :
  let edges := _edge_at rect_w rect_h pos in
  str_contains "T" edges = (snd pos <=? RESIZE_MARGIN)
  /\ str_contains "B" edges = (snd pos >=? rect_h - RESIZE_MARGIN)
  /\ str_contains "L" edges = (fst pos <=? RESIZE_MARGIN)
  /\ str_contains "R" edges = (fst pos >=? rect_w - RESIZE_MARGIN)
  /\ (press rect_w rect_h pos = Moving
      <-> RESIZE_MARGIN < fst pos < rect_w - RESIZE_MARGIN
          /\ RESIZE_MARGIN < snd pos < rect_h - RESIZE_MARGIN).
Proof.
  intros edges. subst edges. unfold press. rewrite edge_at_tests.
  pose proof (str_contains_edges (snd pos <=? RESIZE_MARGIN)
                (snd pos >=? rect_h - RESIZE_MARGIN)
                (fst pos <=? RESIZE_MARGIN)
                (fst pos >=? rect_w - RESIZE_MARGIN)) as (Ht & Hb & Hl & Hr).
  repeat (split; [assumption|]).
  destruct (Z.leb_spec (snd pos) RESIZE_MARGIN) as [Ht'|Ht'];
    destruct (Z.geb_spec (snd pos) (rect_h - RESIZE_MARGIN)) as [Hb'|Hb'];
    destruct (Z.leb_spec (fst pos) RESIZE_MARGIN) as [Hl'|Hl'];
    destruct (Z.geb_spec (fst pos) (rect_w - RESIZE_MARGIN)) as [Hr'|Hr'];
    cbn; (split; [intros Hm; try discriminate Hm; lia | intros Hin; try reflexivity; lia]).
Qed.

(** X16. In a window more than twice [RESIZE_MARGIN] wide and high, as
    the main window with its minimum size always is, [_edge_at] gives
    one of nine strings: none, a side or a corner; and the cursor is the
    arrow exactly when a press would move the window rather than resize
    it. *)
Theorem cursor_tells_the_drag (rect_w rect_h : Z) (pos : Z * Z) :
  2 * RESIZE_MARGIN < rect_w -> 2 * RESIZE_MARGIN < rect_h ->
  In (_edge_at rect_w rect_h pos) [""; "T"; "B"; "L"; "R"; "TL"; "TR"; "BL"; "BR"]
  /\ (hover_cursor rect_w rect_h pos = ArrowCursor <-> press rect_w rect_h pos = Moving).
Proof.
  intros Hw Hh. unfold hover_cursor, press. rewrite edge_at_tests.
  destruct (Z.leb_spec (snd pos) RESIZE_MARGIN) as [Ht'|Ht'];
    destruct (Z.geb_spec (snd pos) (rect_h - RESIZE_MARGIN)) as [Hb'|Hb'];
    destruct (Z.leb_spec (fst pos) RESIZE_MARGIN) as [Hl'|Hl'];
    destruct (Z.geb_spec (fst pos) (rect_w - RESIZE_MARGIN)) as [Hr'|Hr'];
    try (exfalso; lia);
    (split; [cbn; tauto | cbn; split; intros H; (reflexivity || discriminate H)]).
Qed.

Lemma cursor_tells_the_drag_witness :
  In (_edge_at 1000 660 (3, 300)) [""; "T"; "B"; "L"; "R"; "TL"; "TR"; "BL"; "BR"]
  /\ (hover_cursor 1000 660 (3, 300) = ArrowCursor <-> press 1000 660 (3, 300) = Moving).
Proof.
  apply (cursor_tells_the_drag 1000 660 (3, 300)).
  - vm_compute. reflexivity.
  - vm_compute. reflexivity.
Defined.

(** In a window no wider than twice the margin the same point is near
    both sides: the cursor stays the arrow, and a press resizes. *)
Example edges_of_a_tiny_window :
  _edge_at 10 10 (5, 5) = "TBLR"
  /\ hover_cursor 10 10 (5, 5) = ArrowCursor
  /\ press 10 10 (5, 5) = Resizing "TBLR".
Proof. vm_compute. repeat split; reflexivity. Qed.

(** X17. [_resize_to] never asks for less than the minimum size on an
    axis it changes, nor on one where the window had it when the drag
    started; it leaves alone an axis none of whose sides is dragged;
    and the side opposite to the one dragged stays where it was: the
    right side when only the left is dragged, the left side when only
    the right is, and the same for top and bottom. *)
Theorem resize_keeps_minimum_and_anchor (start_mouse gpos : Z * Z)
    (x y w h minw minh : Z) (edges : string) :
  let '(x', y', w', h') :=
    _resize_to start_mouse (x, y, w, h) (minw, minh) edges gpos in
  let L := str_contains "L" edges in
  let R := str_contains "R" edges in
  let T := str_contains "T" edges in
  let B := str_contains "B" edges in
  (L || R = true \/ minw <= w -> minw <= w')
  /\ (T || B = true \/ minh <= h -> minh <= h')
  /\ (L = false -> x' = x)
  /\ (R = false -> x' + w' = x + w)
  /\ (T = false -> y' = y)
  /\ (B = false -> y' + h' = y + h)
  /\ (L = true -> R = false -> w' = Z.max minw (w - (fst gpos - fst start_mouse)))
  /\ (L = false -> R = true -> w' = Z.max minw (w + (fst gpos - fst start_mouse)))
  /\ (T = true -> B = false -> h' = Z.max minh (h - (snd gpos - snd start_mouse)))
  /\ (T = false -> B = true -> h' = Z.max minh (h + (snd gpos - snd start_mouse))).
Proof.
  unfold _resize_to.
  destruct (str_contains "L" edges), (str_contains "R" edges),
    (str_contains "T" edges), (str_contains "B" edges); cbn [orb];
    repeat split; intros; try discriminate; try reflexivity; lia.
Qed.

Example resize_from_the_left :
  _resize_to (100, 100) (50, 60, 1000, 660) (900, 600) "L" (130, 400)
  = (80, 60, 970, 660)
  /\ _resize_to (100, 100) (50, 60, 1000, 660) (900, 600) "L" (400, 400)
     = (150, 60, 900, 660).
Proof. vm_compute. split; reflexivity. Qed.

(** * Inputs the batch passes over *)

Lemma collect_targets_skips (a b : list string) (p : string) (fs : filesystem) :
  isdir p fs = false ->
  isfile p fs && endswith_any (lower p) SUPPORTED_EXTS = false ->
  collect_targets (a ++ p :: b) fs = collect_targets (a ++ b) fs.
Proof.
  intros Hdir Hfile. unfold collect_targets.
  rewrite !flat_map_app. cbn [flat_map]. rewrite Hdir, Hfile. reflexivity.
Qed.

(** X18. An input that is no directory and no file with a supported
    extension, be it a missing path, is passed over in silence: the
    batch does, reports and returns what it would without it, and no
    error names it. *)
Theorem unsupported_inputs_are_skipped {W : Type} (c d : string) (m : Z)
    (progress_cb : option (Z -> Z -> W -> W)) (is_cancelled : option (W -> bool * W))
    (a b : list string) (p : string) (fs : filesystem) (w : W) :
  isdir p fs = false ->
  isfile p fs && endswith_any (lower p) SUPPORTED_EXTS = false ->
  process_targets c d m progress_cb is_cancelled (a ++ p :: b) fs w
  = process_targets c d m progress_cb is_cancelled (a ++ b) fs w.
Proof.
  intros Hdir Hfile. unfold process_targets.
  rewrite (collect_targets_skips a b p fs Hdir Hfile). reflexivity.
Qed.

Lemma unsupported_inputs_are_skipped_witness :
  process_targets "white" "both" 0 (@None (Z -> Z -> unit -> unit))
    (@None (unit -> bool * unit)) (["d/a.png"] ++ "d/notes.txt" :: ["d/nothing.png"])
    Samples.album_with_notes tt
  = process_targets "white" "both" 0 None None (["d/a.png"] ++ ["d/nothing.png"])
      Samples.album_with_notes tt.
Proof.
  apply (unsupported_inputs_are_skipped "white" "both" 0 None None
           ["d/a.png"] ["d/nothing.png"] "d/notes.txt" Samples.album_with_notes tt).
  - vm_compute. reflexivity.
  - vm_compute. reflexivity.
Defined.
